(** * aioice: the ICE agent of [src/aioice/ice.py]

    A shallow embedding of the check-list machinery of [Connection]
    (pair priorities, check-list ordering, initial unfreezing, periodic
    checks, completion, role conflicts, remote candidates, credentials
    validation, close) and the properties the specification states about
    it; and of the construction of a connection, the host addresses, the
    connectivity checks, consent freshness, the events and the transfer
    of data, with further properties of the code.

    Conventions.
    - Python [int] is [Z]; [str] is [string]; [list] is [list]; [set] is
      [gset]; [dict] is [gmap].
    - [CandidatePair] objects are mutable and shared between the check
      list, the nominated map and the check tasks: they live in a store
      ([pairs]) and are named by their position in it ([PairRef]).
    - A function that can raise runs in the monad [M]: it returns [Ok] or
      [Raise], together with the connection as the call left it. *)

From Stdlib Require Import ZArith Lia String Ascii Sorted Permutation.
From stdpp Require Import gmap strings list fin_maps.

Local Open Scope Z_scope.

(** ** Python primitives used by the module *)

(** [c and a or b] for a boolean [c] and integers [a], [b]: the value is
    [a] when [c] is true and [a] is truthy (non-zero), and [b] otherwise. *)
Definition py_and_or (c : bool) (a b : Z) : Z :=
  if c then (if a =? 0 then b else a) else b.

(** [list.sort(key=...)] and [sorted(..., key=...)]: a stable sort, the
    keys in ascending order.  Insertion from the right keeps an element in
    front of the later elements that have the same key. *)
Fixpoint py_insort {A} (key : A → Z) (x : A) (l : list A) : list A :=
  match l with
  | [] => [x]
  | y :: l' => if key x <=? key y then x :: l else y :: py_insort key x l'
  end.

Definition py_sorted {A} (key : A → Z) (l : list A) : list A :=
  foldr (py_insort key) [] l.

(** [min(s)] of a set of integers; [None] stands for the [ValueError] that
    [min] raises on an empty set. *)
Definition py_min (s : gset Z) : option Z :=
  match elements s with
  | [] => None
  | x :: l => Some (foldr Z.min x l)
  end.

(** [set(s)] for a string [s]: the set of its characters, each a string of
    length one. *)
Definition py_set_of_str (s : string) : gset string :=
  list_to_set ((λ a, String a EmptyString) <$> list_ascii_of_string s).

(** The character class [[a-z0-9+/]] of the two credential patterns. *)
Definition ice_char (a : ascii) : bool :=
  let n := nat_of_ascii a in
  ((97 <=? n) && (n <=? 122) || (48 <=? n) && (n <=? 57)
   || (n =? 43) || (n =? 47))%nat.

(** [$] without [re.MULTILINE]: the end of the string, or just before a
    newline that is the last character of the string. *)
Definition re_at_dollar (rest : string) : bool :=
  match rest with
  | EmptyString => true
  | String a EmptyString => (nat_of_ascii a =? 10)%nat
  | String _ (String _ _) => false
  end.

(** [re.match("^[a-z0-9+/]{lo,hi}$", s)], with [s] what is left of the
    string, [lo] the repetitions still required and [hi] those still
    allowed.  The repetition is greedy and backtracks: after each
    character it first tries to go on, then to stop here. *)
Fixpoint re_ice_chars (lo hi : nat) (s : string) : bool :=
  match hi with
  | O => (lo =? 0)%nat && re_at_dollar s
  | S hi' =>
      match s with
      | String a s' =>
          (ice_char a && re_ice_chars (pred lo) hi' s')
          || ((lo =? 0)%nat && re_at_dollar s)
      | EmptyString => (lo =? 0)%nat && re_at_dollar s
      end
  end.

(** ** Exceptions and the monad of raising methods *)

Inductive Exn :=
| ValueError (msg : string)
| KeyError (key : string)
| AssertionError
| RecursionError.

Inductive Result (A : Type) :=
| Ok (a : A)
| Raise (e : Exn).
Arguments Ok {A} a.
Arguments Raise {A} e.

(** ** Data model *)

(** Modelled from the spec: the [Candidate] record of [candidate.py], which
    is not among the sources (section 3, Candidate: foundation, component,
    transport, priority, host, port, type, related address and port). *)
Record Candidate := {
  foundation : string;
  component : Z;
  transport : string;
  priority : Z;
  host : string;
  port : Z;
  type : string;
  related_address : option string;
  related_port : option Z
}.

Definition set_host (h : string) (x : Candidate) : Candidate :=
  {| foundation := foundation x; component := component x;
     transport := transport x; priority := priority x; host := h;
     port := port x; type := type x; related_address := related_address x;
     related_port := related_port x |}.

(** [StunProtocol]: [pid] is its [id] (unique, drawn from the counter
    [protocol_id]); [local_candidate] is set once, while gathering.  The
    future [__closed] of a protocol is kept in the connection ([lost]). *)
Record StunProtocol := {
  pid : nat;
  local_candidate : Candidate
}.

Inductive State := FROZEN | WAITING | IN_PROGRESS | SUCCEEDED | FAILED.

Global Instance State_eq_dec : EqDecision State.
Proof. solve_decision. Defined.

(** A check task is named by its position among the tasks created. *)
Abbreviation TaskRef := nat (only parsing).

Record CandidatePair := {
  task : option TaskRef;
  nominated : bool;
  protocol : StunProtocol;
  remote_candidate : Candidate;
  remote_nominated : bool;
  state : State
}.

(** [CandidatePair(protocol, remote_candidate)] *)
Definition new_pair (p : StunProtocol) (r : Candidate) : CandidatePair :=
  {| task := None; nominated := false; protocol := p; remote_candidate := r;
     remote_nominated := false; state := FROZEN |}.

Definition set_task (t : option TaskRef) (p : CandidatePair) : CandidatePair :=
  {| task := t; nominated := nominated p; protocol := protocol p;
     remote_candidate := remote_candidate p;
     remote_nominated := remote_nominated p; state := state p |}.

Definition set_pair_nominated (b : bool) (p : CandidatePair) : CandidatePair :=
  {| task := task p; nominated := b; protocol := protocol p;
     remote_candidate := remote_candidate p;
     remote_nominated := remote_nominated p; state := state p |}.

Definition set_remote_nominated (b : bool) (p : CandidatePair) : CandidatePair :=
  {| task := task p; nominated := nominated p; protocol := protocol p;
     remote_candidate := remote_candidate p; remote_nominated := b;
     state := state p |}.

Definition set_state (s : State) (p : CandidatePair) : CandidatePair :=
  {| task := task p; nominated := nominated p; protocol := protocol p;
     remote_candidate := remote_candidate p;
     remote_nominated := remote_nominated p; state := s |}.

(** The properties [component] and [local_candidate] of a pair. *)
Definition pair_local_candidate (p : CandidatePair) : Candidate :=
  local_candidate (protocol p).

Definition pair_component (p : CandidatePair) : Z :=
  component (pair_local_candidate p).

(** STUN messages, as [ice.py] uses them. *)
Inductive Method := BINDING | OtherMethod (code : Z).
Inductive Class := REQUEST | INDICATION | RESPONSE | ERROR.

Global Instance Method_eq_dec : EqDecision Method.
Proof. solve_decision. Defined.

Abbreviation Addr := (string * Z)%type (only parsing).

(** Modelled from the spec: the attributes of a [stun.Message] that the
    agent reads or writes, typed as section 6 (STUN wire format) gives
    them; an absent attribute is [None] ([false] for USE-CANDIDATE, whose
    value is empty). *)
Record Attributes := {
  USERNAME : option string;
  PRIORITY : option Z;
  ICE_CONTROLLING : option Z;
  ICE_CONTROLLED : option Z;
  USE_CANDIDATE : bool;
  XOR_MAPPED_ADDRESS : option Addr;
  ERROR_CODE : option (Z * string)
}.

Definition no_attributes : Attributes :=
  {| USERNAME := None; PRIORITY := None; ICE_CONTROLLING := None;
     ICE_CONTROLLED := None; USE_CANDIDATE := false;
     XOR_MAPPED_ADDRESS := None; ERROR_CODE := None |}.

(** [integrity_key] is the key given to [add_message_integrity], if any. *)
Record Message := {
  message_method : Method;
  message_class : Class;
  transaction_id : string;
  attributes : Attributes;
  integrity_key : option string
}.

Inductive ConnectionEvent := ConnectionClosed.

Definition ICE_COMPLETED : Z := 1.
Definition ICE_FAILED : Z := 2.

Abbreviation PairRef := nat (only parsing).
Abbreviation Future := nat (only parsing).

(** The consent task: [true] once it is done. *)
Abbreviation Task := bool (only parsing).

(** ** The connection

    The fields of [Connection] that the embedded methods read or write,
    under their names, then the objects and effects outside of it:
    - [pairs]: the store of [CandidatePair] objects;
    - [spawned]: the check tasks created, in order, each with its pair;
    - [sent]: the datagrams handed to [send_stun], with the protocol's id;
    - [emitted]: the events given to [_emit_event];
    - [delivered]: the events set as result of the future awaited;
    - [lost]: the protocols whose [connection_lost] has run;
    - [mdns_subscribed]: whether the connection subscribes to mDNS. *)
#[projections(primitive)]
Record Connection := {
  ice_controlling : bool;
  remote_username : option string;
  local_username : string;
  local_password : string;
  _closed : bool;
  _components : gset Z;
  _check_list : list PairRef;
  _check_list_done : bool;
  _check_list_state : list Z;
  _early_checks : list (Message * Addr * StunProtocol);
  _early_checks_done : bool;
  _event_waiter : option Future;
  _local_candidates : list Candidate;
  _nominated : gmap Z PairRef;
  _protocols : list StunProtocol;
  _remote_candidates : list Candidate;
  _remote_candidates_end : bool;
  _query_consent_task : option Task;
  _queue : list (option string * option Z);
  _tie_breaker : Z;
  pairs : list CandidatePair;
  spawned : list PairRef;
  sent : list (nat * Message * Addr);
  emitted : list ConnectionEvent;
  delivered : list (Future * ConnectionEvent);
  lost : gset nat;
  mdns_subscribed : bool
}.

Definition M (A : Type) : Type := Connection → Result A * Connection.

Definition ret {A} (a : A) : M A := λ c, (Ok a, c).

Definition raise {A} (e : Exn) : M A := λ c, (Raise e, c).

Definition bind {A B} (m : M A) (k : A → M B) : M B :=
  λ c, match m c with
       | (Ok a, c') => k a c'
       | (Raise e, c') => (Raise e, c')
       end.

(** A method that cannot raise, as a step of [M]. *)
Definition run (f : Connection → Connection) : M unit := λ c, (Ok tt, f c).

Notation "x <- m ;; k" := (bind m (λ x, k))
  (at level 100, m at next level, right associativity).
Notation "m ;; k" := (bind m (λ _, k))
  (at level 100, right associativity).

(** Field updates. *)
Definition set_ice_controlling (v : bool) (c : Connection) : Connection :=
  {| ice_controlling := v; remote_username := remote_username c;
     local_username := local_username c; local_password := local_password c;
     _closed := _closed c; _components := _components c;
     _check_list := _check_list c; _check_list_done := _check_list_done c;
     _check_list_state := _check_list_state c;
     _early_checks := _early_checks c;
     _early_checks_done := _early_checks_done c;
     _event_waiter := _event_waiter c;
     _local_candidates := _local_candidates c; _nominated := _nominated c;
     _protocols := _protocols c; _remote_candidates := _remote_candidates c;
     _remote_candidates_end := _remote_candidates_end c;
     _query_consent_task := _query_consent_task c; _queue := _queue c;
     _tie_breaker := _tie_breaker c; pairs := pairs c; spawned := spawned c;
     sent := sent c; emitted := emitted c; delivered := delivered c;
     lost := lost c; mdns_subscribed := mdns_subscribed c |}.

Definition set_closed (v : bool) (c : Connection) : Connection :=
  {| ice_controlling := ice_controlling c;
     remote_username := remote_username c;
     local_username := local_username c; local_password := local_password c;
     _closed := v; _components := _components c;
     _check_list := _check_list c; _check_list_done := _check_list_done c;
     _check_list_state := _check_list_state c;
     _early_checks := _early_checks c;
     _early_checks_done := _early_checks_done c;
     _event_waiter := _event_waiter c;
     _local_candidates := _local_candidates c; _nominated := _nominated c;
     _protocols := _protocols c; _remote_candidates := _remote_candidates c;
     _remote_candidates_end := _remote_candidates_end c;
     _query_consent_task := _query_consent_task c; _queue := _queue c;
     _tie_breaker := _tie_breaker c; pairs := pairs c; spawned := spawned c;
     sent := sent c; emitted := emitted c; delivered := delivered c;
     lost := lost c; mdns_subscribed := mdns_subscribed c |}.

Definition set_components (v : gset Z) (c : Connection) : Connection :=
  {| ice_controlling := ice_controlling c;
     remote_username := remote_username c;
     local_username := local_username c; local_password := local_password c;
     _closed := _closed c; _components := v; _check_list := _check_list c;
     _check_list_done := _check_list_done c;
     _check_list_state := _check_list_state c;
     _early_checks := _early_checks c;
     _early_checks_done := _early_checks_done c;
     _event_waiter := _event_waiter c;
     _local_candidates := _local_candidates c; _nominated := _nominated c;
     _protocols := _protocols c; _remote_candidates := _remote_candidates c;
     _remote_candidates_end := _remote_candidates_end c;
     _query_consent_task := _query_consent_task c; _queue := _queue c;
     _tie_breaker := _tie_breaker c; pairs := pairs c; spawned := spawned c;
     sent := sent c; emitted := emitted c; delivered := delivered c;
     lost := lost c; mdns_subscribed := mdns_subscribed c |}.

Definition set_check_list (v : list PairRef) (c : Connection) : Connection :=
  {| ice_controlling := ice_controlling c;
     remote_username := remote_username c;
     local_username := local_username c; local_password := local_password c;
     _closed := _closed c; _components := _components c; _check_list := v;
     _check_list_done := _check_list_done c;
     _check_list_state := _check_list_state c;
     _early_checks := _early_checks c;
     _early_checks_done := _early_checks_done c;
     _event_waiter := _event_waiter c;
     _local_candidates := _local_candidates c; _nominated := _nominated c;
     _protocols := _protocols c; _remote_candidates := _remote_candidates c;
     _remote_candidates_end := _remote_candidates_end c;
     _query_consent_task := _query_consent_task c; _queue := _queue c;
     _tie_breaker := _tie_breaker c; pairs := pairs c; spawned := spawned c;
     sent := sent c; emitted := emitted c; delivered := delivered c;
     lost := lost c; mdns_subscribed := mdns_subscribed c |}.

Definition set_check_list_done (v : bool) (c : Connection) : Connection :=
  {| ice_controlling := ice_controlling c;
     remote_username := remote_username c;
     local_username := local_username c; local_password := local_password c;
     _closed := _closed c; _components := _components c;
     _check_list := _check_list c; _check_list_done := v;
     _check_list_state := _check_list_state c;
     _early_checks := _early_checks c;
     _early_checks_done := _early_checks_done c;
     _event_waiter := _event_waiter c;
     _local_candidates := _local_candidates c; _nominated := _nominated c;
     _protocols := _protocols c; _remote_candidates := _remote_candidates c;
     _remote_candidates_end := _remote_candidates_end c;
     _query_consent_task := _query_consent_task c; _queue := _queue c;
     _tie_breaker := _tie_breaker c; pairs := pairs c; spawned := spawned c;
     sent := sent c; emitted := emitted c; delivered := delivered c;
     lost := lost c; mdns_subscribed := mdns_subscribed c |}.

Definition set_check_list_state (v : list Z) (c : Connection) : Connection :=
  {| ice_controlling := ice_controlling c;
     remote_username := remote_username c;
     local_username := local_username c; local_password := local_password c;
     _closed := _closed c; _components := _components c;
     _check_list := _check_list c; _check_list_done := _check_list_done c;
     _check_list_state := v; _early_checks := _early_checks c;
     _early_checks_done := _early_checks_done c;
     _event_waiter := _event_waiter c;
     _local_candidates := _local_candidates c; _nominated := _nominated c;
     _protocols := _protocols c; _remote_candidates := _remote_candidates c;
     _remote_candidates_end := _remote_candidates_end c;
     _query_consent_task := _query_consent_task c; _queue := _queue c;
     _tie_breaker := _tie_breaker c; pairs := pairs c; spawned := spawned c;
     sent := sent c; emitted := emitted c; delivered := delivered c;
     lost := lost c; mdns_subscribed := mdns_subscribed c |}.

Definition set_early_checks (v : list (Message * Addr * StunProtocol)) (c : Connection) : Connection :=
  {| ice_controlling := ice_controlling c;
     remote_username := remote_username c;
     local_username := local_username c; local_password := local_password c;
     _closed := _closed c; _components := _components c;
     _check_list := _check_list c; _check_list_done := _check_list_done c;
     _check_list_state := _check_list_state c; _early_checks := v;
     _early_checks_done := _early_checks_done c;
     _event_waiter := _event_waiter c;
     _local_candidates := _local_candidates c; _nominated := _nominated c;
     _protocols := _protocols c; _remote_candidates := _remote_candidates c;
     _remote_candidates_end := _remote_candidates_end c;
     _query_consent_task := _query_consent_task c; _queue := _queue c;
     _tie_breaker := _tie_breaker c; pairs := pairs c; spawned := spawned c;
     sent := sent c; emitted := emitted c; delivered := delivered c;
     lost := lost c; mdns_subscribed := mdns_subscribed c |}.

Definition set_event_waiter (v : option Future) (c : Connection) : Connection :=
  {| ice_controlling := ice_controlling c;
     remote_username := remote_username c;
     local_username := local_username c; local_password := local_password c;
     _closed := _closed c; _components := _components c;
     _check_list := _check_list c; _check_list_done := _check_list_done c;
     _check_list_state := _check_list_state c;
     _early_checks := _early_checks c;
     _early_checks_done := _early_checks_done c; _event_waiter := v;
     _local_candidates := _local_candidates c; _nominated := _nominated c;
     _protocols := _protocols c; _remote_candidates := _remote_candidates c;
     _remote_candidates_end := _remote_candidates_end c;
     _query_consent_task := _query_consent_task c; _queue := _queue c;
     _tie_breaker := _tie_breaker c; pairs := pairs c; spawned := spawned c;
     sent := sent c; emitted := emitted c; delivered := delivered c;
     lost := lost c; mdns_subscribed := mdns_subscribed c |}.

Definition set_local_candidates (v : list Candidate) (c : Connection) : Connection :=
  {| ice_controlling := ice_controlling c;
     remote_username := remote_username c;
     local_username := local_username c; local_password := local_password c;
     _closed := _closed c; _components := _components c;
     _check_list := _check_list c; _check_list_done := _check_list_done c;
     _check_list_state := _check_list_state c;
     _early_checks := _early_checks c;
     _early_checks_done := _early_checks_done c;
     _event_waiter := _event_waiter c; _local_candidates := v;
     _nominated := _nominated c; _protocols := _protocols c;
     _remote_candidates := _remote_candidates c;
     _remote_candidates_end := _remote_candidates_end c;
     _query_consent_task := _query_consent_task c; _queue := _queue c;
     _tie_breaker := _tie_breaker c; pairs := pairs c; spawned := spawned c;
     sent := sent c; emitted := emitted c; delivered := delivered c;
     lost := lost c; mdns_subscribed := mdns_subscribed c |}.

Definition set_nominated (v : gmap Z PairRef) (c : Connection) : Connection :=
  {| ice_controlling := ice_controlling c;
     remote_username := remote_username c;
     local_username := local_username c; local_password := local_password c;
     _closed := _closed c; _components := _components c;
     _check_list := _check_list c; _check_list_done := _check_list_done c;
     _check_list_state := _check_list_state c;
     _early_checks := _early_checks c;
     _early_checks_done := _early_checks_done c;
     _event_waiter := _event_waiter c;
     _local_candidates := _local_candidates c; _nominated := v;
     _protocols := _protocols c; _remote_candidates := _remote_candidates c;
     _remote_candidates_end := _remote_candidates_end c;
     _query_consent_task := _query_consent_task c; _queue := _queue c;
     _tie_breaker := _tie_breaker c; pairs := pairs c; spawned := spawned c;
     sent := sent c; emitted := emitted c; delivered := delivered c;
     lost := lost c; mdns_subscribed := mdns_subscribed c |}.

Definition set_protocols (v : list StunProtocol) (c : Connection) : Connection :=
  {| ice_controlling := ice_controlling c;
     remote_username := remote_username c;
     local_username := local_username c; local_password := local_password c;
     _closed := _closed c; _components := _components c;
     _check_list := _check_list c; _check_list_done := _check_list_done c;
     _check_list_state := _check_list_state c;
     _early_checks := _early_checks c;
     _early_checks_done := _early_checks_done c;
     _event_waiter := _event_waiter c;
     _local_candidates := _local_candidates c; _nominated := _nominated c;
     _protocols := v; _remote_candidates := _remote_candidates c;
     _remote_candidates_end := _remote_candidates_end c;
     _query_consent_task := _query_consent_task c; _queue := _queue c;
     _tie_breaker := _tie_breaker c; pairs := pairs c; spawned := spawned c;
     sent := sent c; emitted := emitted c; delivered := delivered c;
     lost := lost c; mdns_subscribed := mdns_subscribed c |}.

Definition set_remote_candidates (v : list Candidate) (c : Connection) : Connection :=
  {| ice_controlling := ice_controlling c;
     remote_username := remote_username c;
     local_username := local_username c; local_password := local_password c;
     _closed := _closed c; _components := _components c;
     _check_list := _check_list c; _check_list_done := _check_list_done c;
     _check_list_state := _check_list_state c;
     _early_checks := _early_checks c;
     _early_checks_done := _early_checks_done c;
     _event_waiter := _event_waiter c;
     _local_candidates := _local_candidates c; _nominated := _nominated c;
     _protocols := _protocols c; _remote_candidates := v;
     _remote_candidates_end := _remote_candidates_end c;
     _query_consent_task := _query_consent_task c; _queue := _queue c;
     _tie_breaker := _tie_breaker c; pairs := pairs c; spawned := spawned c;
     sent := sent c; emitted := emitted c; delivered := delivered c;
     lost := lost c; mdns_subscribed := mdns_subscribed c |}.

Definition set_remote_candidates_end (v : bool) (c : Connection) : Connection :=
  {| ice_controlling := ice_controlling c;
     remote_username := remote_username c;
     local_username := local_username c; local_password := local_password c;
     _closed := _closed c; _components := _components c;
     _check_list := _check_list c; _check_list_done := _check_list_done c;
     _check_list_state := _check_list_state c;
     _early_checks := _early_checks c;
     _early_checks_done := _early_checks_done c;
     _event_waiter := _event_waiter c;
     _local_candidates := _local_candidates c; _nominated := _nominated c;
     _protocols := _protocols c; _remote_candidates := _remote_candidates c;
     _remote_candidates_end := v;
     _query_consent_task := _query_consent_task c; _queue := _queue c;
     _tie_breaker := _tie_breaker c; pairs := pairs c; spawned := spawned c;
     sent := sent c; emitted := emitted c; delivered := delivered c;
     lost := lost c; mdns_subscribed := mdns_subscribed c |}.

Definition set_query_consent_task (v : option Task) (c : Connection) : Connection :=
  {| ice_controlling := ice_controlling c;
     remote_username := remote_username c;
     local_username := local_username c; local_password := local_password c;
     _closed := _closed c; _components := _components c;
     _check_list := _check_list c; _check_list_done := _check_list_done c;
     _check_list_state := _check_list_state c;
     _early_checks := _early_checks c;
     _early_checks_done := _early_checks_done c;
     _event_waiter := _event_waiter c;
     _local_candidates := _local_candidates c; _nominated := _nominated c;
     _protocols := _protocols c; _remote_candidates := _remote_candidates c;
     _remote_candidates_end := _remote_candidates_end c;
     _query_consent_task := v; _queue := _queue c;
     _tie_breaker := _tie_breaker c; pairs := pairs c; spawned := spawned c;
     sent := sent c; emitted := emitted c; delivered := delivered c;
     lost := lost c; mdns_subscribed := mdns_subscribed c |}.

Definition set_queue (v : list (option string * option Z)) (c : Connection) : Connection :=
  {| ice_controlling := ice_controlling c;
     remote_username := remote_username c;
     local_username := local_username c; local_password := local_password c;
     _closed := _closed c; _components := _components c;
     _check_list := _check_list c; _check_list_done := _check_list_done c;
     _check_list_state := _check_list_state c;
     _early_checks := _early_checks c;
     _early_checks_done := _early_checks_done c;
     _event_waiter := _event_waiter c;
     _local_candidates := _local_candidates c; _nominated := _nominated c;
     _protocols := _protocols c; _remote_candidates := _remote_candidates c;
     _remote_candidates_end := _remote_candidates_end c;
     _query_consent_task := _query_consent_task c; _queue := v;
     _tie_breaker := _tie_breaker c; pairs := pairs c; spawned := spawned c;
     sent := sent c; emitted := emitted c; delivered := delivered c;
     lost := lost c; mdns_subscribed := mdns_subscribed c |}.

Definition set_pairs (v : list CandidatePair) (c : Connection) : Connection :=
  {| ice_controlling := ice_controlling c;
     remote_username := remote_username c;
     local_username := local_username c; local_password := local_password c;
     _closed := _closed c; _components := _components c;
     _check_list := _check_list c; _check_list_done := _check_list_done c;
     _check_list_state := _check_list_state c;
     _early_checks := _early_checks c;
     _early_checks_done := _early_checks_done c;
     _event_waiter := _event_waiter c;
     _local_candidates := _local_candidates c; _nominated := _nominated c;
     _protocols := _protocols c; _remote_candidates := _remote_candidates c;
     _remote_candidates_end := _remote_candidates_end c;
     _query_consent_task := _query_consent_task c; _queue := _queue c;
     _tie_breaker := _tie_breaker c; pairs := v; spawned := spawned c;
     sent := sent c; emitted := emitted c; delivered := delivered c;
     lost := lost c; mdns_subscribed := mdns_subscribed c |}.

Definition set_spawned (v : list PairRef) (c : Connection) : Connection :=
  {| ice_controlling := ice_controlling c;
     remote_username := remote_username c;
     local_username := local_username c; local_password := local_password c;
     _closed := _closed c; _components := _components c;
     _check_list := _check_list c; _check_list_done := _check_list_done c;
     _check_list_state := _check_list_state c;
     _early_checks := _early_checks c;
     _early_checks_done := _early_checks_done c;
     _event_waiter := _event_waiter c;
     _local_candidates := _local_candidates c; _nominated := _nominated c;
     _protocols := _protocols c; _remote_candidates := _remote_candidates c;
     _remote_candidates_end := _remote_candidates_end c;
     _query_consent_task := _query_consent_task c; _queue := _queue c;
     _tie_breaker := _tie_breaker c; pairs := pairs c; spawned := v;
     sent := sent c; emitted := emitted c; delivered := delivered c;
     lost := lost c; mdns_subscribed := mdns_subscribed c |}.

Definition set_sent (v : list (nat * Message * Addr)) (c : Connection) : Connection :=
  {| ice_controlling := ice_controlling c;
     remote_username := remote_username c;
     local_username := local_username c; local_password := local_password c;
     _closed := _closed c; _components := _components c;
     _check_list := _check_list c; _check_list_done := _check_list_done c;
     _check_list_state := _check_list_state c;
     _early_checks := _early_checks c;
     _early_checks_done := _early_checks_done c;
     _event_waiter := _event_waiter c;
     _local_candidates := _local_candidates c; _nominated := _nominated c;
     _protocols := _protocols c; _remote_candidates := _remote_candidates c;
     _remote_candidates_end := _remote_candidates_end c;
     _query_consent_task := _query_consent_task c; _queue := _queue c;
     _tie_breaker := _tie_breaker c; pairs := pairs c; spawned := spawned c;
     sent := v; emitted := emitted c; delivered := delivered c;
     lost := lost c; mdns_subscribed := mdns_subscribed c |}.

Definition set_emitted (v : list ConnectionEvent) (c : Connection) : Connection :=
  {| ice_controlling := ice_controlling c;
     remote_username := remote_username c;
     local_username := local_username c; local_password := local_password c;
     _closed := _closed c; _components := _components c;
     _check_list := _check_list c; _check_list_done := _check_list_done c;
     _check_list_state := _check_list_state c;
     _early_checks := _early_checks c;
     _early_checks_done := _early_checks_done c;
     _event_waiter := _event_waiter c;
     _local_candidates := _local_candidates c; _nominated := _nominated c;
     _protocols := _protocols c; _remote_candidates := _remote_candidates c;
     _remote_candidates_end := _remote_candidates_end c;
     _query_consent_task := _query_consent_task c; _queue := _queue c;
     _tie_breaker := _tie_breaker c; pairs := pairs c; spawned := spawned c;
     sent := sent c; emitted := v; delivered := delivered c; lost := lost c;
     mdns_subscribed := mdns_subscribed c |}.

Definition set_delivered (v : list (Future * ConnectionEvent)) (c : Connection) : Connection :=
  {| ice_controlling := ice_controlling c;
     remote_username := remote_username c;
     local_username := local_username c; local_password := local_password c;
     _closed := _closed c; _components := _components c;
     _check_list := _check_list c; _check_list_done := _check_list_done c;
     _check_list_state := _check_list_state c;
     _early_checks := _early_checks c;
     _early_checks_done := _early_checks_done c;
     _event_waiter := _event_waiter c;
     _local_candidates := _local_candidates c; _nominated := _nominated c;
     _protocols := _protocols c; _remote_candidates := _remote_candidates c;
     _remote_candidates_end := _remote_candidates_end c;
     _query_consent_task := _query_consent_task c; _queue := _queue c;
     _tie_breaker := _tie_breaker c; pairs := pairs c; spawned := spawned c;
     sent := sent c; emitted := emitted c; delivered := v; lost := lost c;
     mdns_subscribed := mdns_subscribed c |}.

Definition set_lost (v : gset nat) (c : Connection) : Connection :=
  {| ice_controlling := ice_controlling c;
     remote_username := remote_username c;
     local_username := local_username c; local_password := local_password c;
     _closed := _closed c; _components := _components c;
     _check_list := _check_list c; _check_list_done := _check_list_done c;
     _check_list_state := _check_list_state c;
     _early_checks := _early_checks c;
     _early_checks_done := _early_checks_done c;
     _event_waiter := _event_waiter c;
     _local_candidates := _local_candidates c; _nominated := _nominated c;
     _protocols := _protocols c; _remote_candidates := _remote_candidates c;
     _remote_candidates_end := _remote_candidates_end c;
     _query_consent_task := _query_consent_task c; _queue := _queue c;
     _tie_breaker := _tie_breaker c; pairs := pairs c; spawned := spawned c;
     sent := sent c; emitted := emitted c; delivered := delivered c;
     lost := v; mdns_subscribed := mdns_subscribed c |}.

Definition set_mdns_subscribed (v : bool) (c : Connection) : Connection :=
  {| ice_controlling := ice_controlling c;
     remote_username := remote_username c;
     local_username := local_username c; local_password := local_password c;
     _closed := _closed c; _components := _components c;
     _check_list := _check_list c; _check_list_done := _check_list_done c;
     _check_list_state := _check_list_state c;
     _early_checks := _early_checks c;
     _early_checks_done := _early_checks_done c;
     _event_waiter := _event_waiter c;
     _local_candidates := _local_candidates c; _nominated := _nominated c;
     _protocols := _protocols c; _remote_candidates := _remote_candidates c;
     _remote_candidates_end := _remote_candidates_end c;
     _query_consent_task := _query_consent_task c; _queue := _queue c;
     _tie_breaker := _tie_breaker c; pairs := pairs c; spawned := spawned c;
     sent := sent c; emitted := emitted c; delivered := delivered c;
     lost := lost c; mdns_subscribed := v |}.


(** ** Priorities and ordering *)

(** [candidate_pair_priority(local, remote, ice_controlling)] *)
Definition candidate_pair_priority
    (local remote : Candidate) (ice_controlling : bool) : Z :=
  let G := py_and_or ice_controlling (priority local) (priority remote) in
  let D := py_and_or ice_controlling (priority remote) (priority local) in
  Z.shiftl 1 32 * Z.min G D + 2 * Z.max G D + py_and_or (G >? D) 1 0.

(** The formula of the specification (section 3, check list): [G] is the
    priority of the controlling agent's candidate, [D] that of the
    controlled agent's. *)
Definition spec_pair_priority
    (local remote : Candidate) (ice_controlling : bool) : Z :=
  let G := if ice_controlling then priority local else priority remote in
  let D := if ice_controlling then priority remote else priority local in
  2 ^ 32 * Z.min G D + 2 * Z.max G D + (if G >? D then 1 else 0).

(** The sort key [pair_priority] inside [sort_candidate_pairs], on a
    reference into the store.  (A reference held by the agent always
    points into the store; elsewhere the key is 0.) *)
Definition pair_priority
    (store : list CandidatePair) (ice_controlling : bool) (r : PairRef) : Z :=
  match store !! r with
  | Some pr =>
      - candidate_pair_priority
          (pair_local_candidate pr) (remote_candidate pr) ice_controlling
  | None => 0
  end.

(** [sort_candidate_pairs(pairs, ice_controlling)] *)
Definition sort_candidate_pairs
    (store : list CandidatePair) (l : list PairRef) (ice_controlling : bool)
    : list PairRef :=
  py_sorted (pair_priority store ice_controlling) l.

(** ** Credentials *)

(** [validate_password(value)] *)
Definition validate_password (value : string) : Result unit :=
  if negb (re_ice_chars 22 256 value)
  then Raise (ValueError "Password must satisfy 22*256ice-char")
  else Ok tt.

(** [validate_username(value)] *)
Definition validate_username (value : string) : Result unit :=
  if negb (re_ice_chars 4 256 value)
  then Raise (ValueError "Username must satisfy 4*256ice-char")
  else Ok tt.

(** ** Pairs in the store *)

Definition pair_has_state (c : Connection) (s : State) (r : PairRef) : bool :=
  bool_decide (state <$> pairs c !! r = Some s).

Definition update_pair
    (r : PairRef) (f : CandidatePair → CandidatePair) (c : Connection)
    : Connection :=
  set_pairs (alter f r (pairs c)) c.

(** [Connection.check_state(pair, state)] *)
Definition check_state (r : PairRef) (s : State) (c : Connection) : Connection :=
  update_pair r (set_state s) c.

(** [Connection.check_start_task(pair)]: the task created is the next one
    of [spawned]. *)
Definition check_start_task (r : PairRef) (c : Connection) : Connection :=
  match task <$> pairs c !! r with
  | Some None =>
      set_spawned (spawned c ++ [r])
        (update_pair r (set_task (Some (length (spawned c)))) c)
  | _ => c
  end.

(** [Connection._emit_event(event)] *)
Definition _emit_event (event : ConnectionEvent) (c : Connection) : Connection :=
  let c := set_emitted (emitted c ++ [event]) c in
  match _event_waiter c with
  | Some waiter =>
      set_delivered (delivered c ++ [(waiter, event)]) (set_event_waiter None c)
  | None => c
  end.

(** [Connection.sort_check_list()] *)
Definition sort_check_list (c : Connection) : Connection :=
  set_check_list
    (sort_candidate_pairs (pairs c) (_check_list c) (ice_controlling c)) c.

(** [Connection.switch_role(ice_controlling)] *)
Definition switch_role (b : bool) (c : Connection) : Connection :=
  sort_check_list (set_ice_controlling b c).

(** [self._check_list_state.put_nowait(res)] *)
Definition put_check_list_state (res : Z) (c : Connection) : Connection :=
  set_check_list_state (_check_list_state c ++ [res]) c.

(** ** [Connection.check_complete] *)

(** The loop of 8.1.2: the Waiting and Frozen pairs of the component
    become Failed. *)
Definition fail_component_step (comp : Z) (c : Connection) (p : PairRef)
    : Connection :=
  if bool_decide (pair_component <$> pairs c !! p = Some comp)
     && (pair_has_state c WAITING p || pair_has_state c FROZEN p)
  then check_state p FAILED c
  else c.

(** The loop of 7.1.3.2.3: the Frozen pairs with the local foundation [f]
    become Waiting. *)
Definition unfreeze_foundation_step (f : string) (c : Connection) (p : PairRef)
    : Connection :=
  if bool_decide
       (foundation ∘ pair_local_candidate <$> pairs c !! p = Some f)
     && pair_has_state c FROZEN p
  then check_state p WAITING c
  else c.

(** The end of [check_complete], from the loop that looks for a pair
    neither Succeeded nor Failed. *)
Definition check_complete_failed (c : Connection) : Connection :=
  if forallb
       (λ p, pair_has_state c SUCCEEDED p || pair_has_state c FAILED p)
       (_check_list c)
  then
    if negb (ice_controlling c)
       && existsb (pair_has_state c SUCCEEDED) (_check_list c)
    then c
    else if _check_list_done c then c
    else set_check_list_done true (put_check_list_state ICE_FAILED c)
  else c.

(** [Connection.check_complete(pair)] *)
Definition check_complete (r : PairRef) (c : Connection) : Connection :=
  let c := update_pair r (set_task None) c in
  match pairs c !! r with
  | None => c
  | Some pr =>
      if bool_decide (state pr = SUCCEEDED) then
        let c :=
          if nominated pr then
            let c :=
              set_nominated (<[pair_component pr := r]> (_nominated c)) c in
            foldl (fail_component_step (pair_component pr)) c (_check_list c)
          else c in
        if (size (_nominated c) =? size (_components c))%nat then
          if _check_list_done c then c
          else set_check_list_done true (put_check_list_state ICE_COMPLETED c)
        else
          check_complete_failed
            (foldl
               (unfreeze_foundation_step
                  (foundation (pair_local_candidate pr)))
               c (_check_list c))
      else check_complete_failed c
  end.

(** ** [Connection.check_periodic] *)

Definition check_periodic (c : Connection) : bool * Connection :=
  match find (pair_has_state c WAITING) (_check_list c) with
  | Some r => (true, check_start_task r c)
  | None =>
      match find (pair_has_state c FROZEN) (_check_list c) with
      | Some r => (true, check_start_task r c)
      | None =>
          if negb (_remote_candidates_end c)
          then (negb (_check_list_done c), c)
          else (false, c)
      end
  end.

(** ** [Connection._unfreeze_initial] *)

(** One turn of the second loop; [seen] is [seen_foundations]. *)
Definition unfreeze_initial_step
    (first_pair : CandidatePair) (acc : Connection * gset string)
    (p : PairRef) : Connection * gset string :=
  match pairs acc.1 !! p with
  | Some pr =>
      if bool_decide (pair_component pr = pair_component first_pair)
         && bool_decide (foundation (pair_local_candidate pr) ∉ acc.2)
         && bool_decide (state pr = FROZEN)
      then (check_state p WAITING acc.1,
            acc.2 ∪ {[ foundation (pair_local_candidate pr) ]})
      else acc
  | None => acc
  end.

Definition _unfreeze_initial : M unit := λ c,
  match _check_list c with
  | [] => (Ok tt, c)
  | _ :: _ =>
      match py_min (_components c) with
      | None => (Raise (ValueError "min() arg is an empty sequence"), c)
      | Some lowest =>
          match
            find (λ p, bool_decide
                         (pair_component <$> pairs c !! p = Some lowest))
                 (_check_list c)
          with
          | None => (Ok tt, c)
          | Some r =>
              match pairs c !! r with
              | None => (Ok tt, c)
              | Some first_pair =>
                  let c1 :=
                    if bool_decide (state first_pair = FROZEN)
                    then check_state r WAITING c else c in
                  let seen_foundations :=
                    py_set_of_str
                      (foundation (pair_local_candidate first_pair)) in
                  (Ok tt,
                   (foldl (unfreeze_initial_step first_pair)
                      (c1, seen_foundations) (_check_list c1)).1)
              end
          end
      end
  end.

(** ** [Connection.get_default_candidate] *)

Definition get_default_candidate (comp : Z) (c : Connection)
    : option Candidate * Connection :=
  (find (λ candidate, bool_decide (component candidate = comp))
        (py_sorted priority (_local_candidates c)),
   c).

(** ** [Connection.close] *)

(** [await protocol.close()]: the transport is closed and [connection_lost]
    runs, unless it has run before; it posts [(None, None)] to the
    connection's queue. *)
Definition protocol_close (c : Connection) (p : StunProtocol) : Connection :=
  if bool_decide (pid p ∈ lost c) then c
  else set_lost (lost c ∪ {[ pid p ]})
         (set_queue (_queue c ++ [(None, None)]) c).

(** [Connection.close()]: the consent task, when it runs, is cancelled and
    awaited, after which it is done. *)
Definition close (c : Connection) : Connection :=
  let c :=
    match _query_consent_task c with
    | Some false => set_query_consent_task (Some true) c
    | _ => c
    end in
  let c :=
    if negb (bool_decide (_check_list c = [])) && negb (_check_list_done c)
    then put_check_list_state ICE_FAILED c else c in
  let c := set_mdns_subscribed false c in
  let c := set_nominated ∅ c in
  let c := foldl protocol_close c (_protocols c) in
  let c := set_protocols [] c in
  let c := set_local_candidates [] c in
  if _closed c then c
  else set_closed true (_emit_event ConnectionClosed c).

(** [Connection._prune_components()] *)
Definition _prune_components (c : Connection) : Connection :=
  let seen_components : gset Z :=
    list_to_set (component <$> _remote_candidates c) in
  let missing_components := _components c ∖ seen_components in
  if bool_decide (missing_components = ∅) then c
  else set_components seen_components c.

(** ** Methods that depend on the collaborators *)

Section Agent.

(** What [ice.py] takes from modules that are not among the sources:
    - [Candidate.can_pair_with] and the equality of candidates
      ([candidate.py]);
    - [mdns.is_mdns_hostname], and [resolve] of the mDNS protocol;
    - whether [ipaddress.ip_address(host)] accepts a host;
    - whether [stun.parse_message(raw_data, integrity_key)] accepts a
      datagram. *)
Variable can_pair_with : Candidate → Candidate → bool.
Variable candidate_eq : Candidate → Candidate → bool.
Variable is_mdns_hostname : string → bool.
Variable mdns_resolve : string → option string.
Variable ip_address_ok : string → bool.
Variable stun_integrity_ok : string → string → bool.

(** [validate_remote_candidate(candidate)] *)
Definition validate_remote_candidate (candidate : Candidate)
    : Result Candidate :=
  if negb (bool_decide
             (type candidate ∈ ["host"; "relay"; "srflx"]%string))
  then Raise (ValueError "Unexpected candidate type")
  else if ip_address_ok (host candidate) then Ok candidate
  else Raise (ValueError "does not appear to be an IPv4 or IPv6 address").

(** [Connection._find_pair(protocol, remote_candidate)]; two protocols
    are the same object when they have the same id. *)
Definition _find_pair
    (protocol0 : StunProtocol) (remote_candidate0 : Candidate)
    (c : Connection) : option PairRef :=
  find
    (λ r, match pairs c !! r with
          | Some pr =>
              bool_decide (pid (protocol pr) = pid protocol0)
              && candidate_eq (remote_candidate pr) remote_candidate0
          | None => false
          end)
    (_check_list c).

(** A new pair object, appended to the check list. *)
Definition append_pair (pr : CandidatePair) (c : Connection) : Connection :=
  set_check_list (_check_list c ++ [length (pairs c)])
    (set_pairs (pairs c ++ [pr]) c).

(** The body of the pairing loops of [add_remote_candidate] and
    [connect]. *)
Definition form_pair
    (remote_candidate0 : Candidate) (c : Connection)
    (protocol0 : StunProtocol) : Connection :=
  if can_pair_with (local_candidate protocol0) remote_candidate0
     && negb (bool_decide
                (is_Some (_find_pair protocol0 remote_candidate0 c)))
  then append_pair (new_pair protocol0 remote_candidate0) c
  else c.

(** [Connection.add_remote_candidate(remote_candidate)]; [depth] is the
    depth of recursion that the interpreter still allows. *)
Fixpoint add_remote_candidate
    (depth : nat) (remote_candidate0 : option Candidate) : M unit := λ c,
  if _remote_candidates_end c then
    (Raise
       (ValueError "Cannot add remote candidate after end-of-candidates."),
     c)
  else
    match remote_candidate0 with
    | None => (Ok tt, set_remote_candidates_end true (_prune_components c))
    | Some rc =>
        if is_mdns_hostname (host rc) then
          let c := set_mdns_subscribed true c in
          match mdns_resolve (host rc) with
          | None => (Ok tt, c)
          | Some remote_addr =>
              match depth with
              | O => (Raise RecursionError, c)
              | S depth' =>
                  add_remote_candidate depth'
                    (Some (set_host remote_addr rc)) c
              end
          end
        else
          match validate_remote_candidate rc with
          | Raise (ValueError _) => (Ok tt, c)
          | Raise e => (Raise e, c)
          | Ok _ =>
              let c :=
                set_remote_candidates (_remote_candidates c ++ [rc]) c in
              (Ok tt, sort_check_list (foldl (form_pair rc) c (_protocols c)))
          end
    end.

(** The start of [Connection.connect], after the two guards: 5.7.1,
    forming candidate pairs, and the sort. *)
Definition connect_form_pairs (c : Connection) : Connection :=
  sort_check_list
    (foldl (λ c rc, foldl (form_pair rc) c (_protocols c))
       c (_remote_candidates c)).

(** [Connection.check_incoming], once the remote candidate is known. *)
Definition check_incoming_pair
    (message : Message) (protocol0 : StunProtocol)
    (remote_candidate0 : Candidate) (c : Connection) : Connection :=
  let '(r, c) :=
    match _find_pair protocol0 remote_candidate0 c with
    | Some r => (r, c)
    | None =>
        (length (pairs c),
         sort_check_list
           (append_pair
              (set_state WAITING (new_pair protocol0 remote_candidate0)) c))
    end in
  let c :=
    if pair_has_state c WAITING r || pair_has_state c FAILED r
    then check_start_task r c else c in
  if USE_CANDIDATE (attributes message) && negb (ice_controlling c) then
    let c := update_pair r (set_remote_nominated true) c in
    if pair_has_state c SUCCEEDED r
    then check_complete r (update_pair r (set_pair_nominated true) c)
    else c
  else c.

(** [Connection.check_incoming(message, addr, protocol)]; [rnd] is the
    value of [random_string(10)], drawn when the address is new. *)
Definition check_incoming
    (message : Message) (addr : Addr) (protocol0 : StunProtocol)
    (rnd : string) : M unit := λ c,
  let component0 := component (local_candidate protocol0) in
  match
    find (λ x, bool_decide (host x = addr.1) && bool_decide (port x = addr.2))
         (_remote_candidates c)
  with
  | Some rc =>
      if bool_decide (component rc = component0)
      then (Ok tt, check_incoming_pair message protocol0 rc c)
      else (Raise AssertionError, c)
  | None =>
      match PRIORITY (attributes message) with
      | None => (Raise (KeyError "PRIORITY"), c)
      | Some prio =>
          let rc :=
            {| foundation := rnd; component := component0;
               transport := "udp"; priority := prio; host := addr.1;
               port := addr.2; type := "prflx"; related_address := None;
               related_port := None |} in
          (Ok tt,
           check_incoming_pair message protocol0 rc
             (set_remote_candidates (_remote_candidates c ++ [rc]) c))
      end
  end.

(** [StunProtocol.send_stun(message, addr)] *)
Definition send_stun
    (protocol0 : StunProtocol) (message : Message) (addr : Addr)
    (c : Connection) : Connection :=
  set_sent (sent c ++ [(pid protocol0, message, addr)]) c.

(** [Connection.respond_error(request, addr, protocol, error_code)] *)
Definition respond_error
    (request : Message) (addr : Addr) (protocol0 : StunProtocol)
    (error_code : Z * string) (c : Connection) : Connection :=
  let response :=
    {| message_method := message_method request; message_class := ERROR;
       transaction_id := transaction_id request;
       attributes :=
         {| USERNAME := None; PRIORITY := None; ICE_CONTROLLING := None;
            ICE_CONTROLLED := None; USE_CANDIDATE := false;
            XOR_MAPPED_ADDRESS := None; ERROR_CODE := Some error_code |};
       integrity_key := Some (local_password c) |} in
  send_stun protocol0 response addr c.

(** The binding response of [request_received]. *)
Definition binding_response
    (message : Message) (addr : Addr) (c : Connection) : Message :=
  {| message_method := BINDING; message_class := RESPONSE;
     transaction_id := transaction_id message;
     attributes :=
       {| USERNAME := None; PRIORITY := None; ICE_CONTROLLING := None;
          ICE_CONTROLLED := None; USE_CANDIDATE := false;
          XOR_MAPPED_ADDRESS := Some addr; ERROR_CODE := None |};
     integrity_key := Some (local_password c) |}.

(** The [try] block of [request_received]: [true] when it raises no
    [ValueError]. *)
Definition authenticated
    (message : Message) (raw_data : string) (c : Connection) : bool :=
  stun_integrity_ok raw_data (local_password c)
  && match remote_username c with
     | Some remote =>
         bool_decide
           (USERNAME (attributes message)
            = Some (local_username c +:+ ":" +:+ remote))
     | None => true
     end.

(** [request_received] after the role conflict is settled: the binding
    response, then the early-check buffer or [check_incoming]. *)
Definition accept_request
    (message : Message) (addr : Addr) (protocol0 : StunProtocol)
    (rnd : string) : M unit := λ c,
  let c := send_stun protocol0 (binding_response message addr c) addr c in
  if bool_decide (_check_list c = []) && negb (_early_checks_done c)
  then (Ok tt,
        set_early_checks (_early_checks c ++ [(message, addr, protocol0)]) c)
  else check_incoming message addr protocol0 rnd c.

(** [Connection.request_received(message, addr, protocol, raw_data)] *)
Definition request_received
    (message : Message) (addr : Addr) (protocol0 : StunProtocol)
    (raw_data : string) (rnd : string) : M unit := λ c,
  if negb (bool_decide (message_method message = BINDING)) then
    (Ok tt, respond_error message addr protocol0 (400, "Bad Request"%string) c)
  else if negb (authenticated message raw_data c) then
    (Ok tt, respond_error message addr protocol0 (400, "Bad Request"%string) c)
  else
    match ice_controlling c, ICE_CONTROLLING (attributes message),
          ICE_CONTROLLED (attributes message) with
    | true, Some peer, _ =>
        if _tie_breaker c >=? peer then
          (Ok tt,
           respond_error message addr protocol0
             (487, "Role Conflict"%string) c)
        else accept_request message addr protocol0 rnd (switch_role false c)
    | false, _, Some peer =>
        if _tie_breaker c <? peer then
          (Ok tt,
           respond_error message addr protocol0
             (487, "Role Conflict"%string) c)
        else accept_request message addr protocol0 rnd (switch_role true c)
    | _, _, _ => accept_request message addr protocol0 rnd c
    end.

End Agent.


(** ** Concrete candidates and connections used as examples *)

Definition example_candidate
    (f : string) (comp prio : Z) (h : string) (ty : string) : Candidate :=
  {| foundation := f; component := comp; transport := "udp";
     priority := prio; host := h; port := 9; type := ty;
     related_address := None; related_port := None |}.

(** A connection as [__init__] leaves it (one component, controlling). *)
Definition fresh_connection : Connection :=
  {| ice_controlling := true; remote_username := None;
     local_username := "abcd"; local_password := "0123456789abcdefghijkl";
     _closed := false; _components := {[ 1 ]}; _check_list := [];
     _check_list_done := false; _check_list_state := [];
     _early_checks := []; _early_checks_done := false;
     _event_waiter := None; _local_candidates := []; _nominated := ∅;
     _protocols := []; _remote_candidates := [];
     _remote_candidates_end := false; _query_consent_task := None;
     _queue := []; _tie_breaker := 5; pairs := []; spawned := [];
     sent := []; emitted := []; delivered := []; lost := ∅;
     mdns_subscribed := false |}.

(** Strings over the ice-char alphabet. *)
Fixpoint ice_string (s : string) : bool :=
  match s with
  | EmptyString => true
  | String a s' => ice_char a && ice_string s'
  end.

Definition newline : string := String (ascii_of_nat 10) EmptyString.

(** [n] times the character [a]. *)
Fixpoint repeat_char (a : ascii) (n : nat) : string :=
  match n with
  | O => EmptyString
  | S n' => String a (repeat_char a n')
  end.

(** A host protocol of component 1, and two remote candidates. *)
Definition example_protocol : StunProtocol :=
  {| pid := 0;
     local_candidate :=
       example_candidate "52e5b5a4c9a6f1d0c5b1a1f0e3d2c1b0" 1 2130706431
         "192.0.2.1" "host" |}.

Definition example_remote_1 : Candidate :=
  example_candidate "9f3c1e7a" 1 2130706431 "198.51.100.1" "host".

Definition example_remote_2 : Candidate :=
  example_candidate "9f3c1e7b" 1 1694498815 "203.0.113.7" "srflx".

(** The check list of [connect] for them: two Frozen pairs that share
    the local candidate, so the local foundation. *)
Definition unfreeze_example : Connection :=
  set_check_list [0; 1]%nat
    (set_pairs
       [new_pair example_protocol example_remote_1;
        new_pair example_protocol example_remote_2]
       (set_remote_candidates [example_remote_1; example_remote_2]
          (set_protocols [example_protocol] fresh_connection))).

(** ** Notions used to state the properties *)

(** The priority of the pair at [r], in the role the connection has: the
    opposite of its sort key. *)
Definition ref_priority (c : Connection) (r : PairRef) : Z :=
  - pair_priority (pairs c) (ice_controlling c) r.

(** Each element is at most the one before it. *)
Fixpoint descending (l : list Z) : bool :=
  match l with
  | [] => true
  | a :: l' =>
      match l' with
      | [] => true
      | b :: _ => (b <=? a) && descending l'
      end
  end.

(** The check list is in the order [sort_check_list] gives it. *)
Definition check_list_ordered (c : Connection) : Prop :=
  descending (ref_priority c <$> _check_list c) = true.

(** [r] is the first pair of the check list whose state is [s]. *)
Definition first_in_state (c : Connection) (s : State) (r : PairRef) : Prop :=
  ∃ i : nat,
    _check_list c !! i = Some r ∧ pair_has_state c s r = true ∧
    ∀ (j : nat) r', (j < i)%nat → _check_list c !! j = Some r' →
      pair_has_state c s r' = false.

(** No pair of the check list in state [s] has a higher priority than
    [r], the priority being the one that [candidate_pair_priority]
    computes, by which the check list is sorted.  (It is the formula of
    the specification unless a candidate priority is 0:
    [spec_highest_priority_in_state] below ranks by the formula.) *)
Definition highest_sort_key_in_state
    (c : Connection) (s : State) (r : PairRef) : Prop :=
  ∀ r', r' ∈ _check_list c → pair_has_state c s r' = true →
    ref_priority c r' ≤ ref_priority c r.

(** From [c] to [c'] a check task was scheduled for the pair [r]: the
    pair has a task in [c'].  If it had none in [c], a new task for [r]
    is the last one created, the pair's [task] is that one, and nothing
    else changed; if it had one, nothing changed. *)
Definition check_scheduled (c c' : Connection) (r : PairRef) : Prop :=
  (∃ t, task <$> pairs c' !! r = Some (Some t))
  ∧ (task <$> pairs c !! r = Some None →
     c' = set_spawned (spawned c ++ [r])
            (update_pair r (set_task (Some (length (spawned c)))) c))
  ∧ (∀ t, task <$> pairs c !! r = Some (Some t) → c' = c).

Global Instance Candidate_eq_dec : EqDecision Candidate.
Proof. solve_decision. Defined.

(** Collaborators for the examples: candidates pair when they agree on
    component and transport (every host below is an IPv4 literal) and are
    equal when their fields are; no host is an mDNS name; every datagram
    carries a valid MESSAGE-INTEGRITY. *)
Definition example_can_pair_with (a b : Candidate) : bool :=
  bool_decide (component a = component b)
  && bool_decide (transport a = transport b).

Definition example_candidate_eq (a b : Candidate) : bool :=
  bool_decide (a = b).

Definition example_is_mdns_hostname (h : string) : bool := false.

Definition example_mdns_resolve (h : string) : option string := None.

Definition example_ip_address_ok (h : string) : bool := true.

Definition example_stun_integrity_ok (raw_data key : string) : bool := true.

(** A remote candidate of a type that [add_remote_candidate] does not
    support. *)
Definition example_remote_prflx : Candidate :=
  example_candidate "9f3c1e7c" 1 1845501695 "203.0.113.8" "prflx".

(** What [check_start] does to a pair whose check succeeds with the
    nomination settled: [nominated] is set and the state is Succeeded;
    [check_complete] follows. *)
Definition check_succeeded (r : PairRef) (c : Connection) : Connection :=
  check_complete r
    (update_pair r (λ pr, set_state SUCCEEDED (set_pair_nominated true pr)) c).

(** A run of a controlled agent configured with two components.  The
    remote gives a candidate for component 1 only; the check of that pair
    succeeds and the pair is nominated; the remote then signals
    end-of-candidates, which prunes [_components] to component 1; then a
    binding request with USE-CANDIDATE arrives on the protocol of
    component 2 from an unknown address, which creates a peer-reflexive
    pair; [pruned_example] is the connection when the check of that pair
    has succeeded and [check_complete] is about to run on it. *)
Definition example_protocol_2 : StunProtocol :=
  {| pid := 1;
     local_candidate :=
       example_candidate "52e5b5a4c9a6f1d0c5b1a1f0e3d2c1b0" 2 2130706430
         "192.0.2.1" "host" |}.

Definition example_request_2 : Message :=
  {| message_method := BINDING; message_class := REQUEST;
     transaction_id := "ba9876543210";
     attributes :=
       {| USERNAME := Some "abcd:wxyz"%string; PRIORITY := Some 1845501694;
          ICE_CONTROLLING := Some 3; ICE_CONTROLLED := None;
          USE_CANDIDATE := true; XOR_MAPPED_ADDRESS := None;
          ERROR_CODE := None |};
     integrity_key := Some "0123456789abcdefghijkl"%string |}.

Definition two_components : Connection :=
  set_ice_controlling false
    (set_components {[ 1; 2 ]}
       (set_protocols [example_protocol; example_protocol_2]
          fresh_connection)).

Definition pruned_step_1 : Connection :=
  (add_remote_candidate example_can_pair_with example_candidate_eq
     example_is_mdns_hostname example_mdns_resolve example_ip_address_ok
     1000 (Some example_remote_1) two_components).2.

Definition pruned_step_2 : Connection := check_succeeded 0 pruned_step_1.

Definition pruned_step_3 : Connection :=
  (add_remote_candidate example_can_pair_with example_candidate_eq
     example_is_mdns_hostname example_mdns_resolve example_ip_address_ok
     1000 None pruned_step_2).2.

Definition pruned_step_4 : Connection :=
  (request_received example_candidate_eq example_stun_integrity_ok
     example_request_2 ("203.0.113.9"%string, 40000) example_protocol_2
     "datagram" "qzjxkvwbnm" pruned_step_3).2.

Definition pruned_example : Connection :=
  update_pair 1 (λ pr, set_state SUCCEEDED (set_pair_nominated true pr))
    pruned_step_4.


(** The priority of the pair at [r] by the formula of the specification,
    in the role the connection has. *)
Definition spec_ref_priority (c : Connection) (r : PairRef) : Z :=
  match pairs c !! r with
  | Some pr =>
      spec_pair_priority
        (pair_local_candidate pr) (remote_candidate pr) (ice_controlling c)
  | None => 0
  end.

(** No pair of the check list in state [s] has a higher priority than
    [r], by the formula of the specification. *)
Definition spec_highest_priority_in_state
    (c : Connection) (s : State) (r : PairRef) : Prop :=
  ∀ r', r' ∈ _check_list c → pair_has_state c s r' = true →
    spec_ref_priority c r' ≤ spec_ref_priority c r.

(** What the order of the check list depends on: the list, the role, and
    the two candidates of each pair. *)
Definition pair_candidates (pr : CandidatePair) : Candidate * Candidate :=
  (pair_local_candidate pr, remote_candidate pr).

Definition same_order (c c' : Connection) : Prop :=
  _check_list c' = _check_list c
  ∧ ice_controlling c' = ice_controlling c
  ∧ ∀ r : nat,
      pair_candidates <$> pairs c' !! r = pair_candidates <$> pairs c !! r.

(** A controlling agent with one host candidate, to which the remote
    gives a candidate of priority 1, then a candidate of priority 0. *)
Definition example_remote_low : Candidate :=
  example_candidate "9f3c1e7d" 1 1 "198.51.100.2" "host".

Definition example_remote_zero : Candidate :=
  example_candidate "9f3c1e7e" 1 0 "198.51.100.3" "host".

Definition zero_priority_example : Connection :=
  (add_remote_candidate example_can_pair_with example_candidate_eq
     example_is_mdns_hostname example_mdns_resolve example_ip_address_ok
     1000 (Some example_remote_zero)
     (add_remote_candidate example_can_pair_with example_candidate_eq
        example_is_mdns_hostname example_mdns_resolve example_ip_address_ok
        1000 (Some example_remote_low)
        (set_protocols [example_protocol] fresh_connection)).2).2.

(** The order of a list that [py_sorted] returns. *)
Definition key_le {A} (key : A → Z) (a b : A) : Prop := key a ≤ key b.

(** The first element of a sorted list that satisfies [P], read on the
    list before the sort: the first of its elements satisfying [P] whose
    key is the least. *)
Fixpoint first_least {A} (key : A → Z) (P : A → bool) (l : list A) : option A :=
  match l with
  | [] => None
  | x :: l' =>
      if P x then
        match first_least key P l' with
        | Some y => if key x <=? key y then Some x else Some y
        | None => Some x
        end
      else first_least key P l'
  end.

(** The check list of two pairs, the check of the first one succeeded
    with the nominated flag set. *)
Definition completed_example : Connection :=
  update_pair 0 (λ pr, set_state SUCCEEDED (set_pair_nominated true pr))
    unfreeze_example.

(** From [c] to [c'] nothing changed but pairs of the component [comp]
    that were Frozen and are Waiting. *)
Definition unfrozen_from (comp : Z) (c c' : Connection) : Prop :=
  c' = set_pairs (pairs c') c
  ∧ ∀ r : nat,
      pairs c' !! r = pairs c !! r
      ∨ ∃ pr, pairs c !! r = Some pr ∧ state pr = FROZEN
              ∧ pair_component pr = comp
              ∧ pairs c' !! r = Some (set_state WAITING pr).

(** A fresh connection with the host protocol of component 1. *)
Definition one_protocol : Connection :=
  set_protocols [example_protocol] fresh_connection.

(** A binding request from a controlled peer. *)
Definition example_request_controlled : Message :=
  {| message_method := BINDING; message_class := REQUEST;
     transaction_id := "a1b2c3d4e5f6";
     attributes :=
       {| USERNAME := Some "abcd:wxyz"%string; PRIORITY := Some 1845501695;
          ICE_CONTROLLING := None; ICE_CONTROLLED := Some 9;
          USE_CANDIDATE := false; XOR_MAPPED_ADDRESS := None;
          ERROR_CODE := None |};
     integrity_key := Some "0123456789abcdefghijkl"%string |}.

(** A request of another method than BINDING. *)
Definition example_request_other : Message :=
  {| message_method := OtherMethod 3; message_class := REQUEST;
     transaction_id := "0f1e2d3c4b5a"; attributes := no_attributes;
     integrity_key := None |}.

(** ** Sending, receiving and events *)

(** What a coroutine that waits for the data queue does: it returns, it
    raises [ConnectionError], or it stays suspended on the queue. *)
Inductive Awaited (A : Type) :=
| Returns (a : A)
| ConnectionError (msg : string)
| Suspended.
Arguments Returns {A} a.
Arguments ConnectionError {A} msg.
Arguments Suspended {A}.

(** [Connection.data_received(data, component)] *)
Definition data_received
    (data : option string) (comp : option Z) (c : Connection) : Connection :=
  set_queue (_queue c ++ [(data, comp)]) c.

(** [Connection.recvfrom()] from [await self._queue.get()] on: the
    coroutine takes the first item of the queue, or stays suspended on an
    empty queue. *)
Definition recvfrom_resume (c : Connection)
    : Awaited (string * option Z) * Connection :=
  match _queue c with
  | [] => (Suspended, c)
  | (None, _) :: q =>
      (ConnectionError "Connection lost while receiving data", set_queue q c)
  | (Some data, comp) :: q => (Returns (data, comp), set_queue q c)
  end.

(** [Connection.recvfrom()] *)
Definition recvfrom (c : Connection)
    : Awaited (string * option Z) * Connection :=
  if bool_decide (size (_nominated c) = 0%nat)
  then (ConnectionError "Cannot receive data, not connected", c)
  else recvfrom_resume c.

(** [Connection.recv()] *)
Definition recv (c : Connection) : Awaited string * Connection :=
  match recvfrom c with
  | (Returns (data, _), c') => (Returns data, c')
  | (ConnectionError msg, c') => (ConnectionError msg, c')
  | (Suspended, c') => (Suspended, c')
  end.

(** [Connection.sendto(data, component)]: what it returns is the datagram
    that [send_data] hands to the transport of the protocol, with the id
    of that protocol and the address it is sent to.  (A reference held by
    the agent always points into the store.) *)
Definition sendto (data : string) (comp : Z) (c : Connection)
    : Awaited (nat * string * Addr) :=
  match _nominated c !! comp with
  | Some r =>
      match pairs c !! r with
      | Some active_pair =>
          Returns
            (pid (protocol active_pair), data,
             (host (remote_candidate active_pair),
              port (remote_candidate active_pair)))
      | None => ConnectionError "Cannot send data, not connected"
      end
  | None => ConnectionError "Cannot send data, not connected"
  end.

(** [Connection.send(data)] *)
Definition send (data : string) (c : Connection)
    : Awaited (nat * string * Addr) :=
  sendto data 1 c.

(** The two loops of [set_selected_pair]: the first protocol of the
    component with the local foundation (the loop breaks), and the last
    remote candidate of the component with the remote foundation (the
    loop does not). *)
Definition selected_protocol
    (comp : Z) (local_foundation : string) (c : Connection)
    : option StunProtocol :=
  find (λ p, bool_decide (component (local_candidate p) = comp)
             && bool_decide (foundation (local_candidate p) = local_foundation))
       (_protocols c).

Definition selected_remote_candidate
    (comp : Z) (remote_foundation : string) (c : Connection)
    : option Candidate :=
  foldl (λ remote_candidate0 x,
           if bool_decide (component x = comp)
              && bool_decide (foundation x = remote_foundation)
           then Some x else remote_candidate0)
        None (_remote_candidates c).

(** [Connection.set_selected_pair(component, local_foundation,
    remote_foundation)]; the pair it makes is a new object, which is not
    put in the check list. *)
Definition set_selected_pair
    (comp : Z) (local_foundation remote_foundation : string) : M unit := λ c,
  match selected_protocol comp local_foundation c,
        selected_remote_candidate comp remote_foundation c with
  | Some protocol0, Some remote_candidate0 =>
      (Ok tt,
       set_nominated (<[comp := length (pairs c)]> (_nominated c))
         (set_pairs (pairs c ++ [new_pair protocol0 remote_candidate0]) c))
  | _, _ => (Raise AssertionError, c)
  end.

(** What [get_event] does once it has passed its assertion: it returns
    [None], or it awaits the future it has made. *)
Inductive EventWait :=
| EventNone
| EventAwaits (waiter : Future).

(** [Connection.get_event()]; [future] is the future that
    [loop.create_future()] makes. *)
Definition get_event (future : Future) : M EventWait := λ c,
  match _event_waiter c with
  | Some _ => (Raise AssertionError, c)
  | None =>
      if _closed c then (Ok EventNone, c)
      else (Ok (EventAwaits future), set_event_waiter (Some future) c)
  end.

(** A second remote candidate with the foundation of [example_remote_1],
    at another address. *)
Definition example_remote_1b : Candidate :=
  example_candidate "9f3c1e7a" 1 2130706431 "198.51.100.2" "host".

(** A connection with one protocol and three remote candidates, and the
    same after a pair was selected by hand. *)
Definition selection_example : Connection :=
  set_remote_candidates
    [example_remote_1; example_remote_1b; example_remote_2] one_protocol.

Definition selected_example : Connection :=
  (set_selected_pair 1 "52e5b5a4c9a6f1d0c5b1a1f0e3d2c1b0" "9f3c1e7a"
     selection_example).2.

(** [n] calls of [recvfrom] one after the other: what each one did, and
    the connection after the last. *)
Fixpoint recvfrom_times (n : nat) (c : Connection)
    : list (Awaited (string * option Z)) * Connection :=
  match n with
  | O => ([], c)
  | S n' =>
      let '(result, c') := recvfrom c in
      let '(results, c'') := recvfrom_times n' c' in
      (result :: results, c'')
  end.

(** The datagrams [datagrams] arrive in this order. *)
Definition datagrams_received
    (datagrams : list (string * option Z)) (c : Connection) : Connection :=
  foldl (λ c d, data_received (Some d.1) d.2 c) c datagrams.

(** ** Host addresses *)





(** ** The agent *)

(** The connection with the fields that only [check_start] uses. *)
Record Agent := {
  connection : Connection;
  remote_is_lite : bool;
  remote_password : option string;
  _nominating : gset Z
}.

Definition set_connection (c : Connection) (a : Agent) : Agent :=
  {| connection := c; remote_is_lite := remote_is_lite a;
     remote_password := remote_password a; _nominating := _nominating a |}.

Definition set_nominating (v : gset Z) (a : Agent) : Agent :=
  {| connection := connection a; remote_is_lite := remote_is_lite a;
     remote_password := remote_password a; _nominating := v |}.

Inductive TransportPolicy := ALL | RELAY.

Global Instance TransportPolicy_eq_dec : EqDecision TransportPolicy.
Proof. solve_decision. Defined.

(** [Connection.__init__]: [random_username] and [random_password] are
    the values of [random_string(4)] and [random_string(22)], and
    [tie_breaker] the one of [secrets.randbits(64)].  The arguments that
    are only stored (the TURN credentials, the IP versions, the ports)
    are left out. *)
Definition __init__
    (ice_controlling0 : bool) (components : Z)
    (stun_server turn_server : option Addr)
    (transport_policy : TransportPolicy)
    (local_username0 local_password0 : option string)
    (random_username random_password : string) (tie_breaker : Z)
    : Result Agent :=
  match
    match local_username0 with
    | None => Ok random_username
    | Some u =>
        match validate_username u with Ok _ => Ok u | Raise e => Raise e end
    end
  with
  | Raise e => Raise e
  | Ok username =>
      match
        match local_password0 with
        | None => Ok random_password
        | Some p =>
            match validate_password p with
            | Ok _ => Ok p
            | Raise e => Raise e
            end
        end
      with
      | Raise e => Raise e
      | Ok password =>
          if bool_decide (stun_server = None)
             && bool_decide (turn_server = None)
             && bool_decide (transport_policy = RELAY)
          then
            Raise
              (ValueError
                 "Relay transport policy requires a STUN and/or TURN server.")
          else
            Ok {| connection :=
                    {| ice_controlling := ice_controlling0;
                       remote_username := None;
                       local_username := username;
                       local_password := password;
                       _closed := false;
                       _components := list_to_set (seqZ 1 components);
                       _check_list := []; _check_list_done := false;
                       _check_list_state := []; _early_checks := [];
                       _early_checks_done := false; _event_waiter := None;
                       _local_candidates := []; _nominated := ∅;
                       _protocols := []; _remote_candidates := [];
                       _remote_candidates_end := false;
                       _query_consent_task := None; _queue := [];
                       _tie_breaker := tie_breaker; pairs := [];
                       spawned := []; sent := []; emitted := [];
                       delivered := []; lost := ∅;
                       mdns_subscribed := false |};
                  remote_is_lite := false; remote_password := None;
                  _nominating := ∅ |}
      end
  end.

(** ** Connectivity checks *)

(** [pair.remote_addr] *)
Definition remote_addr (pr : CandidatePair) : Addr :=
  (host (remote_candidate pr), port (remote_candidate pr)).

(** ["%s" % value] on an optional string. *)
Definition py_str_optional (value : option string) : string :=
  match value with
  | Some s => s
  | None => "None"
  end.

(** [request.add_message_integrity(key)], as [StunProtocol.request] does
    with the integrity key it is given. *)
Definition add_message_integrity (key : string) (request : Message) : Message :=
  {| message_method := message_method request;
     message_class := message_class request;
     transaction_id := transaction_id request;
     attributes := attributes request; integrity_key := Some key |}.

(** How [await pair.protocol.request(...)] ends: with the response and
    the address it came from, or with [stun.TransactionError], whose
    [response] is the error response, if there was one. *)
Inductive TransactionResult :=
| Response (response : Message) (addr : Addr)
| TransactionError (response : option Message).

(** Where [check_start] stands when it gives the control back: it awaits
    the transaction of its first request or of its nominating request, it
    has returned, or it has raised [AttributeError] on a remote password
    that is [None]. *)
Inductive CheckStep :=
| AwaitsResponse (request : Message) (nominate : bool)
| AwaitsNomination (request : Message)
| CheckReturns
| AttributeError.

Section Checks.

(** [candidate_priority] of [candidate.py], which is not among the
    sources. *)
Variable candidate_priority : Z → string → Z.

(** [Connection.build_request(pair, nominate)]; [tid] is the transaction
    id that [stun.Message] draws. *)
Definition build_request
    (pr : CandidatePair) (nominate : bool) (tid : string) (c : Connection)
    : Message :=
  let tx_username :=
    py_str_optional (remote_username c) +:+ ":" +:+ local_username c in
  {| message_method := BINDING; message_class := REQUEST;
     transaction_id := tid;
     attributes :=
       {| USERNAME := Some tx_username;
          PRIORITY := Some (candidate_priority (pair_component pr) "prflx");
          ICE_CONTROLLING :=
            if ice_controlling c then Some (_tie_breaker c) else None;
          ICE_CONTROLLED :=
            if ice_controlling c then None else Some (_tie_breaker c);
          USE_CANDIDATE := ice_controlling c && nominate;
          XOR_MAPPED_ADDRESS := None; ERROR_CODE := None |};
     integrity_key := None |}.

(** [check_state(pair, state)] followed by [check_complete(pair)]. *)
Definition check_finish (r : PairRef) (s : State) (a : Agent) : Agent :=
  set_connection (check_complete r (check_state r s (connection a))) a.

(** [Connection.check_start(pair)], up to its first [await].  (A
    reference held by the agent always points into the store.) *)
Definition check_start (r : PairRef) (tid : string) (a : Agent)
    : CheckStep * Agent :=
  let c := check_state r IN_PROGRESS (connection a) in
  let nominate := ice_controlling c && negb (remote_is_lite a) in
  match pairs c !! r with
  | None => (CheckReturns, a)
  | Some pr =>
      let request := build_request pr nominate tid c in
      match remote_password a with
      | None => (AttributeError, set_connection c a)
      | Some key =>
          (AwaitsResponse (add_message_integrity key request) nominate,
           set_connection c a)
      end
  end.

(** [exc.response and exc.response.attributes.get("ERROR-CODE",
    (None, None))[0] == 487]; a [stun.Message] is true. *)
Definition is_role_conflict (response : option Message) : bool :=
  match response with
  | Some m =>
      match ERROR_CODE (attributes m) with
      | Some (code, _) => code =? 487
      | None => false
      end
  | None => false
  end.

(** [Connection.check_start(pair)] from the end of its first transaction
    on; [request] and [nominate] are its local variables, and [tid] is
    the transaction id of the request it builds next, if it builds one. *)
Definition check_start_response
    (r : PairRef) (request : Message) (nominate : bool)
    (result : TransactionResult) (tid : string) (a : Agent)
    : CheckStep * Agent :=
  match result with
  | TransactionError response =>
      if is_role_conflict response then
        let c := connection a in
        let c :=
          match ICE_CONTROLLING (attributes request),
                ICE_CONTROLLED (attributes request) with
          | Some _, _ => switch_role false c
          | None, Some _ => switch_role true c
          | None, None => c
          end in
        check_start r tid (set_connection c a)
      else (CheckReturns, check_finish r FAILED a)
  | Response response addr =>
      match pairs (connection a) !! r with
      | None => (CheckReturns, a)
      | Some pr =>
          if negb (bool_decide (addr = remote_addr pr)) then
            (CheckReturns, check_finish r FAILED a)
          else if nominate || remote_nominated pr then
            (CheckReturns,
             check_finish r SUCCEEDED
               (set_connection
                  (update_pair r (set_pair_nominated true) (connection a))
                  a))
          else if ice_controlling (connection a)
                  && negb (bool_decide (pair_component pr ∈ _nominating a))
          then
            let a :=
              set_nominating (_nominating a ∪ {[ pair_component pr ]}) a in
            let request := build_request pr true tid (connection a) in
            match remote_password a with
            | None => (AttributeError, a)
            | Some key =>
                (AwaitsNomination (add_message_integrity key request), a)
            end
          else (CheckReturns, check_finish r SUCCEEDED a)
      end
  end.

(** [Connection.check_start(pair)] from the end of the nominating
    transaction on. *)
Definition check_start_nominated
    (r : PairRef) (result : TransactionResult) (a : Agent) : Agent :=
  match result with
  | TransactionError _ => check_finish r FAILED a
  | Response _ _ =>
      check_finish r SUCCEEDED
        (set_connection
           (update_pair r (set_pair_nominated true) (connection a)) a)
  end.

End Checks.

(** [candidate_priority] as RFC 5245 4.1.2.1 gives it for the type
    preferences 126 (host), 110 (prflx), 100 (srflx) and 0 (relay), with
    the local preference 65535. *)
Definition example_candidate_priority (comp : Z) (ty : string) : Z :=
  let type_pref :=
    if String.eqb ty "host" then 126
    else if String.eqb ty "prflx" then 110
    else if String.eqb ty "srflx" then 100
    else 0 in
  2 ^ 24 * type_pref + 2 ^ 8 * 65535 + (256 - comp).

(** ** Consent freshness *)

Definition CONSENT_FAILURES : nat := 6.

(** One turn of the inner loop of [Connection.query_consent], from the
    end of its transaction on: the count of failures after it, or [None]
    when the task has closed the connection and returned. *)
Definition query_consent_result
    (failures : nat) (result : TransactionResult) (c : Connection)
    : option nat * Connection :=
  let failures :=
    match result with
    | Response _ _ => 0%nat
    | TransactionError _ => S failures
    end in
  if (CONSENT_FAILURES <=? failures)%nat
  then (None, close (set_query_consent_task None c))
  else (Some failures, c).

(** The turns of [query_consent] for transactions that end with
    [results], one after the other. *)
Fixpoint query_consent_results
    (failures : nat) (results : list TransactionResult) (c : Connection)
    : option nat * Connection :=
  match results with
  | [] => (Some failures, c)
  | result :: results' =>
      match query_consent_result failures result c with
      | (Some failures', c') => query_consent_results failures' results' c'
      | (None, c') => (None, c')
      end
  end.

(** The transaction has failed. *)
Definition consent_failed (result : TransactionResult) : Prop :=
  match result with
  | Response _ _ => False
  | TransactionError _ => True
  end.

(** [results] has [CONSENT_FAILURES] failures in a row. *)
Definition consent_expired (results : list TransactionResult) : Prop :=
  ∃ before failed after,
    results = before ++ failed ++ after
    ∧ length failed = CONSENT_FAILURES
    ∧ Forall consent_failed failed.

(** An agent that is about to check the pairs of [unfreeze_example], and
    the request of its check of the first pair. *)
Definition example_agent : Agent :=
  {| connection := unfreeze_example; remote_is_lite := false;
     remote_password := Some "zyxwvutsrqponmlkjihgfedcba"%string;
     _nominating := ∅ |}.

Definition example_check_request : Message :=
  add_message_integrity "zyxwvutsrqponmlkjihgfedcba"
    (build_request example_candidate_priority
       (set_state IN_PROGRESS (new_pair example_protocol example_remote_1))
       true "a1b2c3d4e5f6" unfreeze_example).

(** * Properties *)

(** ** The stable sort *)

Lemma py_insort_perm {A} (key : A → Z) x l :
  Permutation (py_insort key x l) (x :: l).
Proof.
  induction l as [|y l IH]; simpl; [done|].
  destruct (key x <=? key y); [done|].
  rewrite IH. apply perm_swap.
Qed.

Lemma py_sorted_perm {A} (key : A → Z) l : Permutation (py_sorted key l) l.
Proof.
  induction l as [|x l IH]; simpl; [done|].
  rewrite py_insort_perm. by constructor.
Qed.

Lemma py_insort_sorted {A} (key : A → Z) x l :
  StronglySorted (key_le key) l → StronglySorted (key_le key) (py_insort key x l).
Proof.
  induction 1 as [|y l Hl IH Hy]; simpl.
  - repeat constructor.
  - destruct (Z.leb_spec (key x) (key y)) as [Hxy|Hxy].
    + constructor; [by constructor|].
      constructor; [done|].
      eapply Forall_impl; [exact Hy|]. unfold key_le. intros; lia.
    + constructor; [done|].
      rewrite py_insort_perm. constructor; [unfold key_le; lia | done].
Qed.

Lemma py_sorted_sorted {A} (key : A → Z) l :
  StronglySorted (key_le key) (py_sorted key l).
Proof.
  induction l; simpl; [constructor | by apply py_insort_sorted].
Qed.

(** Consecutive elements of a sorted list have increasing keys. *)
Lemma py_sorted_consecutive {A} (key : A → Z) (l : list A) i a b :
  py_sorted key l !! i = Some a → py_sorted key l !! S i = Some b →
  key a ≤ key b.
Proof.
  generalize (py_sorted_sorted key l).
  generalize (py_sorted key l). clear l. intros l Hs. revert i.
  induction Hs as [|x l Hl IH Hx]; intros i; [done|].
  destruct i as [|i]; simpl.
  - intros [= ->] Hb. rewrite Forall_forall in Hx.
    apply Hx. eapply list_elem_of_lookup_2. exact Hb.
  - apply IH.
Qed.

(** A sorted list is left as it is. *)
Lemma py_sorted_id {A} (key : A → Z) (l : list A) :
  StronglySorted (key_le key) l → py_sorted key l = l.
Proof.
  induction 1 as [|x l Hl IH Hx]; simpl; [done|].
  rewrite IH. destruct l as [|y l]; [done|]. simpl.
  inversion Hx as [|? ? Hxy _]; subst. unfold key_le in Hxy.
  destruct (Z.leb_spec (key x) (key y)); [done | lia].
Qed.

Lemma find_py_insort {A} (key : A → Z) (P : A → bool) x l :
  StronglySorted (key_le key) l →
  find P (py_insort key x l) =
  if P x then
    match find P l with
    | Some y => if key x <=? key y then Some x else Some y
    | None => Some x
    end
  else find P l.
Proof.
  induction 1 as [|y l Hl IH Hy]; simpl.
  - by destruct (P x).
  - destruct (Z.leb_spec (key x) (key y)) as [Hxy|Hxy]; simpl.
    + destruct (P x) eqn:HPx; [|done].
      destruct (P y) eqn:HPy.
      * destruct (Z.leb_spec (key x) (key y)); [done | lia].
      * destruct (find P l) as [z|] eqn:Hz; [|done].
        apply find_some in Hz as [Hz%list_elem_of_In _].
        rewrite Forall_forall in Hy. specialize (Hy z Hz). unfold key_le in Hy.
        destruct (Z.leb_spec (key x) (key z)); [done | lia].
    + destruct (P y) eqn:HPy.
      * destruct (P x); [|done].
        destruct (Z.leb_spec (key x) (key y)); [lia | done].
      * exact IH.
Qed.

Lemma find_py_sorted {A} (key : A → Z) (P : A → bool) l :
  find P (py_sorted key l) = first_least key P l.
Proof.
  induction l as [|x l IH]; simpl; [done|].
  rewrite find_py_insort by apply py_sorted_sorted.
  by rewrite IH.
Qed.

Lemma first_least_None {A} (key : A → Z) (P : A → bool) l :
  first_least key P l = None ↔ ∀ x, x ∈ l → P x = false.
Proof.
  induction l as [|x l IH]; simpl.
  - split; [|done]. intros _ x Hx. by apply elem_of_nil in Hx.
  - destruct (P x) eqn:HPx.
    + split.
      * destruct (first_least key P l) as [y|]; [by destruct (_ <=? _)|done].
      * intros H. specialize (H x (list_elem_of_here _ _)). congruence.
    + rewrite IH. split.
      * intros H y [->|Hy]%elem_of_cons; auto.
      * intros H y Hy. apply H. by right.
Qed.

(** [first_least] returns an element at some position [i] that satisfies
    [P], whose key is at most that of any element satisfying [P], and
    strictly less for those that stand before position [i]. *)
Lemma first_least_Some {A} (key : A → Z) (P : A → bool) l x :
  first_least key P l = Some x →
  ∃ i : nat, l !! i = Some x ∧ P x = true ∧
    ∀ (j : nat) y, l !! j = Some y → P y = true →
      key x ≤ key y ∧ ((j < i)%nat → key x < key y).
Proof.
  revert x. induction l as [|a l IH]; intros x; simpl; [done|].
  destruct (P a) eqn:HPa.
  - destruct (first_least key P l) as [y|] eqn:Hfl.
    + destruct (IH y eq_refl) as (i & Hi & HPy & Hmin).
      destruct (Z.leb_spec (key a) (key y)) as [Hay|Hay]; intros [= <-].
      * exists 0%nat. split; [done|]. split; [done|].
        intros [|j] z; simpl.
        -- intros [= <-] _. split; lia.
        -- intros Hz HPz. destruct (Hmin j z Hz HPz). split; lia.
      * exists (S i). split; [done|]. split; [done|].
        intros [|j] z; simpl.
        -- intros [= <-] _. split; lia.
        -- intros Hz HPz. destruct (Hmin j z Hz HPz) as [H1 H2].
           split; [done|]. intros ?. apply H2. lia.
    + intros [= <-]. exists 0%nat. split; [done|]. split; [done|].
      intros [|j] z; simpl.
      * intros [= <-] _. split; lia.
      * intros Hz HPz.
        pose proof (proj1 (first_least_None key P l) Hfl z) as Hn.
        rewrite Hn in HPz; [done|]. eapply list_elem_of_lookup_2. exact Hz.
  - intros Hx. destruct (IH x Hx) as (i & Hi & HPx & Hmin).
    exists (S i). split; [done|]. split; [done|].
    intros [|j] z; simpl.
    + intros [= <-] ?. congruence.
    + intros Hz HPz. destruct (Hmin j z Hz HPz) as [H1 H2].
      split; [done|]. intros ?. apply H2. lia.
Qed.

(** ** Pair priority *)

Lemma py_and_or_nonzero c a b : a ≠ 0 → py_and_or c a b = if c then a else b.
Proof. unfold py_and_or. destruct c; [|done]. by destruct (Z.eqb_spec a 0). Qed.

(** In the controlled role, and in the controlling role when neither
    priority is zero, [candidate_pair_priority] is the formula of the
    specification. *)
Lemma candidate_pair_priority_formula local remote b :
  (b = true → priority local ≠ 0 ∧ priority remote ≠ 0) →
  candidate_pair_priority local remote b = spec_pair_priority local remote b.
Proof.
  intros H. unfold candidate_pair_priority, spec_pair_priority.
  change (Z.shiftl 1 32) with (2 ^ 32).
  destruct b.
  - destruct H as [Hl Hr]; [done|].
    rewrite !py_and_or_nonzero by done. simpl.
    by destruct (priority local >? priority remote).
  - simpl. by destruct (priority remote >? priority local).
Qed.

(** The swap law holds whenever neither priority is zero. *)
Lemma candidate_pair_priority_swap_nonzero local remote :
  priority local ≠ 0 → priority remote ≠ 0 →
  candidate_pair_priority local remote true
  = candidate_pair_priority remote local false.
Proof.
  intros Hl Hr. rewrite !candidate_pair_priority_formula by (done || auto).
  reflexivity.
Qed.

(** C2 (the code breaks the law): with a local priority 1 and a remote
    priority 0, the controlling side computes [2^32 + 2], where the
    controlled side, the arguments swapped, computes 3.  The [and]/[or]
    selection of [G] and [D] takes the other priority when the selected
    one is 0. *)
Theorem candidate_pair_priority_swap_at_zero :
  candidate_pair_priority
    (example_candidate "f1" 1 1 "192.0.2.1" "host")
    (example_candidate "f2" 1 0 "192.0.2.2" "host") true = 2 ^ 32 + 2
  ∧ candidate_pair_priority
      (example_candidate "f2" 1 0 "192.0.2.2" "host")
      (example_candidate "f1" 1 1 "192.0.2.1" "host") false = 3.
Proof. split; reflexivity. Qed.

(** ** [get_default_candidate] *)

(** C10: [get_default_candidate] returns a local candidate of the
    component whose priority is the least among those of the component,
    the first in the list among those of that least priority (the sort is
    stable); it returns [None] when no local candidate has the component;
    and it leaves the connection, hence the list of candidates, as it
    was. *)
Theorem get_default_candidate_least comp c :
  (get_default_candidate comp c).2 = c
  ∧ match (get_default_candidate comp c).1 with
    | None => ∀ x, x ∈ _local_candidates c → component x ≠ comp
    | Some x =>
        ∃ i : nat,
          _local_candidates c !! i = Some x ∧ component x = comp ∧
          ∀ (j : nat) y,
            _local_candidates c !! j = Some y → component y = comp →
            priority x ≤ priority y ∧ ((j < i)%nat → priority x < priority y)
    end.
Proof.
  split; [done|]. unfold get_default_candidate. simpl.
  rewrite find_py_sorted.
  destruct (first_least _ _ _) as [x|] eqn:Hx.
  - apply first_least_Some in Hx as (i & Hi & HP & Hmin).
    exists i. split; [done|]. split; [by apply bool_decide_eq_true in HP|].
    intros j y Hy Hc. apply (Hmin j y Hy). by apply bool_decide_eq_true.
  - intros x Hin. rewrite first_least_None in Hx.
    specialize (Hx x Hin). by apply bool_decide_eq_false in Hx.
Qed.

(** ** Credentials *)

Lemma ice_char_not_newline a : ice_char a = true → (nat_of_ascii a =? 10)%nat = false.
Proof.
  unfold ice_char. generalize (nat_of_ascii a). intros n H.
  destruct (Nat.eqb_spec n 10) as [->|]; [discriminate H | done].
Qed.

Lemma ice_string_not_at_dollar a s :
  ice_char a = true → re_at_dollar (String a s) = false.
Proof.
  intros H. simpl. destruct s; [by apply ice_char_not_newline | done].
Qed.

(** On a string of ice-chars the pattern checks the length, and nothing
    else. *)
Lemma re_ice_chars_length hi lo s :
  ice_string s = true →
  re_ice_chars lo hi s
  = ((lo <=? String.length s)%nat && (String.length s <=? hi)%nat).
Proof.
  revert lo s. induction hi as [|hi IH]; intros lo s Hs.
  - destruct s as [|a s].
    + simpl. destruct lo; reflexivity.
    + apply andb_prop in Hs as [Ha _].
      cbn [re_ice_chars]. rewrite (ice_string_not_at_dollar a s Ha).
      simpl String.length. by rewrite !andb_false_r.
  - destruct s as [|a s].
    + simpl. destruct lo; reflexivity.
    + apply andb_prop in Hs as [Ha Hs].
      cbn [re_ice_chars]. rewrite Ha, (ice_string_not_at_dollar a s Ha).
      rewrite andb_false_r, orb_false_r, andb_true_l, (IH _ _ Hs).
      simpl String.length. destruct lo; reflexivity.
Qed.

(** The strings that the pattern accepts: [lo] to [hi] ice-chars,
    followed by nothing or by one newline. *)
Lemma re_ice_chars_accepts hi lo s :
  re_ice_chars lo hi s = true ↔
  ∃ w, ice_string w = true ∧ (lo ≤ String.length w ≤ hi)%nat
       ∧ (s = w ∨ s = w +:+ newline).
Proof.
  revert lo s. induction hi as [|hi IH]; intros lo s.
  - simpl. split.
    + intros [Hlo%Nat.eqb_eq Hs]%andb_prop. exists EmptyString.
      split; [done|]. split; [simpl; lia|].
      destruct s as [|a [|b s]]; [by left | right | done].
      apply Nat.eqb_eq in Hs. simpl. unfold newline.
      by rewrite <- Hs, ascii_nat_embedding.
    + intros (w & Hw & Hlen & Hs).
      destruct w as [|a w]; [|simpl in Hlen; lia].
      assert (lo = 0%nat) as -> by (simpl in Hlen; lia).
      by destruct Hs as [->| ->].
  - destruct s as [|a s].
    + simpl. split.
      * intros [Hlo%Nat.eqb_eq _]%andb_prop. exists EmptyString.
        split; [done|]. split; [simpl; lia|]. by left.
      * intros (w & Hw & Hlen & Hs).
        destruct w as [|b w]; [|by destruct Hs].
        simpl in Hlen. assert (lo = 0%nat) as -> by lia. done.
    + cbn [re_ice_chars]. rewrite orb_true_iff, !andb_true_iff, IH. split.
      * intros [[Ha (w & Hw & Hlen & Hs)]|[Hlo%Nat.eqb_eq Hd]].
        -- exists (String a w). split; [simpl; by rewrite Ha|].
           split; [simpl; lia|].
           destruct Hs as [->| ->]; [by left | by right].
        -- exists EmptyString. split; [done|]. split; [simpl; lia|].
           right. destruct s; [|done]. simpl in Hd. apply Nat.eqb_eq in Hd.
           simpl. unfold newline. by rewrite <- Hd, ascii_nat_embedding.
      * intros (w & Hw & Hlen & Hs). destruct w as [|b w].
        -- right. simpl in Hlen. split; [apply Nat.eqb_eq; lia|].
           by destruct Hs as [Hs|Hs]; [|injection Hs as -> ->].
        -- left. simpl in Hw. apply andb_prop in Hw as [Hb Hw].
           simpl in Hlen.
           assert (a = b ∧ (s = w ∨ s = w +:+ newline)) as [-> Hs'].
           { destruct Hs as [Hs|Hs]; injection Hs as -> ->; auto. }
           split; [done|]. exists w. split; [done|]. split; [lia|done].
Qed.

(** The part of C8 that holds: on strings of ice-chars, a username is
    accepted exactly for the lengths 4 to 256 and a password exactly for
    the lengths 22 to 256. *)
Lemma validate_username_ice_string s :
  ice_string s = true →
  validate_username s = Ok tt ↔ (4 ≤ String.length s ≤ 256)%nat.
Proof.
  intros Hs. unfold validate_username. rewrite (re_ice_chars_length _ _ _ Hs).
  destruct (Nat.leb_spec 4 (String.length s)),
           (Nat.leb_spec (String.length s) 256); simpl;
    split; (done || lia).
Qed.

Lemma validate_password_ice_string s :
  ice_string s = true →
  validate_password s = Ok tt ↔ (22 ≤ String.length s ≤ 256)%nat.
Proof.
  intros Hs. unfold validate_password. rewrite (re_ice_chars_length _ _ _ Hs).
  destruct (Nat.leb_spec 22 (String.length s)),
           (Nat.leb_spec (String.length s) 256); simpl;
    split; (done || lia).
Qed.

Lemma ice_string_repeat_a n : ice_string (repeat_char "a" n) = true.
Proof. induction n; [done|]. simpl. exact IHn. Qed.

Lemma length_repeat_char a n : String.length (repeat_char a n) = n.
Proof. induction n; simpl; congruence. Qed.

(** The boundary lengths, on the strings [aaa...a]. *)
Lemma validate_credentials_boundaries :
  validate_username (repeat_char "a" 4) = Ok tt
  ∧ validate_username (repeat_char "a" 256) = Ok tt
  ∧ validate_username (repeat_char "a" 3) ≠ Ok tt
  ∧ validate_username (repeat_char "a" 257) ≠ Ok tt
  ∧ validate_password (repeat_char "a" 22) = Ok tt
  ∧ validate_password (repeat_char "a" 256) = Ok tt
  ∧ validate_password (repeat_char "a" 21) ≠ Ok tt
  ∧ validate_password (repeat_char "a" 257) ≠ Ok tt.
Proof.
  rewrite !validate_username_ice_string, !validate_password_ice_string
    by apply ice_string_repeat_a.
  rewrite !length_repeat_char. lia.
Qed.

(** C8 (the code breaks the last clause): a username of four ice-chars
    followed by a newline, and a password of twenty-two ice-chars followed
    by a newline, hold a character outside the alphabet and are accepted,
    since [$] also matches before a final newline. *)
Theorem validate_credentials_trailing_newline :
  ice_string ("abcd" +:+ newline) = false
  ∧ validate_username ("abcd" +:+ newline) = Ok tt
  ∧ ice_string ("0123456789abcdefghijkl" +:+ newline) = false
  ∧ validate_password ("0123456789abcdefghijkl" +:+ newline) = Ok tt.
Proof. repeat split; vm_compute; reflexivity. Qed.

(** ** [_unfreeze_initial] *)

(** [set(s)] holds the strings of length one made of a character of
    [s]: a string of another length is not in it. *)
Lemma elem_of_py_set_of_str f s :
  f ∈ py_set_of_str s ↔
  ∃ a, f = String a EmptyString ∧ a ∈ list_ascii_of_string s.
Proof.
  unfold py_set_of_str. rewrite elem_of_list_to_set, list_elem_of_fmap.
  reflexivity.
Qed.

Lemma foundation_not_in_its_set f :
  String.length f ≠ 1%nat → f ∉ py_set_of_str f.
Proof.
  intros Hlen [a [-> _]]%elem_of_py_set_of_str. by apply Hlen.
Qed.

(** A turn of the second loop leaves the state of a pair as it was, or
    takes it from Frozen to Waiting. *)
Lemma unfreeze_initial_step_state first_pair acc p r :
  state <$> pairs (unfreeze_initial_step first_pair acc p).1 !! r
  = state <$> pairs acc.1 !! r
  ∨ (state <$> pairs acc.1 !! r = Some FROZEN
     ∧ state <$> pairs (unfreeze_initial_step first_pair acc p).1 !! r
       = Some WAITING).
Proof.
  unfold unfreeze_initial_step.
  destruct (pairs acc.1 !! p) as [pr|] eqn:Hp; [|by left].
  destruct (_ && _) eqn:Hc; [|by left].
  apply andb_prop in Hc as [_ Hst%bool_decide_eq_true].
  simpl. destruct (decide (p = r)) as [->|Hne].
  - right. rewrite list_lookup_alter_eq, Hp. simpl. by rewrite Hst.
  - left. by rewrite list_lookup_alter_ne.
Qed.

Lemma unfreeze_initial_loop_waiting first_pair l acc r :
  state <$> pairs acc.1 !! r = Some WAITING →
  state <$> pairs (foldl (unfreeze_initial_step first_pair) acc l).1 !! r
  = Some WAITING.
Proof.
  revert acc. induction l as [|p l IH]; intros acc H; simpl; [done|].
  apply IH.
  destruct (unfreeze_initial_step_state first_pair acc p r) as [->|[? ?]];
    congruence.
Qed.

(** The part of C1 that holds: the first pair of the lowest-numbered
    component, when Frozen, is Waiting after [_unfreeze_initial], which
    returns normally. *)
Lemma unfreeze_initial_first_pair c lowest r first_pair :
  py_min (_components c) = Some lowest →
  find (λ p, bool_decide (pair_component <$> pairs c !! p = Some lowest))
       (_check_list c) = Some r →
  pairs c !! r = Some first_pair →
  state first_pair = FROZEN →
  (_unfreeze_initial c).1 = Ok tt
  ∧ state <$> pairs (_unfreeze_initial c).2 !! r = Some WAITING.
Proof.
  intros Hmin Hfind Hr Hst. unfold _unfreeze_initial.
  destruct (_check_list c) as [|x l] eqn:Hl; [done|].
  rewrite Hmin, Hfind, Hr. simpl. split; [done|].
  apply unfreeze_initial_loop_waiting. simpl.
  rewrite bool_decide_eq_true_2 by done. simpl.
  by rewrite list_lookup_alter_eq, Hr.
Qed.

(** C1 (the code breaks the last clause): on a check list of two Frozen
    pairs that have the same local candidate, [_unfreeze_initial] leaves
    both pairs Waiting.  [seen_foundations] starts as the set of the
    characters of the first foundation, in which no foundation of 32
    characters is found. *)
Theorem unfreeze_initial_same_foundation :
  pair_local_candidate <$> pairs unfreeze_example !! 1%nat
  = pair_local_candidate <$> pairs unfreeze_example !! 0%nat
  ∧ state <$> pairs unfreeze_example !! 0%nat = Some FROZEN
  ∧ state <$> pairs unfreeze_example !! 1%nat = Some FROZEN
  ∧ (_unfreeze_initial unfreeze_example).1 = Ok tt
  ∧ state <$> pairs (_unfreeze_initial unfreeze_example).2 !! 0%nat
    = Some WAITING
  ∧ state <$> pairs (_unfreeze_initial unfreeze_example).2 !! 1%nat
    = Some WAITING.
Proof. repeat split; vm_compute; reflexivity. Qed.

(** ** [close] *)

(** Closing the protocols touches the queue and the set of lost
    protocols, and nothing else. *)
Lemma protocols_close_fields l c :
  ∃ q lo, foldl protocol_close c l = set_lost lo (set_queue q c).
Proof.
  revert c. induction l as [|p l IH]; intros c; simpl.
  - exists (_queue c), (lost c). by destruct c.
  - destruct (IH (protocol_close c p)) as (q & lo & ->).
    unfold protocol_close. case_bool_decide; by exists q, lo.
Qed.

(** The cases of one call of [close] on [c].  The conditions are
    settled before any field is computed, so that no field is computed
    on a conditional. *)
Ltac close_cases c :=
  unfold close;
  destruct (_query_consent_task c) as [[]|] eqn:?; cbv beta iota zeta;
  destruct (negb _ && negb _) eqn:?;
  match goal with
  | |- context [foldl protocol_close ?d ?l] =>
      let q := fresh "q" in
      let lo := fresh "lo" in
      destruct (protocols_close_fields l d) as (q & lo & ->)
  end; simpl;
  destruct (_closed c) eqn:?; simpl;
  unfold _emit_event; simpl;
  try (destruct (_event_waiter c); simpl).

Lemma close_nominated c : _nominated (close c) = ∅.
Proof. close_cases c; done. Qed.

Lemma close_protocols c : _protocols (close c) = [].
Proof. close_cases c; done. Qed.

Lemma close_local_candidates c : _local_candidates (close c) = [].
Proof. close_cases c; done. Qed.

Lemma close_closed c : _closed (close c) = true.
Proof. close_cases c; done. Qed.

Lemma close_mdns c : mdns_subscribed (close c) = false.
Proof. close_cases c; done. Qed.

Lemma close_consent_task c : _query_consent_task (close c) ≠ Some false.
Proof. close_cases c; congruence. Qed.

(** The events of one call. *)
Lemma close_emitted c :
  emitted (close c)
  = if _closed c then emitted c else emitted c ++ [ConnectionClosed].
Proof. close_cases c; done. Qed.

Lemma close_delivered c :
  delivered (close c)
  = if _closed c then delivered c
    else match _event_waiter c with
         | Some waiter => delivered c ++ [(waiter, ConnectionClosed)]
         | None => delivered c
         end.
Proof. close_cases c; done. Qed.

(** On a connection already closed, [close] can only post [ICE_FAILED]
    once more to the check-list queue: every other field is as it was. *)
Lemma close_closed_connection d :
  _closed d = true → _query_consent_task d ≠ Some false →
  mdns_subscribed d = false → _nominated d = ∅ → _protocols d = [] →
  _local_candidates d = [] →
  set_check_list_state (_check_list_state d) (close d) = d.
Proof.
  destruct d; simpl. intros -> Ht -> -> -> ->. unfold close.
  destruct _query_consent_task0 as [[]|]; [|done|];
    cbv beta iota zeta; destruct (negb _ && negb _); reflexivity.
Qed.

(** C9: after a first [close], the nominated map, the list of protocols
    and the local candidates are empty; a second [close] changes no field
    of the connection but possibly the check-list queue, so they stay
    empty and no event is emitted or delivered; and [n] calls of [close]
    in a row emit at most one [ConnectionClosed]. *)
Theorem close_after_close c :
  (_nominated (close c) = ∅ ∧ _protocols (close c) = []
   ∧ _local_candidates (close c) = [])
  ∧ set_check_list_state (_check_list_state (close c)) (close (close c))
    = close c
  ∧ (_nominated (close (close c)) = ∅ ∧ _protocols (close (close c)) = []
     ∧ _local_candidates (close (close c)) = []
     ∧ emitted (close (close c)) = emitted (close c)
     ∧ delivered (close (close c)) = delivered (close c))
  ∧ ∀ n : nat, ∃ events,
      emitted (Nat.iter n close c) = emitted c ++ events
      ∧ (length events ≤ 1)%nat
      ∧ ∀ e, e ∈ events → e = ConnectionClosed.
Proof.
  split; [auto using close_nominated, close_protocols,
            close_local_candidates|].
  split.
  { apply close_closed_connection.
    - apply close_closed.
    - apply close_consent_task.
    - apply close_mdns.
    - apply close_nominated.
    - apply close_protocols.
    - apply close_local_candidates. }
  split.
  - split; [apply close_nominated|].
    split; [apply close_protocols|].
    split; [apply close_local_candidates|].
    split.
    + rewrite (close_emitted (close c)). by rewrite close_closed.
    + rewrite (close_delivered (close c)). by rewrite close_closed.
  - assert (Hiter : ∀ n : nat,
      emitted (Nat.iter (S n) close c) = emitted (close c)
      ∧ _closed (Nat.iter (S n) close c) = true).
    { induction n as [|n [IH1 IH2]].
      - split; [done | apply close_closed].
      - rewrite Nat.iter_succ.
        split; [|apply close_closed].
        rewrite close_emitted, IH2. exact IH1. }
    intros [|n].
    + exists []. simpl. rewrite app_nil_r. split; [done|]. split; [lia|].
      intros e He. by apply elem_of_nil in He.
    + destruct (Hiter n) as [-> _]. rewrite close_emitted.
      destruct (_closed c).
      * exists []. rewrite app_nil_r. split; [done|]. split; [simpl; lia|].
        intros e He. by apply elem_of_nil in He.
      * exists [ConnectionClosed]. split; [done|]. split; [simpl; lia|].
        intros e He. by apply list_elem_of_singleton in He.
Qed.

(** ** [check_periodic] *)

Lemma find_first {A} (P : A → bool) (l : list A) r :
  find P l = Some r →
  ∃ i : nat, l !! i = Some r ∧ P r = true ∧
    ∀ (j : nat) r', (j < i)%nat → l !! j = Some r' → P r' = false.
Proof.
  induction l as [|x l IH]; simpl; [done|].
  destruct (P x) eqn:HP.
  - intros [= <-]. exists 0%nat. repeat split; [done|]. intros; lia.
  - intros (i & Hi & Hr & Hbefore)%IH. exists (S i). repeat split; [done..|].
    intros [|j] r'; simpl; [congruence|].
    intros Hj. apply Hbefore. lia.
Qed.

Lemma find_nothing {A} (P : A → bool) (l : list A) :
  find P l = None ↔ ∀ x, x ∈ l → P x = false.
Proof.
  induction l as [|x l IH]; simpl.
  - split; [|done]. intros _ x Hx. by apply elem_of_nil in Hx.
  - destruct (P x) eqn:HP.
    + split; [done|]. intros H.
      specialize (H x (list_elem_of_here _ _)). congruence.
    + rewrite IH. split.
      * intros H y [->|Hy]%elem_of_cons; auto.
      * intros H y Hy. apply H. by right.
Qed.

Lemma descending_cons a l :
  descending (a :: l) = true →
  descending l = true ∧ ∀ b, b ∈ l → b ≤ a.
Proof.
  revert a. induction l as [|b l IH]; intros a; simpl.
  - intros _. split; [done|]. intros b Hb. by apply elem_of_nil in Hb.
  - intros [Hba%Z.leb_le Hd]%andb_prop. split; [done|].
    destruct (IH b Hd) as [_ Hb].
    intros x [->|Hx]%elem_of_cons; [done|]. specialize (Hb x Hx). lia.
Qed.

(** In a descending list an element is at most those before it. *)
Lemma descending_lookup l (i j : nat) a b :
  descending l = true → (i ≤ j)%nat → l !! i = Some a → l !! j = Some b →
  b ≤ a.
Proof.
  revert i j. induction l as [|x l IH]; intros i j Hd Hij Hi Hj; [done|].
  destruct (descending_cons x l Hd) as [Hd' Hx].
  destruct i as [|i], j as [|j]; simpl in *; try lia.
  - assert (a = b) by congruence. lia.
  - injection Hi as <-. apply Hx. eapply list_elem_of_lookup_2. exact Hj.
  - eapply (IH i j); eauto. lia.
Qed.

Lemma descending_consecutive l :
  descending l = true ↔
  ∀ (i : nat) a b, l !! i = Some a → l !! S i = Some b → b ≤ a.
Proof.
  split.
  - intros Hd i a b Hi Hj. eapply (descending_lookup l i (S i)); eauto.
  - induction l as [|a [|b l] IH]; intros H; [done..|].
    cbn [descending]. apply andb_true_intro. split.
    + apply Z.leb_le. by apply (H 0%nat).
    + apply IH. intros i x y. apply (H (S i)).
Qed.

(** The first pair in a state has the highest priority among the pairs
    in that state when the check list is ordered. *)
Lemma first_in_state_highest c s r :
  check_list_ordered c → first_in_state c s r →
  highest_sort_key_in_state c s r.
Proof.
  intros Hord (i & Hi & _ & Hbefore) r' Hr' Hs'.
  apply list_elem_of_lookup in Hr' as [j Hj].
  destruct (decide (j < i)%nat) as [Hlt|Hge].
  - rewrite (Hbefore j r' Hlt Hj) in Hs'. done.
  - eapply (descending_lookup _ i j); [exact Hord | lia | |];
      by rewrite list_lookup_fmap, ?Hi, ?Hj.
Qed.

Lemma check_start_task_scheduled c s r :
  pair_has_state c s r = true → check_scheduled c (check_start_task r c) r.
Proof.
  unfold pair_has_state, check_start_task, check_scheduled.
  intros Hs%bool_decide_eq_true.
  destruct (pairs c !! r) as [pr|] eqn:Hr; [|done]. simpl.
  destruct (task pr) as [t|] eqn:Ht.
  - split; [|split]; [|done|done]. exists t. by rewrite Hr; simpl; rewrite Ht.
  - split; [|split]; [|done|done].
    exists (length (spawned c)). simpl.
    by rewrite list_lookup_alter_eq, Hr.
Qed.

(** The part of C6 that holds, by the order of the check list.  On a
    check list in the order of the sort: if some pair is Waiting,
    [check_periodic] returns true and a check task is scheduled for the
    first Waiting pair, which has the highest priority among the Waiting
    ones as [candidate_pair_priority] computes it; otherwise, if some
    pair is Frozen, the same for the first Frozen pair; otherwise, while
    the remote has not signaled end-of-candidates, it returns the
    negation of the checks-done flag and changes nothing; otherwise it
    returns false (and changes nothing). *)
Lemma check_periodic_decision c :
  check_list_ordered c →
  ((∃ r0, r0 ∈ _check_list c ∧ pair_has_state c WAITING r0 = true) →
   ∃ r, first_in_state c WAITING r ∧ highest_sort_key_in_state c WAITING r
        ∧ (check_periodic c).1 = true
        ∧ check_scheduled c (check_periodic c).2 r)
  ∧ ((∀ r0, r0 ∈ _check_list c → pair_has_state c WAITING r0 = false) →
     (∃ r0, r0 ∈ _check_list c ∧ pair_has_state c FROZEN r0 = true) →
     ∃ r, first_in_state c FROZEN r ∧ highest_sort_key_in_state c FROZEN r
          ∧ (check_periodic c).1 = true
          ∧ check_scheduled c (check_periodic c).2 r)
  ∧ ((∀ r0, r0 ∈ _check_list c → pair_has_state c WAITING r0 = false) →
     (∀ r0, r0 ∈ _check_list c → pair_has_state c FROZEN r0 = false) →
     _remote_candidates_end c = false →
     (check_periodic c).1 = negb (_check_list_done c)
     ∧ (check_periodic c).2 = c)
  ∧ ((∀ r0, r0 ∈ _check_list c → pair_has_state c WAITING r0 = false) →
     (∀ r0, r0 ∈ _check_list c → pair_has_state c FROZEN r0 = false) →
     _remote_candidates_end c = true →
     (check_periodic c).1 = false ∧ (check_periodic c).2 = c).
Proof.
  intros Hord. unfold check_periodic.
  split; [|split; [|split]].
  - intros (r0 & Hin & Hw).
    destruct (find (pair_has_state c WAITING) (_check_list c)) as [r|] eqn:Hf.
    + pose proof (find_first _ _ _ Hf) as Hfirst.
      exists r. split; [exact Hfirst|].
      split; [by apply first_in_state_highest|].
      split; [done|]. simpl.
      destruct Hfirst as (i & _ & Hs & _).
      by apply (check_start_task_scheduled c WAITING).
    + rewrite find_nothing in Hf. rewrite (Hf r0 Hin) in Hw. done.
  - intros Hnw%find_nothing (r0 & Hin & Hfz). rewrite Hnw.
    destruct (find (pair_has_state c FROZEN) (_check_list c)) as [r|] eqn:Hf.
    + pose proof (find_first _ _ _ Hf) as Hfirst.
      exists r. split; [exact Hfirst|].
      split; [by apply first_in_state_highest|].
      split; [done|]. simpl.
      destruct Hfirst as (i & _ & Hs & _).
      by apply (check_start_task_scheduled c FROZEN).
    + rewrite find_nothing in Hf. rewrite (Hf r0 Hin) in Hfz. done.
  - intros Hnw%find_nothing Hnf%find_nothing Hend.
    by rewrite Hnw, Hnf, Hend.
  - intros Hnw%find_nothing Hnf%find_nothing Hend.
    by rewrite Hnw, Hnf, Hend.
Qed.

(** [check_periodic_decision] at the check list of two Frozen pairs. *)
Lemma check_periodic_decision_example :
  check_list_ordered unfreeze_example
  ∧ (((∃ r0, r0 ∈ _check_list unfreeze_example ∧ pair_has_state unfreeze_example WAITING r0 = true) →
   ∃ r, first_in_state unfreeze_example WAITING r ∧ highest_sort_key_in_state unfreeze_example WAITING r
        ∧ (check_periodic unfreeze_example).1 = true
        ∧ check_scheduled unfreeze_example (check_periodic unfreeze_example).2 r)
  ∧ ((∀ r0, r0 ∈ _check_list unfreeze_example → pair_has_state unfreeze_example WAITING r0 = false) →
     (∃ r0, r0 ∈ _check_list unfreeze_example ∧ pair_has_state unfreeze_example FROZEN r0 = true) →
     ∃ r, first_in_state unfreeze_example FROZEN r ∧ highest_sort_key_in_state unfreeze_example FROZEN r
          ∧ (check_periodic unfreeze_example).1 = true
          ∧ check_scheduled unfreeze_example (check_periodic unfreeze_example).2 r)
  ∧ ((∀ r0, r0 ∈ _check_list unfreeze_example → pair_has_state unfreeze_example WAITING r0 = false) →
     (∀ r0, r0 ∈ _check_list unfreeze_example → pair_has_state unfreeze_example FROZEN r0 = false) →
     _remote_candidates_end unfreeze_example = false →
     (check_periodic unfreeze_example).1 = negb (_check_list_done unfreeze_example)
     ∧ (check_periodic unfreeze_example).2 = unfreeze_example)
  ∧ ((∀ r0, r0 ∈ _check_list unfreeze_example → pair_has_state unfreeze_example WAITING r0 = false) →
     (∀ r0, r0 ∈ _check_list unfreeze_example → pair_has_state unfreeze_example FROZEN r0 = false) →
     _remote_candidates_end unfreeze_example = true →
     (check_periodic unfreeze_example).1 = false ∧ (check_periodic unfreeze_example).2 = unfreeze_example)).
Proof.
  split; [reflexivity|].
  apply (check_periodic_decision unfreeze_example). reflexivity.
Defined.

(** ** [check_complete] *)

(** The loops of [check_complete] write to the store of pairs only. *)
Lemma fail_component_loop_fields comp l c :
  ∃ ps, foldl (fail_component_step comp) c l = set_pairs ps c.
Proof.
  revert c. induction l as [|p l IH]; intros c; simpl.
  - by exists (pairs c).
  - destruct (IH (fail_component_step comp c p)) as [ps ->].
    unfold fail_component_step. destruct (_ && _); by exists ps.
Qed.

Lemma unfreeze_foundation_loop_fields f l c :
  ∃ ps, foldl (unfreeze_foundation_step f) c l = set_pairs ps c.
Proof.
  revert c. induction l as [|p l IH]; intros c; simpl.
  - by exists (pairs c).
  - destruct (IH (unfreeze_foundation_step f c p)) as [ps ->].
    unfold unfreeze_foundation_step. destruct (_ && _); by exists ps.
Qed.

(** The end of [check_complete] writes to the done flag and to the queue
    only. *)
Lemma check_complete_failed_fields c :
  ∃ d q, check_complete_failed c
         = set_check_list_done d (set_check_list_state q c).
Proof.
  unfold check_complete_failed.
  destruct (forallb _ _); [|by exists (_check_list_done c), (_check_list_state c)].
  destruct (_ && _); [by exists (_check_list_done c), (_check_list_state c)|].
  destruct (_check_list_done c) eqn:Hd.
  - exists true, (_check_list_state c). by rewrite <- Hd.
  - by exists true, (_check_list_state c ++ [ICE_FAILED]).
Qed.

(** A pair that is neither Waiting nor Frozen, or of another component,
    is left as it is by the loop of 8.1.2. *)
Lemma fail_component_loop_other comp l c q pq :
  pairs c !! q = Some pq →
  pair_component pq ≠ comp ∨ (state pq ≠ WAITING ∧ state pq ≠ FROZEN) →
  pairs (foldl (fail_component_step comp) c l) !! q = Some pq.
Proof.
  revert c. induction l as [|p l IH]; intros c Hq Hno; simpl; [done|].
  apply IH; [|done]. unfold fail_component_step.
  destruct (_ && _) eqn:Hc; [|done].
  destruct (decide (p = q)) as [->|Hne].
  - apply andb_prop in Hc as [Hcomp%bool_decide_eq_true Hst].
    unfold pair_has_state in Hst. rewrite Hq in Hcomp, Hst. simpl in *.
    apply orb_prop in Hst as [Hst%bool_decide_eq_true|Hst%bool_decide_eq_true];
      destruct Hno as [?|[? ?]]; congruence.
  - simpl. by rewrite list_lookup_alter_ne.
Qed.

(** A Waiting or Frozen pair of the component that stands in the list is
    Failed after the loop of 8.1.2. *)
Lemma fail_component_loop_failed comp l c q pq :
  q ∈ l → pairs c !! q = Some pq → pair_component pq = comp →
  state pq = WAITING ∨ state pq = FROZEN →
  pairs (foldl (fail_component_step comp) c l) !! q
  = Some (set_state FAILED pq).
Proof.
  revert c. induction l as [|p l IH]; intros c Hin Hq Hcomp Hst; simpl.
  - by apply elem_of_nil in Hin.
  - destruct (decide (p = q)) as [->|Hne].
    + apply fail_component_loop_other; [|right; by split].
      unfold fail_component_step, pair_has_state. rewrite Hq. simpl.
      rewrite (bool_decide_eq_true_2 _ (f_equal Some Hcomp)).
      destruct Hst as [Hst|Hst]; rewrite Hst; simpl;
        by rewrite list_lookup_alter_eq, Hq.
    + apply elem_of_cons in Hin as [?|Hin]; [congruence|].
      apply IH; [done| |done..].
      unfold fail_component_step. destruct (_ && _); [|done].
      simpl. by rewrite list_lookup_alter_ne.
Qed.

(** A pair that is not Frozen is left as it is by the loop of
    7.1.3.2.3. *)
Lemma unfreeze_foundation_loop_other f l c q pq :
  pairs c !! q = Some pq → state pq ≠ FROZEN →
  pairs (foldl (unfreeze_foundation_step f) c l) !! q = Some pq.
Proof.
  revert c. induction l as [|p l IH]; intros c Hq Hno; simpl; [done|].
  apply IH; [|done]. unfold unfreeze_foundation_step.
  destruct (_ && _) eqn:Hc; [|done].
  destruct (decide (p = q)) as [->|Hne].
  - apply andb_prop in Hc as [_ Hst%bool_decide_eq_true].
    rewrite Hq in Hst. simpl in Hst. congruence.
  - simpl. by rewrite list_lookup_alter_ne.
Qed.

(** The part of C4 that holds.  [check_complete] on a Succeeded pair with
    the nominated flag installs it as the nominated pair of its
    component, and the other Waiting or Frozen pairs of the component
    that stand in the check list become Failed; and when the nominated
    map then has as many entries as there are components, while the check
    list is not done, [ICE_COMPLETED] is posted once and the check list is
    marked done. *)
Lemma check_complete_nominated_pair c r p :
  pairs c !! r = Some p → state p = SUCCEEDED → nominated p = true →
  _nominated (check_complete r c)
  = <[pair_component p := r]> (_nominated c)
  ∧ (∀ q pq, q ∈ _check_list c → q ≠ r → pairs c !! q = Some pq →
       pair_component pq = pair_component p →
       state pq = WAITING ∨ state pq = FROZEN →
       state <$> pairs (check_complete r c) !! q = Some FAILED)
  ∧ (size (<[pair_component p := r]> (_nominated c)) = size (_components c) →
     _check_list_done c = false →
     _check_list_state (check_complete r c)
     = _check_list_state c ++ [ICE_COMPLETED]
     ∧ _check_list_done (check_complete r c) = true).
Proof.
  intros Hr Hst Hnom. unfold check_complete.
  assert (Hr0 : pairs (update_pair r (set_task None) c) !! r
                = Some (set_task None p)).
  { simpl. by rewrite list_lookup_alter_eq, Hr. }
  rewrite Hr0. cbv beta iota zeta.
  change (state (set_task None p)) with (state p).
  change (nominated (set_task None p)) with (nominated p).
  change (pair_component (set_task None p)) with (pair_component p).
  change (pair_local_candidate (set_task None p)) with (pair_local_candidate p).
  rewrite Hst, Hnom. rewrite bool_decide_eq_true_2 by done.
  set (comp := pair_component p).
  set (c1 := set_nominated _ _).
  set (c2 := foldl (fail_component_step comp) c1 (_check_list c1)).
  assert (Hfailed : ∀ q pq, q ∈ _check_list c → q ≠ r → pairs c !! q = Some pq →
       pair_component pq = comp →
       state pq = WAITING ∨ state pq = FROZEN →
       pairs c2 !! q = Some (set_state FAILED pq)).
  { intros q pq Hin Hne Hq Hcomp Hs.
    apply fail_component_loop_failed; [done| |done..].
    simpl. by rewrite list_lookup_alter_ne. }
  destruct (fail_component_loop_fields comp (_check_list c1) c1) as [ps Hps].
  fold c2 in Hps.
  assert (Hn2 : _nominated c2 = <[comp := r]> (_nominated c)) by by rewrite Hps.
  assert (Hc2 : _components c2 = _components c) by by rewrite Hps.
  assert (Hd2 : _check_list_done c2 = _check_list_done c) by by rewrite Hps.
  assert (Hq2 : _check_list_state c2 = _check_list_state c) by by rewrite Hps.
  assert (Hl2 : _check_list c2 = _check_list c) by by rewrite Hps.
  rewrite Hn2, Hc2, Hd2.
  destruct (Nat.eqb_spec (size (<[comp:=r]> (_nominated c))) (size (_components c)))
    as [Hsize|Hsize].
  - destruct (_check_list_done c) eqn:Hdone.
    + split; [done|]. split; [|done].
      intros q pq Hin Hne Hq Hcomp Hs. by rewrite (Hfailed q pq).
    + simpl. split; [done|]. split.
      * intros q pq Hin Hne Hq Hcomp Hs. by rewrite (Hfailed q pq).
      * intros _ _. by rewrite Hq2.
  - set (c3 := foldl _ c2 _).
    destruct (unfreeze_foundation_loop_fields
                (foundation (pair_local_candidate p)) (_check_list c2) c2)
      as [ps3 Hps3].
    fold c3 in Hps3.
    destruct (check_complete_failed_fields c3) as (d & st & ->).
    simpl. split; [by rewrite Hps3|]. split; [|done].
    intros q pq Hin Hne Hq Hcomp Hs.
    unfold c3. erewrite unfreeze_foundation_loop_other; [| by apply Hfailed|];
      done.
Qed.

(** The two sizes agree when every component has a nominated pair and
    every nominated pair is that of a component. *)
Lemma all_nominated_size (m : gmap Z nat) (s : gset Z) :
  dom m ⊆ s → (∀ k, k ∈ s → is_Some (m !! k)) → size m = size s.
Proof.
  intros Hsub Hall. rewrite <- size_dom. f_equal. apply set_eq. intros k.
  split; [by apply Hsub|]. intros Hk. apply elem_of_dom. by apply Hall.
Qed.

(** C4 (the code breaks the second clause): at the end of the run that
    gives [pruned_example], [_components] is component 1 alone, whose
    nominated pair is installed, the check list is not done, and the pair
    of component 2 is Succeeded with the nominated flag.  Once
    [check_complete] has installed that pair, the one component of
    [_components] has a nominated pair; yet nothing is posted to the
    check-list queue and the check list is not marked done, because the
    nominated map has two entries and [_components] has one. *)
Theorem check_complete_pruned_components :
  (_components pruned_example = {[ 1 ]}
   ∧ _nominated pruned_example = {[ 1 := 0%nat ]}
   ∧ _check_list pruned_example = [0; 1]%nat
   ∧ state <$> pairs pruned_example !! 1%nat = Some SUCCEEDED
   ∧ nominated <$> pairs pruned_example !! 1%nat = Some true
   ∧ pair_component <$> pairs pruned_example !! 1%nat = Some 2
   ∧ _check_list_done pruned_example = false
   ∧ _check_list_state pruned_example = [])
  ∧ _nominated (check_complete 1 pruned_example)
    = {[ 1 := 0%nat; 2 := 1%nat ]}
  ∧ (∀ k, k ∈ _components pruned_example →
       is_Some (_nominated (check_complete 1 pruned_example) !! k))
  ∧ _check_list_state (check_complete 1 pruned_example) = []
  ∧ _check_list_done (check_complete 1 pruned_example) = false.
Proof.
  assert (Hc : _components pruned_example = {[ 1 ]})
    by (vm_compute; reflexivity).
  split; [repeat split; vm_compute; reflexivity|].
  split; [vm_compute; reflexivity|].
  split; [|split; vm_compute; reflexivity].
  intros k Hk. rewrite Hc in Hk.
  apply elem_of_singleton in Hk as ->. exists 0%nat.
  vm_compute. reflexivity.
Qed.

(** ** Remote candidates *)

Section RemoteCandidates.

Variable can_pair_with : Candidate → Candidate → bool.
Variable candidate_eq : Candidate → Candidate → bool.
Variable is_mdns_hostname : string → bool.
Variable mdns_resolve : string → option string.
Variable ip_address_ok : string → bool.

(** A candidate of an unsupported type: whatever [add_remote_candidate]
    returns, it has changed at most the mDNS subscription. *)
Lemma add_remote_candidate_unsupported_state depth rc c :
  bool_decide (type rc ∈ ["host"; "relay"; "srflx"]%string) = false →
  ∃ b,
    (add_remote_candidate can_pair_with candidate_eq is_mdns_hostname
       mdns_resolve ip_address_ok depth (Some rc) c).2
    = set_mdns_subscribed b c.
Proof.
  intros Hty.
  revert rc c Hty. induction depth as [|depth IH]; intros rc c Hty; simpl.
  - destruct (_remote_candidates_end c);
      [by exists (mdns_subscribed c)|].
    destruct (is_mdns_hostname (host rc)).
    + destruct (mdns_resolve (host rc)); by exists true.
    + unfold validate_remote_candidate. rewrite Hty. simpl.
      by exists (mdns_subscribed c).
  - destruct (_remote_candidates_end c);
      [by exists (mdns_subscribed c)|].
    destruct (is_mdns_hostname (host rc)).
    + destruct (mdns_resolve (host rc)) as [remote_addr|]; [|by exists true].
      destruct (IH (set_host remote_addr rc) (set_mdns_subscribed true c) Hty)
        as [b ->].
      by exists b.
    + unfold validate_remote_candidate. rewrite Hty. simpl.
      by exists (mdns_subscribed c).
Qed.

(** Before end-of-candidates, it raises no [ValueError]: it returns, or
    the resolution of mDNS names exhausts the recursion. *)
Lemma add_remote_candidate_unsupported_result depth rc c :
  bool_decide (type rc ∈ ["host"; "relay"; "srflx"]%string) = false →
  _remote_candidates_end c = false →
  (add_remote_candidate can_pair_with candidate_eq is_mdns_hostname
     mdns_resolve ip_address_ok depth (Some rc) c).1 = Ok tt
  ∨ (add_remote_candidate can_pair_with candidate_eq is_mdns_hostname
       mdns_resolve ip_address_ok depth (Some rc) c).1
    = Raise RecursionError.
Proof.
  intros Hty.
  revert rc c Hty. induction depth as [|depth IH]; intros rc c Hty Hend;
    simpl; rewrite Hend.
  - destruct (is_mdns_hostname (host rc)).
    + destruct (mdns_resolve (host rc)); auto.
    + unfold validate_remote_candidate. rewrite Hty. auto.
  - destruct (is_mdns_hostname (host rc)).
    + destruct (mdns_resolve (host rc)) as [remote_addr|]; [|auto].
      by apply IH.
    + unfold validate_remote_candidate. rewrite Hty. auto.
Qed.

(** C7, as the code has it: a remote candidate whose type is not host,
    srflx or relay is never appended to the remote candidates and no pair
    is added to the check list or created; and when end-of-candidates has
    not been signaled and the host is not an mDNS name, the call returns
    normally, the connection unchanged: the [ValueError] of the
    validation is caught and logged, not surfaced. *)
Theorem add_remote_candidate_unsupported_type depth rc c :
  bool_decide (type rc ∈ ["host"; "relay"; "srflx"]%string) = false →
  (_remote_candidates
     (add_remote_candidate can_pair_with candidate_eq is_mdns_hostname
        mdns_resolve ip_address_ok depth (Some rc) c).2
   = _remote_candidates c
   ∧ _check_list
       (add_remote_candidate can_pair_with candidate_eq is_mdns_hostname
          mdns_resolve ip_address_ok depth (Some rc) c).2
     = _check_list c
   ∧ pairs
       (add_remote_candidate can_pair_with candidate_eq is_mdns_hostname
          mdns_resolve ip_address_ok depth (Some rc) c).2
     = pairs c)
  ∧ (_remote_candidates_end c = false →
     is_mdns_hostname (host rc) = false →
     add_remote_candidate can_pair_with candidate_eq is_mdns_hostname
       mdns_resolve ip_address_ok depth (Some rc) c
     = (Ok tt, c)).
Proof.
  intros Hty. split.
  - destruct (add_remote_candidate_unsupported_state depth rc c Hty)
      as [b ->].
    done.
  - intros Hend Hmdns.
    destruct depth; simpl; rewrite Hend, Hmdns;
      unfold validate_remote_candidate; by rewrite Hty.
Qed.

End RemoteCandidates.

(** C7 at a peer-reflexive candidate given to a fresh connection. *)
Lemma add_remote_candidate_unsupported_type_witness :
  bool_decide
    (type example_remote_prflx ∈ ["host"; "relay"; "srflx"]%string) = false
  ∧ (_remote_candidates
       (add_remote_candidate example_can_pair_with example_candidate_eq
          example_is_mdns_hostname example_mdns_resolve
          example_ip_address_ok 1000 (Some example_remote_prflx)
          fresh_connection).2
     = _remote_candidates fresh_connection
     ∧ _check_list
         (add_remote_candidate example_can_pair_with example_candidate_eq
            example_is_mdns_hostname example_mdns_resolve
            example_ip_address_ok 1000 (Some example_remote_prflx)
            fresh_connection).2
       = _check_list fresh_connection
     ∧ pairs
         (add_remote_candidate example_can_pair_with example_candidate_eq
            example_is_mdns_hostname example_mdns_resolve
            example_ip_address_ok 1000 (Some example_remote_prflx)
            fresh_connection).2
       = pairs fresh_connection)
    ∧ (_remote_candidates_end fresh_connection = false →
       example_is_mdns_hostname (host example_remote_prflx) = false →
       add_remote_candidate example_can_pair_with example_candidate_eq
         example_is_mdns_hostname example_mdns_resolve
         example_ip_address_ok 1000 (Some example_remote_prflx)
         fresh_connection
       = (Ok tt, fresh_connection)).
Proof.
  split; [reflexivity|].
  apply (add_remote_candidate_unsupported_type example_can_pair_with
           example_candidate_eq example_is_mdns_hostname
           example_mdns_resolve example_ip_address_ok 1000
           example_remote_prflx fresh_connection).
  reflexivity.
Defined.

(** C7 as stated fails: the call on a peer-reflexive candidate returns
    normally; no error reaches the caller. *)
Lemma add_remote_candidate_prflx_returns :
  (add_remote_candidate example_can_pair_with example_candidate_eq
     example_is_mdns_hostname example_mdns_resolve example_ip_address_ok
     1000 (Some example_remote_prflx) fresh_connection).1 = Ok tt
  ∧ ¬ ∃ e,
      (add_remote_candidate example_can_pair_with example_candidate_eq
         example_is_mdns_hostname example_mdns_resolve example_ip_address_ok
         1000 (Some example_remote_prflx) fresh_connection).1 = Raise e.
Proof. split; [reflexivity|]. intros [e He]. discriminate He. Qed.

(** ** Role conflicts *)

(** The role is changed by [switch_role] only. *)
Lemma check_start_task_role r c :
  ice_controlling (check_start_task r c) = ice_controlling c.
Proof.
  unfold check_start_task. by destruct (task <$> pairs c !! r) as [[]|].
Qed.

Lemma check_complete_failed_role c :
  ice_controlling (check_complete_failed c) = ice_controlling c.
Proof. by destruct (check_complete_failed_fields c) as (d & q & ->). Qed.

Lemma check_complete_role r c :
  ice_controlling (check_complete r c) = ice_controlling c.
Proof.
  unfold check_complete.
  destruct (pairs (update_pair r (set_task None) c) !! r) as [pr|]; [|done].
  destruct (bool_decide (state pr = SUCCEEDED));
    [|by rewrite check_complete_failed_role].
  cbv zeta.
  destruct (nominated pr).
  - match goal with
    | |- context [foldl (fail_component_step ?k) ?d ?l] =>
        destruct (fail_component_loop_fields k l d) as [ps ->]
    end.
    destruct (_ =? _)%nat.
    + by destruct (_check_list_done _).
    + rewrite check_complete_failed_role.
      match goal with
      | |- context [foldl (unfreeze_foundation_step ?f) ?d ?l] =>
          destruct (unfreeze_foundation_loop_fields f l d) as [ps' ->]
      end.
      done.
  - destruct (_ =? _)%nat.
    + by destruct (_check_list_done _).
    + rewrite check_complete_failed_role.
      match goal with
      | |- context [foldl (unfreeze_foundation_step ?f) ?d ?l] =>
          destruct (unfreeze_foundation_loop_fields f l d) as [ps' ->]
      end.
      done.
Qed.

Section RoleConflict.

Variable candidate_eq : Candidate → Candidate → bool.
Variable stun_integrity_ok : string → string → bool.

Lemma check_incoming_pair_role message protocol0 rc c :
  ice_controlling (check_incoming_pair candidate_eq message protocol0 rc c)
  = ice_controlling c.
Proof.
  unfold check_incoming_pair.
  destruct (_find_pair candidate_eq protocol0 rc c) as [r|];
    cbv beta iota zeta;
    repeat match goal with
           | |- context [if ?b then _ else _] => destruct b
           end;
    rewrite ?check_complete_role; simpl;
    rewrite ?check_start_task_role; done.
Qed.

Lemma check_incoming_role message addr protocol0 rnd c :
  ice_controlling (check_incoming candidate_eq message addr protocol0 rnd c).2
  = ice_controlling c.
Proof.
  unfold check_incoming.
  destruct (find _ _) as [rc|].
  - destruct (bool_decide _); [|done]. apply check_incoming_pair_role.
  - destruct (PRIORITY _); [|done]. simpl.
    by rewrite check_incoming_pair_role.
Qed.

Lemma accept_request_role message addr protocol0 rnd c :
  ice_controlling (accept_request candidate_eq message addr protocol0 rnd c).2
  = ice_controlling c.
Proof.
  unfold accept_request. cbv zeta.
  destruct (_ && _); [done|]. by rewrite check_incoming_role.
Qed.


End RoleConflict.


(** ** The order of the check list *)

Lemma ref_priority_ext c c' r :
  ice_controlling c' = ice_controlling c →
  pair_candidates <$> pairs c' !! r = pair_candidates <$> pairs c !! r →
  ref_priority c' r = ref_priority c r.
Proof.
  unfold ref_priority, pair_priority. intros -> H.
  destruct (pairs c' !! r) as [pr'|], (pairs c !! r) as [pr|];
    simpl in H; try done.
  injection H as H1 H2. by rewrite H1, H2.
Qed.

Lemma same_order_refl c : same_order c c.
Proof. by repeat split. Qed.

Lemma same_order_trans c1 c2 c3 :
  same_order c1 c2 → same_order c2 c3 → same_order c1 c3.
Proof.
  intros (Hl & Hr & Hk) (Hl' & Hr' & Hk').
  split; [congruence|]. split; [congruence|].
  intros r. by rewrite Hk', Hk.
Qed.

Lemma same_order_ordered c c' :
  same_order c c' → check_list_ordered c → check_list_ordered c'.
Proof.
  unfold check_list_ordered. intros (Hl & Hr & Hk) H.
  rewrite Hl. erewrite list_fmap_ext; [exact H|].
  intros i r _. by apply ref_priority_ext.
Qed.

(** An update of a pair that keeps its protocol and remote candidate. *)
Lemma update_pair_same_order r f c :
  (∀ pr, pair_candidates (f pr) = pair_candidates pr) →
  same_order c (update_pair r f c).
Proof.
  intros Hf. split; [done|]. split; [done|]. intros r'. simpl.
  destruct (decide (r = r')) as [->|Hne].
  - rewrite list_lookup_alter_eq. destruct (pairs c !! r'); [|done].
    simpl. by rewrite Hf.
  - by rewrite list_lookup_alter_ne.
Qed.

Lemma check_state_same_order r s c : same_order c (check_state r s c).
Proof. by apply update_pair_same_order. Qed.

Lemma check_start_task_same_order r c : same_order c (check_start_task r c).
Proof.
  unfold check_start_task.
  destruct (task <$> pairs c !! r) as [[]|]; try apply same_order_refl.
  apply (same_order_trans _ (update_pair r (set_task (Some (length (spawned c)))) c)).
  - by apply update_pair_same_order.
  - by repeat split.
Qed.

Lemma fail_component_loop_same_order comp l c :
  same_order c (foldl (fail_component_step comp) c l).
Proof.
  revert c. induction l as [|p l IH]; intros c; simpl;
    [apply same_order_refl|].
  eapply same_order_trans; [|apply IH].
  unfold fail_component_step.
  destruct (_ && _); [apply check_state_same_order | apply same_order_refl].
Qed.

Lemma unfreeze_foundation_loop_same_order f l c :
  same_order c (foldl (unfreeze_foundation_step f) c l).
Proof.
  revert c. induction l as [|p l IH]; intros c; simpl;
    [apply same_order_refl|].
  eapply same_order_trans; [|apply IH].
  unfold unfreeze_foundation_step.
  destruct (_ && _); [apply check_state_same_order | apply same_order_refl].
Qed.

Lemma check_complete_failed_same_order c :
  same_order c (check_complete_failed c).
Proof.
  destruct (check_complete_failed_fields c) as (d & q & ->).
  by repeat split.
Qed.

Lemma check_complete_same_order r c : same_order c (check_complete r c).
Proof.
  unfold check_complete.
  apply (same_order_trans _ (update_pair r (set_task None) c));
    [by apply update_pair_same_order|].
  generalize (update_pair r (set_task None) c). clear c. intros c.
  destruct (pairs c !! r) as [pr|]; [|apply same_order_refl].
  destruct (bool_decide (state pr = SUCCEEDED));
    [|apply check_complete_failed_same_order].
  cbv zeta.
  set (c1 := if nominated pr then _ else c).
  assert (H1 : same_order c c1).
  { unfold c1. destruct (nominated pr); [|apply same_order_refl].
    eapply same_order_trans; [|apply fail_component_loop_same_order].
    by repeat split. }
  clearbody c1.
  destruct (_ =? _)%nat.
  - destruct (_check_list_done c1); [done|].
    eapply same_order_trans; [exact H1|]. by repeat split.
  - eapply same_order_trans; [exact H1|].
    eapply same_order_trans; [|apply check_complete_failed_same_order].
    apply unfreeze_foundation_loop_same_order.
Qed.

(** [sort_check_list] orders the check list, whatever it was. *)
Lemma sort_check_list_ordered c : check_list_ordered (sort_check_list c).
Proof.
  unfold check_list_ordered. apply descending_consecutive.
  intros i a b. rewrite !list_lookup_fmap. simpl.
  unfold sort_candidate_pairs.
  destruct (py_sorted _ _ !! i) as [r1|] eqn:H1; [|done].
  destruct (py_sorted _ _ !! S i) as [r2|] eqn:H2; [|done].
  simpl. intros [= <-] [= <-].
  pose proof (py_sorted_consecutive _ _ _ _ _ H1 H2) as Hle.
  unfold ref_priority. simpl. lia.
Qed.

Lemma switch_role_ordered b c : check_list_ordered (switch_role b c).
Proof. apply sort_check_list_ordered. Qed.

Section CheckListOrder.

Variable can_pair_with : Candidate → Candidate → bool.
Variable candidate_eq : Candidate → Candidate → bool.
Variable is_mdns_hostname : string → bool.
Variable mdns_resolve : string → option string.
Variable ip_address_ok : string → bool.

(** The check list is ordered after [add_remote_candidate], whether it
    added pairs, which it sorts, or not. *)
Lemma add_remote_candidate_ordered depth rc c :
  check_list_ordered c →
  check_list_ordered
    (add_remote_candidate can_pair_with candidate_eq is_mdns_hostname
       mdns_resolve ip_address_ok depth rc c).2.
Proof.
  revert rc c. induction depth as [|depth IH]; intros rc c Hc; simpl;
    (destruct (_remote_candidates_end c); [done|]);
    (destruct rc as [rc|];
       [|apply (same_order_ordered c); [|done];
         unfold _prune_components; destruct (bool_decide _);
         by repeat split]);
    (destruct (is_mdns_hostname (host rc));
       [|destruct (validate_remote_candidate ip_address_ok rc) as [?|[]];
         simpl; try done; apply sort_check_list_ordered]);
    (destruct (mdns_resolve (host rc)) as [remote_addr|]; simpl; try done).
  apply IH. apply (same_order_ordered c); [by repeat split | done].
Qed.

(** The check list is ordered once [connect] has formed the pairs. *)
Lemma connect_form_pairs_ordered c :
  check_list_ordered (connect_form_pairs can_pair_with candidate_eq c).
Proof. apply sort_check_list_ordered. Qed.

(** The check list stays ordered through [check_incoming], which sorts
    it when it adds a pair. *)
Lemma check_incoming_pair_ordered message protocol0 rc c :
  check_list_ordered c →
  check_list_ordered (check_incoming_pair candidate_eq message protocol0 rc c).
Proof.
  intros Hc. unfold check_incoming_pair.
  set (found := match _find_pair candidate_eq protocol0 rc c with
                | Some r => _ | None => _ end).
  assert (Hfound : check_list_ordered found.2).
  { unfold found. destruct (_find_pair _ _ _ _); simpl;
      [done | apply sort_check_list_ordered]. }
  destruct found as [r c0]. simpl in Hfound. cbv zeta.
  set (c1 := if _ || _ then check_start_task r c0 else c0).
  assert (H1 : check_list_ordered c1).
  { unfold c1. destruct (_ || _); [|done].
    eapply same_order_ordered; [apply check_start_task_same_order | done]. }
  clearbody c1.
  destruct (_ && _); [|done].
  destruct (pair_has_state _ _ _).
  - eapply same_order_ordered; [|exact H1].
    eapply same_order_trans; [|apply check_complete_same_order].
    eapply same_order_trans; by apply update_pair_same_order.
  - eapply same_order_ordered; [|exact H1]. by apply update_pair_same_order.
Qed.

Lemma check_incoming_ordered message addr protocol0 rnd c :
  check_list_ordered c →
  check_list_ordered
    (check_incoming candidate_eq message addr protocol0 rnd c).2.
Proof.
  intros Hc. unfold check_incoming.
  destruct (find _ _) as [rc|].
  - destruct (bool_decide _); [|done]. by apply check_incoming_pair_ordered.
  - destruct (PRIORITY _); [|done]. simpl.
    apply check_incoming_pair_ordered.
    apply (same_order_ordered c); [by repeat split | done].
Qed.

End CheckListOrder.

(** The part of C3 that holds.  On an ordered check list, consecutive
    pairs have descending priorities by the formula of the specification
    when the agent is controlled, and when it is controlling provided no
    candidate of a pair of the check list has the priority 0. *)
Lemma check_list_ordered_formula c :
  check_list_ordered c →
  (ice_controlling c = true →
   ∀ r pr, r ∈ _check_list c → pairs c !! r = Some pr →
     priority (pair_local_candidate pr) ≠ 0
     ∧ priority (remote_candidate pr) ≠ 0) →
  ∀ (i : nat) r1 r2,
    _check_list c !! i = Some r1 → _check_list c !! S i = Some r2 →
    spec_ref_priority c r2 ≤ spec_ref_priority c r1.
Proof.
  intros Hord Hnz i r1 r2 H1 H2.
  assert (Heq : ∀ r, r ∈ _check_list c →
                     spec_ref_priority c r = ref_priority c r).
  { intros r Hr. unfold spec_ref_priority, ref_priority, pair_priority.
    destruct (pairs c !! r) as [pr|] eqn:Hpr; [|done].
    rewrite candidate_pair_priority_formula; [lia|].
    intros Hrole. by apply (Hnz Hrole r). }
  rewrite !Heq by (eapply list_elem_of_lookup_2; eassumption).
  apply (proj1 (descending_consecutive _) Hord i);
    by rewrite list_lookup_fmap, ?H1, ?H2.
Qed.

(** C3 (the code breaks the invariant): a controlling agent is given a
    remote candidate of priority 1, then one of priority 0.  After the
    second [add_remote_candidate] the pair with the candidate of priority
    0 stands first in the check list, though by the formula its priority
    is [2 * 2130706431 + 1] and that of the pair behind it is
    [2^32 + 2 * 2130706431 + 1]. *)
Theorem check_list_order_zero_priority :
  ice_controlling zero_priority_example = true
  ∧ _check_list zero_priority_example = [1; 0]%nat
  ∧ spec_ref_priority zero_priority_example 1 = 4261412863
  ∧ spec_ref_priority zero_priority_example 0 = 8556380159
  ∧ ¬ ∀ (i : nat) r1 r2,
        _check_list zero_priority_example !! i = Some r1 →
        _check_list zero_priority_example !! S i = Some r2 →
        spec_ref_priority zero_priority_example r2
        ≤ spec_ref_priority zero_priority_example r1.
Proof.
  assert (Hl : _check_list zero_priority_example = [1; 0]%nat)
    by (vm_compute; reflexivity).
  assert (H1 : spec_ref_priority zero_priority_example 1 = 4261412863)
    by (vm_compute; reflexivity).
  assert (H0 : spec_ref_priority zero_priority_example 0 = 8556380159)
    by (vm_compute; reflexivity).
  split; [vm_compute; reflexivity|]. split; [exact Hl|].
  split; [exact H1|]. split; [exact H0|].
  intros H. specialize (H 0%nat 1%nat 0%nat). rewrite Hl, H1, H0 in H.
  specialize (H eq_refl eq_refl). lia.
Qed.

(** On an ordered check list the priority by which it is sorted is the
    one of the formula, for a controlled agent, and for a controlling
    agent provided no candidate of a pair of the check list has the
    priority 0. *)
Lemma spec_ref_priority_sort_key c r :
  (ice_controlling c = true →
   ∀ r pr, r ∈ _check_list c → pairs c !! r = Some pr →
     priority (pair_local_candidate pr) ≠ 0
     ∧ priority (remote_candidate pr) ≠ 0) →
  r ∈ _check_list c →
  spec_ref_priority c r = ref_priority c r.
Proof.
  intros Hnz Hr. unfold spec_ref_priority, ref_priority, pair_priority.
  destruct (pairs c !! r) as [pr|] eqn:Hpr; [|done].
  rewrite candidate_pair_priority_formula; [lia|].
  intros Hrole. by apply (Hnz Hrole r).
Qed.

(** The part of C6 that holds, by the formula of the specification: on
    an ordered check list of a controlled agent, or of a controlling
    agent when no candidate of a pair of the check list has the priority
    0, the pair that [check_periodic] schedules, the first Waiting one
    or else the first Frozen one, has the highest priority of its state
    by the formula. *)
Lemma check_periodic_decision_formula c s r :
  check_list_ordered c →
  (ice_controlling c = true →
   ∀ r pr, r ∈ _check_list c → pairs c !! r = Some pr →
     priority (pair_local_candidate pr) ≠ 0
     ∧ priority (remote_candidate pr) ≠ 0) →
  first_in_state c s r → spec_highest_priority_in_state c s r.
Proof.
  intros Hord Hnz Hfirst r' Hr' Hs'.
  assert (Hr : r ∈ _check_list c).
  { destruct Hfirst as (i & Hi & _). by eapply list_elem_of_lookup_2. }
  rewrite !spec_ref_priority_sort_key by done.
  by apply (first_in_state_highest c s r Hord Hfirst).
Qed.

(** C6 (the code breaks the claim and its own comments, "find the
    highest-priority pair that is in the waiting state" and the same for
    the frozen state): a controlling agent is given a remote candidate
    of priority 1, then one of priority 0.  Both pairs are Frozen and
    the check list is the one that the sort gives.  [check_periodic]
    returns true and schedules the pair with the candidate of priority
    0, which by the formula has the priority [2 * 2130706431 + 1], while
    the other Frozen pair has [2^32 + 2 * 2130706431 + 1].  After
    [_unfreeze_initial] both pairs are Waiting and [check_periodic]
    schedules the same pair, which is not the Waiting pair of highest
    priority either. *)
Theorem check_periodic_zero_priority :
  check_list_ordered zero_priority_example
  ∧ (∀ r, r ∈ _check_list zero_priority_example →
          pair_has_state zero_priority_example WAITING r = false)
  ∧ pair_has_state zero_priority_example FROZEN 0 = true
  ∧ pair_has_state zero_priority_example FROZEN 1 = true
  ∧ check_periodic zero_priority_example
    = (true, check_start_task 1 zero_priority_example)
  ∧ spawned (check_periodic zero_priority_example).2 = [1%nat]
  ∧ spec_ref_priority zero_priority_example 1
    < spec_ref_priority zero_priority_example 0
  ∧ ¬ spec_highest_priority_in_state zero_priority_example FROZEN 1
  ∧ (_unfreeze_initial zero_priority_example).1 = Ok tt
  ∧ pair_has_state (_unfreeze_initial zero_priority_example).2 WAITING 0
    = true
  ∧ pair_has_state (_unfreeze_initial zero_priority_example).2 WAITING 1
    = true
  ∧ check_periodic (_unfreeze_initial zero_priority_example).2
    = (true, check_start_task 1 (_unfreeze_initial zero_priority_example).2)
  ∧ spawned (check_periodic (_unfreeze_initial zero_priority_example).2).2
    = [1%nat]
  ∧ ¬ spec_highest_priority_in_state
        (_unfreeze_initial zero_priority_example).2 WAITING 1.
Proof.
  assert (Hl : _check_list zero_priority_example = [1; 0]%nat)
    by (vm_compute; reflexivity).
  assert (H1 : spec_ref_priority zero_priority_example 1 = 4261412863)
    by (vm_compute; reflexivity).
  assert (H0 : spec_ref_priority zero_priority_example 0 = 8556380159)
    by (vm_compute; reflexivity).
  assert (Hl' : _check_list (_unfreeze_initial zero_priority_example).2
                = [1; 0]%nat)
    by (vm_compute; reflexivity).
  assert (H1' : spec_ref_priority
                  (_unfreeze_initial zero_priority_example).2 1
                = 4261412863)
    by (vm_compute; reflexivity).
  assert (H0' : spec_ref_priority
                  (_unfreeze_initial zero_priority_example).2 0
                = 8556380159)
    by (vm_compute; reflexivity).
  split; [vm_compute; reflexivity|].
  split.
  { intros r Hr. rewrite Hl in Hr.
    apply elem_of_cons in Hr as [->|Hr]; [vm_compute; reflexivity|].
    apply list_elem_of_singleton in Hr as ->. vm_compute; reflexivity. }
  split; [vm_compute; reflexivity|]. split; [vm_compute; reflexivity|].
  split; [vm_compute; reflexivity|]. split; [vm_compute; reflexivity|].
  split; [rewrite H1, H0; lia|].
  split.
  { intros H. specialize (H 0%nat). rewrite Hl, H1, H0 in H.
    assert (8556380159 ≤ 4261412863); [|lia].
    apply H; [by right; left|vm_compute; reflexivity]. }
  split; [vm_compute; reflexivity|]. split; [vm_compute; reflexivity|].
  split; [vm_compute; reflexivity|]. split; [vm_compute; reflexivity|].
  split; [vm_compute; reflexivity|].
  intros H. specialize (H 0%nat). rewrite Hl', H1', H0' in H.
  assert (8556380159 ≤ 4261412863); [|lia].
  apply H; [by right; left|vm_compute; reflexivity].
Qed.

(** * Further properties of the code *)

(** ** Pair priorities *)

(** [candidate_pair_priority] on priorities below [2^31], the range of
    RFC 5245, is below [2^63]: it fits a signed 64-bit integer. *)
Theorem candidate_pair_priority_bounds local remote b :
  0 ≤ priority local < 2 ^ 31 → 0 ≤ priority remote < 2 ^ 31 →
  0 ≤ candidate_pair_priority local remote b < 2 ^ 63.
Proof.
  intros Hl Hr. unfold candidate_pair_priority, py_and_or.
  change (Z.shiftl 1 32) with (2 ^ 32).
  destruct b, (Z.eqb_spec (priority local) 0),
    (Z.eqb_spec (priority remote) 0);
    repeat match goal with
           | |- context [if ?x >? ?y then _ else _] =>
               destruct (Z.gtb_spec x y)
           end;
    simpl; lia.
Qed.

Lemma candidate_pair_priority_bounds_witness :
  0 ≤ priority example_remote_1 < 2 ^ 31
  ∧ 0 ≤ priority example_remote_2 < 2 ^ 31
  ∧ 0 ≤ candidate_pair_priority example_remote_1 example_remote_2 true
    < 2 ^ 63.
Proof.
  split; [simpl; lia|]. split; [simpl; lia|].
  apply (candidate_pair_priority_bounds example_remote_1 example_remote_2 true);
    simpl; lia.
Defined.

(** Two pairs have the same priority only if they have the same local
    priority and the same remote priority, for priorities from 1 to
    [2^31 - 1]: the pair priority orders the check list without ties
    between pairs of different candidate priorities. *)
Theorem candidate_pair_priority_injective local remote local' remote' b :
  0 < priority local < 2 ^ 31 → 0 < priority remote < 2 ^ 31 →
  0 < priority local' < 2 ^ 31 → 0 < priority remote' < 2 ^ 31 →
  candidate_pair_priority local remote b
  = candidate_pair_priority local' remote' b →
  priority local = priority local' ∧ priority remote = priority remote'.
Proof.
  intros Hl Hr Hl' Hr'.
  rewrite !candidate_pair_priority_formula by (intros _; split; lia).
  unfold spec_pair_priority.
  destruct b;
    repeat match goal with
           | |- context [if ?x >? ?y then _ else _] =>
               destruct (Z.gtb_spec x y)
           end;
    lia.
Qed.

Lemma candidate_pair_priority_injective_witness :
  0 < priority example_remote_1 < 2 ^ 31
  ∧ 0 < priority example_remote_2 < 2 ^ 31
  ∧ 0 < priority example_remote_1 < 2 ^ 31
  ∧ 0 < priority example_remote_2 < 2 ^ 31
  ∧ candidate_pair_priority example_remote_1 example_remote_2 true
    = candidate_pair_priority example_remote_1 example_remote_2 true
  ∧ priority example_remote_1 = priority example_remote_1
  ∧ priority example_remote_2 = priority example_remote_2.
Proof.
  do 4 (split; [simpl; lia|]). split; [reflexivity|].
  apply (candidate_pair_priority_injective example_remote_1 example_remote_2
           example_remote_1 example_remote_2 true);
    (simpl; lia) || reflexivity.
Defined.

(** With non-zero priorities the two agents of a session compute the
    same priority for a pair: the controlling one from its local and
    remote candidates, the controlled one from the same two candidates,
    which it sees as remote and local. *)
Theorem candidate_pair_priority_agreed local remote :
  priority local ≠ 0 → priority remote ≠ 0 →
  candidate_pair_priority local remote true
  = candidate_pair_priority remote local false
  ∧ candidate_pair_priority local remote true
    = spec_pair_priority local remote true.
Proof.
  intros Hl Hr. split.
  - by apply candidate_pair_priority_swap_nonzero.
  - by apply candidate_pair_priority_formula.
Qed.

Lemma candidate_pair_priority_agreed_witness :
  priority example_remote_1 ≠ 0 ∧ priority example_remote_2 ≠ 0
  ∧ candidate_pair_priority example_remote_1 example_remote_2 true
    = candidate_pair_priority example_remote_2 example_remote_1 false
  ∧ candidate_pair_priority example_remote_1 example_remote_2 true
    = spec_pair_priority example_remote_1 example_remote_2 true.
Proof.
  split; [done|]. split; [done|].
  apply (candidate_pair_priority_agreed example_remote_1 example_remote_2);
    done.
Defined.

(** ** Sorting the check list *)

(** [sort_check_list] permutes the check list, leaves it ordered, and
    touches nothing else; sorting again changes nothing. *)
Theorem sort_check_list_permutes c :
  Permutation (_check_list (sort_check_list c)) (_check_list c)
  ∧ check_list_ordered (sort_check_list c)
  ∧ sort_check_list c = set_check_list (_check_list (sort_check_list c)) c
  ∧ sort_check_list (sort_check_list c) = sort_check_list c.
Proof.
  split; [apply py_sorted_perm|].
  split; [apply sort_check_list_ordered|].
  split; [done|].
  unfold sort_check_list, sort_candidate_pairs. simpl.
  by rewrite (py_sorted_id _ (py_sorted _ _)) by apply py_sorted_sorted.
Qed.

(** [switch_role] sets the role and leaves the same pairs in the check
    list, ordered for the new role, and the store of pairs as it was;
    switching again to the same role changes nothing. *)
Theorem switch_role_resorts b c :
  ice_controlling (switch_role b c) = b
  ∧ Permutation (_check_list (switch_role b c)) (_check_list c)
  ∧ check_list_ordered (switch_role b c)
  ∧ pairs (switch_role b c) = pairs c
  ∧ switch_role b (switch_role b c) = switch_role b c.
Proof.
  split; [done|]. split; [apply py_sorted_perm|].
  split; [apply sort_check_list_ordered|]. split; [done|].
  unfold switch_role, sort_check_list, sort_candidate_pairs. simpl.
  by rewrite (py_sorted_id _ (py_sorted _ _)) by apply py_sorted_sorted.
Qed.

(** The check list in order: [add_remote_candidate] at [unfreeze_example]. *)
Lemma add_remote_candidate_ordered_witness :
  check_list_ordered unfreeze_example
  ∧ check_list_ordered
      (add_remote_candidate example_can_pair_with example_candidate_eq
         example_is_mdns_hostname example_mdns_resolve example_ip_address_ok
         1000 (Some example_remote_low) unfreeze_example).2.
Proof.
  split; [reflexivity|].
  apply (add_remote_candidate_ordered example_can_pair_with
           example_candidate_eq example_is_mdns_hostname example_mdns_resolve
           example_ip_address_ok 1000 (Some example_remote_low)
           unfreeze_example).
  reflexivity.
Defined.

(** The check list in order: [check_incoming] at [unfreeze_example]. *)
Lemma check_incoming_ordered_witness :
  check_list_ordered unfreeze_example
  ∧ check_list_ordered
      (check_incoming example_candidate_eq example_request_2
         ("203.0.113.9"%string, 40000) example_protocol "qzjxkvwbnm"
         unfreeze_example).2.
Proof.
  split; [reflexivity|].
  apply (check_incoming_ordered example_candidate_eq example_request_2
           ("203.0.113.9"%string, 40000) example_protocol "qzjxkvwbnm"
           unfreeze_example).
  reflexivity.
Defined.

(** ** What [check_complete] posts *)

Lemma check_complete_failed_cases c :
  check_complete_failed c = c
  ∨ (_check_list_done c = false
     ∧ forallb
         (λ p, pair_has_state c SUCCEEDED p || pair_has_state c FAILED p)
         (_check_list c) = true
     ∧ (ice_controlling c = true
        ∨ existsb (pair_has_state c SUCCEEDED) (_check_list c) = false)
     ∧ check_complete_failed c
       = set_check_list_done true (put_check_list_state ICE_FAILED c)).
Proof.
  unfold check_complete_failed.
  destruct (forallb _ _) eqn:Hall; [|by left].
  destruct (ice_controlling c) eqn:Hrole; simpl.
  - destruct (_check_list_done c) eqn:Hd; [by left|].
    right. repeat split; auto.
  - destruct (existsb _ _) eqn:Hex; [by left|].
    destruct (_check_list_done c) eqn:Hd; [by left|].
    right. repeat split; auto.
Qed.

(** One call of [check_complete] posts at most one result to the
    check-list queue, and none once the check list is done, which it
    stays.  [ICE_COMPLETED] is posted only for a Succeeded pair, when the
    nominated map has as many entries as there are components;
    [ICE_FAILED] only when every pair of the check list is Succeeded or
    Failed and, for a controlled agent, none is Succeeded. *)
Theorem check_complete_posts_once r c :
  (_check_list_state (check_complete r c) = _check_list_state c
   ∧ _check_list_done (check_complete r c) = _check_list_done c)
  ∨ (_check_list_done c = false
     ∧ _check_list_done (check_complete r c) = true
     ∧ _check_list_state (check_complete r c)
       = _check_list_state c ++ [ICE_COMPLETED]
     ∧ state <$> pairs c !! r = Some SUCCEEDED
     ∧ size (_nominated (check_complete r c)) = size (_components c))
  ∨ (_check_list_done c = false
     ∧ _check_list_done (check_complete r c) = true
     ∧ _check_list_state (check_complete r c)
       = _check_list_state c ++ [ICE_FAILED]
     ∧ (∀ p, p ∈ _check_list c →
          pair_has_state (check_complete r c) SUCCEEDED p = true
          ∨ pair_has_state (check_complete r c) FAILED p = true)
     ∧ (ice_controlling c = true
        ∨ ∀ p, p ∈ _check_list c →
            pair_has_state (check_complete r c) SUCCEEDED p = false)).
Proof.
  assert (Hfailed : ∀ d,
    _check_list d = _check_list c → ice_controlling d = ice_controlling c →
    _check_list_done d = _check_list_done c →
    _check_list_state d = _check_list_state c →
    (_check_list_state (check_complete_failed d) = _check_list_state c
     ∧ _check_list_done (check_complete_failed d) = _check_list_done c)
    ∨ (_check_list_done c = false
       ∧ _check_list_done (check_complete_failed d) = true
       ∧ _check_list_state (check_complete_failed d)
         = _check_list_state c ++ [ICE_FAILED]
       ∧ (∀ p, p ∈ _check_list c →
            pair_has_state (check_complete_failed d) SUCCEEDED p = true
            ∨ pair_has_state (check_complete_failed d) FAILED p = true)
       ∧ (ice_controlling c = true
          ∨ ∀ p, p ∈ _check_list c →
              pair_has_state (check_complete_failed d) SUCCEEDED p = false))).
  { intros d Hl Hr Hd Hq.
    destruct (check_complete_failed_cases d)
      as [->|(Hdone & Hall & Hrole & ->)]; [by left|].
    right. rewrite <- Hd, <- Hq, <- Hl, <- Hr.
    split; [done|]. split; [done|]. split; [done|]. split.
    - intros p Hp. rewrite forallb_forall in Hall.
      apply list_elem_of_In, Hall, orb_prop in Hp. exact Hp.
    - destruct Hrole as [?|Hex]; [by left|]. right. intros p Hp.
      destruct (pair_has_state _ SUCCEEDED p) eqn:Hs; [|done].
      assert (existsb (pair_has_state d SUCCEEDED) (_check_list d) = true)
        as Hex'; [|congruence].
      apply existsb_exists. exists p. split; [by apply list_elem_of_In|].
      exact Hs. }
  unfold check_complete.
  set (c0 := update_pair r (set_task None) c).
  destruct (pairs c0 !! r) as [pr|] eqn:Hr; [|by left].
  assert (Hst : state <$> pairs c !! r = Some (state pr)).
  { unfold c0 in Hr. simpl in Hr. rewrite list_lookup_alter_eq in Hr.
    destruct (pairs c !! r) as [pr0|]; [|done].
    injection Hr as <-. done. }
  destruct (bool_decide (state pr = SUCCEEDED)) eqn:Hsucc.
  2:{ destruct (Hfailed c0) as [H|H]; try done; [by left | by right; right]. }
  apply bool_decide_eq_true in Hsucc. cbv zeta.
  set (c1 := if nominated pr then _ else c0).
  assert (H1 : ∃ ps n, c1 = set_pairs ps (set_nominated n c0)).
  { unfold c1. destruct (nominated pr).
    - match goal with
      | |- context [foldl (fail_component_step ?k) ?d ?l] =>
          destruct (fail_component_loop_fields k l d) as [ps ->]
      end.
      by eexists _, _.
    - by exists (pairs c0), (_nominated c0). }
  destruct H1 as (ps & n & H1). clearbody c1. subst c1. simpl.
  destruct (Nat.eqb_spec (size n) (size (_components c))) as [Hsize|Hsize].
  - destruct (_check_list_done c) eqn:Hd; [by left|].
    right; left. simpl. rewrite Hst, Hsucc. by repeat split.
  - match goal with
    | |- context [foldl (unfreeze_foundation_step ?f) ?d ?l] =>
        destruct (unfreeze_foundation_loop_fields f l d) as [ps' ->]
    end.
    destruct (Hfailed (set_pairs ps' (set_pairs ps (set_nominated n c0))))
      as [H|H]; try done; [by left | by right; right].
Qed.

(** [check_complete] at [completed_example], on its first pair. *)
Lemma check_complete_nominated_pair_witness :
  pairs completed_example !! 0%nat = Some (set_state SUCCEEDED (set_pair_nominated true (new_pair example_protocol example_remote_1)))
  ∧ state (set_state SUCCEEDED (set_pair_nominated true (new_pair example_protocol example_remote_1))) = SUCCEEDED
  ∧ nominated (set_state SUCCEEDED (set_pair_nominated true (new_pair example_protocol example_remote_1))) = true
  ∧ (_nominated (check_complete 0%nat completed_example)
  = <[pair_component (set_state SUCCEEDED (set_pair_nominated true (new_pair example_protocol example_remote_1))) := 0%nat]> (_nominated completed_example)
  ∧ (∀ q pq, q ∈ _check_list completed_example → q ≠ 0%nat → pairs completed_example !! q = Some pq →
       pair_component pq = pair_component (set_state SUCCEEDED (set_pair_nominated true (new_pair example_protocol example_remote_1))) →
       state pq = WAITING ∨ state pq = FROZEN →
       state <$> pairs (check_complete 0%nat completed_example) !! q = Some FAILED)
  ∧ (size (<[pair_component (set_state SUCCEEDED (set_pair_nominated true (new_pair example_protocol example_remote_1))) := 0%nat]> (_nominated completed_example)) = size (_components completed_example) →
     _check_list_done completed_example = false →
     _check_list_state (check_complete 0%nat completed_example)
     = _check_list_state completed_example ++ [ICE_COMPLETED]
     ∧ _check_list_done (check_complete 0%nat completed_example) = true)).
Proof.
  split; [reflexivity|]. split; [reflexivity|]. split; [reflexivity|].
  apply (check_complete_nominated_pair completed_example 0%nat
           (set_state SUCCEEDED (set_pair_nominated true (new_pair example_protocol example_remote_1))));
    reflexivity.
Defined.

(** [_unfreeze_initial] at the check list of two Frozen pairs. *)
Lemma unfreeze_initial_first_pair_witness :
  py_min (_components unfreeze_example) = Some 1
  ∧ find (λ p, bool_decide (pair_component <$> pairs unfreeze_example !! p = Some 1))
       (_check_list unfreeze_example) = Some 0%nat
  ∧ pairs unfreeze_example !! 0%nat = Some (new_pair example_protocol example_remote_1)
  ∧ state (new_pair example_protocol example_remote_1) = FROZEN
  ∧ ((_unfreeze_initial unfreeze_example).1 = Ok tt
  ∧ state <$> pairs (_unfreeze_initial unfreeze_example).2 !! 0%nat = Some WAITING).
Proof.
  split; [reflexivity|]. split; [reflexivity|]. split; [reflexivity|].
  split; [reflexivity|].
  apply (unfreeze_initial_first_pair unfreeze_example 1 0%nat
           (new_pair example_protocol example_remote_1));
    reflexivity.
Defined.

(** ** [_unfreeze_initial]: edges, and what it may change *)

Lemma py_min_empty : py_min ∅ = None.
Proof. unfold py_min. by rewrite elements_empty. Qed.

(** [_unfreeze_initial] on an empty check list returns at once; on a check
    list that is not empty, with no component left, [min] raises
    [ValueError] and nothing has changed. *)
Theorem unfreeze_initial_edges c :
  (_check_list c = [] → _unfreeze_initial c = (Ok tt, c))
  ∧ (_check_list c ≠ [] → _components c = ∅ →
     ∃ msg, _unfreeze_initial c = (Raise (ValueError msg), c)).
Proof.
  unfold _unfreeze_initial. split.
  - by intros ->.
  - intros Hne ->. destruct (_check_list c); [done|].
    rewrite py_min_empty. by eexists.
Qed.

Lemma unfrozen_from_refl comp c : unfrozen_from comp c c.
Proof. split; [done|]. by left. Qed.

Lemma unfrozen_from_trans comp c1 c2 c3 :
  unfrozen_from comp c1 c2 → unfrozen_from comp c2 c3 →
  unfrozen_from comp c1 c3.
Proof.
  intros [H12 L12] [H23 L23]. split.
  - rewrite H23 at 1. rewrite H12 at 1. reflexivity.
  - intros r. destruct (L23 r) as [->|(pr & Hpr & Hst & Hc & Hpr')].
    + apply L12.
    + destruct (L12 r) as [<-|(pr0 & Hpr0 & Hst0 & Hc0 & Hpr0')].
      * right. by exists pr.
      * rewrite Hpr0' in Hpr. injection Hpr as <-. done.
Qed.

Lemma check_state_unfrozen c r pr :
  pairs c !! r = Some pr → state pr = FROZEN →
  unfrozen_from (pair_component pr) c (check_state r WAITING c).
Proof.
  intros Hr Hst. split; [done|]. intros r'. simpl.
  destruct (decide (r = r')) as [<-|Hne].
  - right. exists pr. rewrite list_lookup_alter_eq, Hr. done.
  - left. by rewrite list_lookup_alter_ne.
Qed.

Lemma unfreeze_initial_loop_unfrozen first_pair l acc :
  unfrozen_from (pair_component first_pair) acc.1
    (foldl (unfreeze_initial_step first_pair) acc l).1.
Proof.
  revert acc. induction l as [|p l IH]; intros acc; simpl;
    [apply unfrozen_from_refl|].
  eapply unfrozen_from_trans; [|apply IH].
  unfold unfreeze_initial_step.
  destruct (pairs acc.1 !! p) as [pr|] eqn:Hp; [|apply unfrozen_from_refl].
  destruct (_ && _) eqn:Hc; [|apply unfrozen_from_refl].
  apply andb_prop in Hc as [[Hcomp%bool_decide_eq_true _]%andb_prop
                              Hst%bool_decide_eq_true].
  simpl. rewrite <- Hcomp. by apply check_state_unfrozen.
Qed.

(** [_unfreeze_initial] changes nothing but the state of pairs of the
    lowest-numbered component, from Frozen to Waiting: no pair of another
    component is touched, no pair is frozen or failed, and the check list
    and the nominated pairs are as they were. *)
Theorem unfreeze_initial_only_unfreezes c :
  (_unfreeze_initial c).2 = c
  ∨ ∃ lowest, py_min (_components c) = Some lowest
              ∧ unfrozen_from lowest c (_unfreeze_initial c).2.
Proof.
  unfold _unfreeze_initial.
  destruct (_check_list c) as [|x l] eqn:Hl; [by left|].
  destruct (py_min (_components c)) as [lowest|]; [|by left].
  destruct (find _ _) as [r|] eqn:Hfind; [|by left].
  destruct (pairs c !! r) as [first_pair|] eqn:Hr; [|by left].
  right. exists lowest. split; [done|]. simpl.
  apply find_some in Hfind as [_ Hcomp%bool_decide_eq_true].
  rewrite Hr in Hcomp. injection Hcomp as Hcomp. rewrite <- Hcomp.
  set (c1 := if bool_decide (state first_pair = FROZEN) then _ else c).
  assert (H1 : unfrozen_from (pair_component first_pair) c c1).
  { unfold c1. case_bool_decide; [|apply unfrozen_from_refl].
    by apply check_state_unfrozen. }
  eapply unfrozen_from_trans; [exact H1|].
  apply (unfreeze_initial_loop_unfrozen first_pair _ (c1, _)).
Qed.

(** ** The credentials that are accepted *)

(** [validate_username] accepts exactly 4 to 256 ice-chars, followed by
    nothing or by one newline, and [validate_password] exactly 22 to 256
    of them, followed by nothing or by one newline; they raise
    [ValueError] on every other string. *)
Theorem validate_credentials_accept s :
  (validate_username s = Ok tt ↔
   ∃ w, ice_string w = true ∧ (4 ≤ String.length w ≤ 256)%nat
        ∧ (s = w ∨ s = w +:+ newline))
  ∧ (validate_password s = Ok tt ↔
     ∃ w, ice_string w = true ∧ (22 ≤ String.length w ≤ 256)%nat
          ∧ (s = w ∨ s = w +:+ newline))
  ∧ (validate_username s = Ok tt ∨ ∃ msg, validate_username s = Raise (ValueError msg))
  ∧ (validate_password s = Ok tt ∨ ∃ msg, validate_password s = Raise (ValueError msg)).
Proof.
  unfold validate_username, validate_password.
  rewrite <- !re_ice_chars_accepts.
  destruct (re_ice_chars 4 256 s), (re_ice_chars 22 256 s); simpl;
    repeat split; try done; eauto.
Qed.

(** ** What [close] releases *)

Lemma protocols_close_effect l c :
  ∃ n : nat,
    (n ≤ length l)%nat
    ∧ ((∃ p, p ∈ l ∧ pid p ∉ lost c) → (1 ≤ n)%nat)
    ∧ foldl protocol_close c l
      = set_lost (lost c ∪ list_to_set (pid <$> l))
          (set_queue (_queue c ++ replicate n (None, None)) c).
Proof.
  revert c. induction l as [|p l IH]; intros c.
  - exists 0%nat. split; [done|]. split.
    + intros (p & Hp & _). by apply elem_of_nil in Hp.
    + simpl. rewrite app_nil_r.
      replace (lost c ∪ ∅) with (lost c) by set_solver. done.
  - simpl. destruct (IH (protocol_close c p)) as (n & Hn & Hex & ->).
    unfold protocol_close in *. case_bool_decide as Hin.
    + exists n. split; [simpl; lia|]. split.
      * intros (p0 & [->|Hp0]%elem_of_cons & Hlost); [done|].
        apply Hex. by exists p0.
      * f_equal. set_solver.
    + exists (S n). split; [simpl; lia|]. split; [intros _; lia|].
      transitivity
        (set_lost (lost c ∪ {[pid p]} ∪ list_to_set (pid <$> l))
           (set_queue (_queue c ++ (None, None) :: replicate n (None, None))
              c)).
      * simpl. by rewrite <- app_assoc.
      * simpl. f_equal. set_solver.
Qed.

(** The protocols that [close] finds open: those of the list whose
    connection is not lost.  Each one posts its [(None, None)] when it is
    closed, and a protocol that stands twice in the list posts once. *)
Lemma open_protocols_cons (x : nat) (X lo : gset nat) :
  size (({[ x ]} ∪ X) ∖ lo)
  = if bool_decide (x ∈ lo) then size (X ∖ lo)
    else S (size (X ∖ (lo ∪ {[ x ]}))).
Proof.
  case_bool_decide as Hin.
  - f_equal. set_solver.
  - replace (({[ x ]} ∪ X) ∖ lo) with ({[ x ]} ∪ X ∖ (lo ∪ {[ x ]})).
    + rewrite size_union by set_solver. by rewrite size_singleton.
    + apply set_eq. intros y.
      rewrite !elem_of_difference, !elem_of_union, !elem_of_difference,
        !elem_of_union, !elem_of_singleton.
      destruct (decide (y = x)) as [->|Hne]; tauto.
Qed.

Lemma protocols_close_count l c :
  foldl protocol_close c l
  = set_lost (lost c ∪ list_to_set (pid <$> l))
      (set_queue
         (_queue c
          ++ replicate (size (list_to_set (pid <$> l) ∖ lost c))
               (None, None))
         c).
Proof.
  revert c. induction l as [|p l IH]; intros c.
  - simpl. replace (lost c ∪ ∅) with (lost c) by set_solver.
    replace (size ((∅ : gset nat) ∖ lost c)) with 0%nat.
    + simpl. rewrite app_nil_r. by destruct c.
    + symmetry. apply size_empty_iff. set_solver.
  - cbn [foldl fmap list_fmap list_to_set foldr]. rewrite IH.
    change (list_to_set (pid p :: (pid <$> l)) : gset nat)
      with ({[ pid p ]} ∪ list_to_set (pid <$> l) : gset nat).
    rewrite open_protocols_cons.
    unfold protocol_close. case_bool_decide as Hin.
    + f_equal. set_solver.
    + transitivity
        (set_lost (lost c ∪ {[pid p]} ∪ list_to_set (pid <$> l))
           (set_queue
              (_queue c
               ++ (None, None)
                  :: replicate
                       (size (list_to_set (pid <$> l)
                              ∖ (lost c ∪ {[pid p]})))
                       (None, None))
              c)).
      * simpl. by rewrite <- app_assoc.
      * simpl. f_equal. set_solver.
Qed.

Lemma open_protocols_bounds (l : list StunProtocol) (lo : gset nat) :
  (size (list_to_set (pid <$> l) ∖ lo) ≤ length l)%nat
  ∧ ((∃ p, p ∈ l ∧ pid p ∉ lo) →
     (1 ≤ size (list_to_set (pid <$> l) ∖ lo))%nat)
  ∧ (NoDup (pid <$> l) →
     size (list_to_set (pid <$> l) ∖ lo)
     = length (filter (λ p, pid p ∉ lo) l)).
Proof.
  split; [|split].
  - revert lo. induction l as [|p l IH]; intros lo.
    + simpl. replace (size ((∅ : gset nat) ∖ lo)) with 0%nat; [done|].
      symmetry. apply size_empty_iff. set_solver.
    + cbn [fmap list_fmap list_to_set foldr length].
      change (list_to_set (pid p :: (pid <$> l)) : gset nat)
        with ({[ pid p ]} ∪ list_to_set (pid <$> l) : gset nat).
      rewrite open_protocols_cons. case_bool_decide.
      * specialize (IH lo). lia.
      * specialize (IH (lo ∪ {[pid p]})). lia.
  - intros (p & Hp & Hlo).
    destruct (size (list_to_set (pid <$> l) ∖ lo)) eqn:Hs; [|lia].
    apply size_empty_iff in Hs.
    assert (pid p ∈ (list_to_set (pid <$> l) : gset nat) ∖ lo) as Hin.
    { apply elem_of_difference. split; [|done].
      apply elem_of_list_to_set. by apply list_elem_of_fmap_2. }
    set_solver.
  - revert lo. induction l as [|p l IH]; intros lo Hnd.
    + simpl. apply size_empty_iff. set_solver.
    + cbn [fmap list_fmap] in Hnd. apply NoDup_cons in Hnd as [Hp Hnd].
      cbn [fmap list_fmap list_to_set foldr].
      change (list_to_set (pid p :: (pid <$> l)) : gset nat)
        with ({[ pid p ]} ∪ list_to_set (pid <$> l) : gset nat).
      rewrite open_protocols_cons, filter_cons.
      case_bool_decide as Hin.
      * rewrite decide_False by tauto. by apply IH.
      * rewrite decide_True by done. simpl. f_equal.
        rewrite <- (IH lo Hnd). f_equal.
        apply set_eq. intros x. rewrite !elem_of_difference, elem_of_union,
          elem_of_singleton, elem_of_list_to_set.
        split; [tauto|]. intros [Hx Hlo]. split; [done|].
        intros [?| ->]; done.
Qed.

(** After [close] the connection is closed and unsubscribed from mDNS,
    and every protocol it had is closed.  [ICE_FAILED] is posted to the
    check-list queue exactly when the check list is not empty and not
    done, and the done flag is left as it was.  The data queue receives
    exactly one [(None, None)] for each protocol whose connection was not
    lost already: as many as there are ids of protocols of the
    connection outside [lost], which is the number of such protocols
    when no protocol stands twice in the list; so at most one for each
    protocol, and at least one if some protocol was open.  The check
    list and the pairs are kept. *)
Theorem close_releases c :
  _closed (close c) = true
  ∧ mdns_subscribed (close c) = false
  ∧ _check_list (close c) = _check_list c
  ∧ pairs (close c) = pairs c
  ∧ _check_list_done (close c) = _check_list_done c
  ∧ _check_list_state (close c)
    = (if negb (bool_decide (_check_list c = []))
          && negb (_check_list_done c)
       then _check_list_state c ++ [ICE_FAILED]
       else _check_list_state c)
  ∧ lost (close c) = lost c ∪ list_to_set (pid <$> _protocols c)
  ∧ _queue (close c)
    = _queue c
      ++ replicate (size (list_to_set (pid <$> _protocols c) ∖ lost c))
           (None, None)
  ∧ (size (list_to_set (pid <$> _protocols c) ∖ lost c)
     ≤ length (_protocols c))%nat
  ∧ ((∃ p, p ∈ _protocols c ∧ pid p ∉ lost c) →
     (1 ≤ size (list_to_set (pid <$> _protocols c) ∖ lost c))%nat)
  ∧ (NoDup (pid <$> _protocols c) →
     size (list_to_set (pid <$> _protocols c) ∖ lost c)
     = length (filter (λ p, pid p ∉ lost c) (_protocols c))).
Proof.
  split; [apply close_closed|]. split; [apply close_mdns|].
  split; [close_cases c; done|]. split; [close_cases c; done|].
  split; [close_cases c; done|]. split; [close_cases c; done|].
  destruct (open_protocols_bounds (_protocols c) (lost c))
    as (Hle & Hopen & Hnd).
  assert (Hclose :
    lost (close c) = lost c ∪ list_to_set (pid <$> _protocols c)
    ∧ _queue (close c)
      = _queue c
        ++ replicate (size (list_to_set (pid <$> _protocols c) ∖ lost c))
             (None, None)).
  { set (n := size (list_to_set (pid <$> _protocols c) ∖ lost c)).
    unfold close.
    destruct (_query_consent_task c) as [[]|]; cbv beta iota zeta;
      destruct (negb _ && negb _);
      match goal with
      | |- context [foldl protocol_close ?d ?l] =>
          replace (foldl protocol_close d l)
            with (set_lost (lost c ∪ list_to_set (pid <$> _protocols c))
                    (set_queue (_queue c ++ replicate n (None, None)) d))
            by (symmetry; exact (protocols_close_count l d))
      end;
      clearbody n; simpl;
      destruct (_closed c); simpl;
      unfold _emit_event; simpl;
      try (destruct (_event_waiter c); simpl);
      done. }
  destruct Hclose as [Hlost Hqueue].
  split; [exact Hlost|]. split; [exact Hqueue|].
  split; [exact Hle|]. split; [exact Hopen|exact Hnd].
Qed.

(** ** Remote candidates and end-of-candidates *)

Section RemoteCandidatesMore.

Variable can_pair_with : Candidate → Candidate → bool.
Variable candidate_eq : Candidate → Candidate → bool.
Variable is_mdns_hostname : string → bool.
Variable mdns_resolve : string → option string.
Variable ip_address_ok : string → bool.

(** Once end-of-candidates was given, whether accepted or refused, every
    further call of [add_remote_candidate], with a candidate or with
    [None], raises [ValueError] and changes nothing. *)
Theorem add_remote_candidate_after_end depth depth' x c :
  _remote_candidates_end
    (add_remote_candidate can_pair_with candidate_eq is_mdns_hostname
       mdns_resolve ip_address_ok depth None c).2 = true
  ∧ ∃ msg,
      add_remote_candidate can_pair_with candidate_eq is_mdns_hostname
        mdns_resolve ip_address_ok depth' x
        (add_remote_candidate can_pair_with candidate_eq is_mdns_hostname
           mdns_resolve ip_address_ok depth None c).2
      = (Raise (ValueError msg),
         (add_remote_candidate can_pair_with candidate_eq is_mdns_hostname
            mdns_resolve ip_address_ok depth None c).2).
Proof.
  set (c' := (add_remote_candidate _ _ _ _ _ depth None c).2).
  assert (Hend : _remote_candidates_end c' = true).
  { unfold c'. destruct depth; simpl;
      destruct (_remote_candidates_end c) eqn:He; simpl; try done;
      unfold _prune_components; by destruct (bool_decide _). }
  split; [done|]. destruct depth'; simpl; rewrite Hend; by eexists.
Qed.

(** End-of-candidates, given for the first time, returns normally and
    prunes the components: afterwards every component has a remote
    candidate, and the components are those before if each of them had
    one.  The remote candidates, the check list and the pairs are
    kept. *)
Theorem end_of_candidates_prunes depth c :
  _remote_candidates_end c = false →
  (add_remote_candidate can_pair_with candidate_eq is_mdns_hostname
     mdns_resolve ip_address_ok depth None c).1 = Ok tt
  ∧ _remote_candidates_end
      (add_remote_candidate can_pair_with candidate_eq is_mdns_hostname
         mdns_resolve ip_address_ok depth None c).2 = true
  ∧ (∀ k, k ∈ _components
              (add_remote_candidate can_pair_with candidate_eq
                 is_mdns_hostname mdns_resolve ip_address_ok depth None c).2 →
       ∃ rc, rc ∈ _remote_candidates c ∧ component rc = k)
  ∧ ((∀ k, k ∈ _components c →
        ∃ rc, rc ∈ _remote_candidates c ∧ component rc = k) →
     _components
       (add_remote_candidate can_pair_with candidate_eq is_mdns_hostname
          mdns_resolve ip_address_ok depth None c).2 = _components c)
  ∧ add_remote_candidate can_pair_with candidate_eq is_mdns_hostname
      mdns_resolve ip_address_ok depth None c
    = (Ok tt,
       set_remote_candidates_end true
         (set_components
            (_components
               (add_remote_candidate can_pair_with candidate_eq
                  is_mdns_hostname mdns_resolve ip_address_ok depth None
                  c).2) c)).
Proof.
  intros Hend.
  assert (Heq : add_remote_candidate can_pair_with candidate_eq
                  is_mdns_hostname mdns_resolve ip_address_ok depth None c
                = (Ok tt, set_remote_candidates_end true (_prune_components c))).
  { destruct depth; simpl; by rewrite Hend. }
  rewrite Heq. simpl. split; [done|]. split; [done|].
  unfold _prune_components.
  set (seen := list_to_set (component <$> _remote_candidates c) : gset Z).
  assert (Hseen : ∀ k, k ∈ seen →
                       ∃ rc, rc ∈ _remote_candidates c ∧ component rc = k).
  { intros k Hk.
    apply elem_of_list_to_set, list_elem_of_fmap in Hk as (rc & -> & Hrc).
    by exists rc. }
  case_bool_decide as Hmissing; simpl.
  - split; [|split; done]. intros k Hk. apply Hseen.
    destruct (decide (k ∈ seen)) as [|Hno]; [done|].
    assert (k ∈ _components c ∖ seen) as Hd by (by apply elem_of_difference).
    rewrite Hmissing in Hd. by apply not_elem_of_empty in Hd.
  - split; [exact Hseen|]. split; [|done].
    intros Hall. exfalso. apply Hmissing. apply set_eq. intros k.
    split; [|intros Hk; by apply not_elem_of_empty in Hk].
    intros [Hk Hno]%elem_of_difference.
    destruct (Hall k Hk) as (rc & Hrc & <-). exfalso. apply Hno.
    apply elem_of_list_to_set, list_elem_of_fmap. by exists rc.
Qed.

Lemma form_pairs_effect rc l c :
  ∃ news,
    foldl (form_pair can_pair_with candidate_eq rc) c l
    = set_check_list
        (_check_list c ++ seq (length (pairs c)) (length news))
        (set_pairs (pairs c ++ news) c)
    ∧ Forall
        (λ pr, ∃ p, p ∈ l ∧ can_pair_with (local_candidate p) rc = true
                    ∧ pr = new_pair p rc)
        news.
Proof.
  revert c. induction l as [|p l IH]; intros c; simpl.
  - exists []. simpl. rewrite !app_nil_r. by split.
  - destruct (IH (form_pair can_pair_with candidate_eq rc c p))
      as (news & -> & Hnews).
    unfold form_pair. destruct (_ && _) eqn:Hc.
    + apply andb_prop in Hc as [Hcan _].
      exists (new_pair p rc :: news). split.
      * unfold append_pair. simpl.
        rewrite length_app, <- !app_assoc. simpl.
        by rewrite Nat.add_1_r.
      * constructor.
        -- exists p. split; [by left|]. done.
        -- eapply Forall_impl; [exact Hnews|].
           intros pr (p0 & Hp0 & H). exists p0. split; [by right|]. done.
    + exists news. split; [done|].
      eapply Forall_impl; [exact Hnews|].
      intros pr (p0 & Hp0 & H). exists p0. split; [by right|]. done.
Qed.

(** A supported candidate, given before end-of-candidates under a host
    that is an address: the call returns normally; the candidate is
    appended to the remote candidates; the pairs there were are kept as
    they are, each new pair is a fresh Frozen pair of a protocol that
    can pair with the candidate, and the check list is made of the old
    and the new pairs, in order. *)
Theorem add_remote_candidate_appends depth rc c :
  _remote_candidates_end c = false →
  is_mdns_hostname (host rc) = false →
  validate_remote_candidate ip_address_ok rc = Ok rc →
  (add_remote_candidate can_pair_with candidate_eq is_mdns_hostname
     mdns_resolve ip_address_ok depth (Some rc) c).1 = Ok tt
  ∧ _remote_candidates
      (add_remote_candidate can_pair_with candidate_eq is_mdns_hostname
         mdns_resolve ip_address_ok depth (Some rc) c).2
    = _remote_candidates c ++ [rc]
  ∧ check_list_ordered
      (add_remote_candidate can_pair_with candidate_eq is_mdns_hostname
         mdns_resolve ip_address_ok depth (Some rc) c).2
  ∧ ∃ news,
      pairs
        (add_remote_candidate can_pair_with candidate_eq is_mdns_hostname
           mdns_resolve ip_address_ok depth (Some rc) c).2
      = pairs c ++ news
      ∧ Permutation
          (_check_list
             (add_remote_candidate can_pair_with candidate_eq
                is_mdns_hostname mdns_resolve ip_address_ok depth (Some rc)
                c).2)
          (_check_list c ++ seq (length (pairs c)) (length news))
      ∧ Forall
          (λ pr, ∃ p, p ∈ _protocols c
                      ∧ can_pair_with (local_candidate p) rc = true
                      ∧ pr = new_pair p rc)
          news.
Proof.
  intros Hend Hmdns Hvalid.
  assert (Heq : add_remote_candidate can_pair_with candidate_eq
                  is_mdns_hostname mdns_resolve ip_address_ok depth (Some rc) c
                = (Ok tt,
                   sort_check_list
                     (foldl (form_pair can_pair_with candidate_eq rc)
                        (set_remote_candidates (_remote_candidates c ++ [rc]) c)
                        (_protocols c)))).
  { destruct depth; simpl; by rewrite Hend, Hmdns, Hvalid. }
  rewrite Heq. simpl.
  destruct (form_pairs_effect rc (_protocols c)
              (set_remote_candidates (_remote_candidates c ++ [rc]) c))
    as (news & Hfold & Hnews).
  split; [done|]. split; [by rewrite Hfold|].
  split; [apply sort_check_list_ordered|].
  exists news. rewrite Hfold. simpl.
  split; [done|]. split; [apply py_sorted_perm | exact Hnews].
Qed.

End RemoteCandidatesMore.

Lemma end_of_candidates_prunes_witness :
  _remote_candidates_end pruned_step_2 = false
  ∧ ((add_remote_candidate example_can_pair_with example_candidate_eq
        example_is_mdns_hostname example_mdns_resolve
        example_ip_address_ok 1000 None pruned_step_2).1 = Ok tt
     ∧ _remote_candidates_end
         (add_remote_candidate example_can_pair_with example_candidate_eq
            example_is_mdns_hostname example_mdns_resolve
            example_ip_address_ok 1000 None pruned_step_2).2 = true
     ∧ (∀ k, k ∈ _components
                 (add_remote_candidate example_can_pair_with
                    example_candidate_eq example_is_mdns_hostname
                    example_mdns_resolve example_ip_address_ok 1000 None
                    pruned_step_2).2 →
          ∃ rc, rc ∈ _remote_candidates pruned_step_2 ∧ component rc = k)
     ∧ ((∀ k, k ∈ _components pruned_step_2 →
           ∃ rc, rc ∈ _remote_candidates pruned_step_2 ∧ component rc = k) →
        _components
          (add_remote_candidate example_can_pair_with example_candidate_eq
             example_is_mdns_hostname example_mdns_resolve
             example_ip_address_ok 1000 None pruned_step_2).2
        = _components pruned_step_2)
     ∧ add_remote_candidate example_can_pair_with example_candidate_eq
         example_is_mdns_hostname example_mdns_resolve
         example_ip_address_ok 1000 None pruned_step_2
       = (Ok tt,
          set_remote_candidates_end true
            (set_components
               (_components
                  (add_remote_candidate example_can_pair_with
                     example_candidate_eq example_is_mdns_hostname
                     example_mdns_resolve example_ip_address_ok 1000 None
                     pruned_step_2).2) pruned_step_2))).
Proof.
  split; [reflexivity|].
  apply (end_of_candidates_prunes example_can_pair_with example_candidate_eq
           example_is_mdns_hostname example_mdns_resolve
           example_ip_address_ok 1000 pruned_step_2).
  reflexivity.
Defined.

(** [add_remote_candidate] of a host candidate at [one_protocol]. *)
Lemma add_remote_candidate_appends_witness :
  (_remote_candidates_end one_protocol = false)
  ∧   (example_is_mdns_hostname (host example_remote_1) = false)
  ∧   (validate_remote_candidate example_ip_address_ok example_remote_1 = Ok example_remote_1)
  ∧ ((add_remote_candidate example_can_pair_with example_candidate_eq example_is_mdns_hostname
     example_mdns_resolve example_ip_address_ok 1000%nat (Some example_remote_1) one_protocol).1 = Ok tt
  ∧ _remote_candidates
      (add_remote_candidate example_can_pair_with example_candidate_eq example_is_mdns_hostname
         example_mdns_resolve example_ip_address_ok 1000%nat (Some example_remote_1) one_protocol).2
    = _remote_candidates one_protocol ++ [example_remote_1]
  ∧ check_list_ordered
      (add_remote_candidate example_can_pair_with example_candidate_eq example_is_mdns_hostname
         example_mdns_resolve example_ip_address_ok 1000%nat (Some example_remote_1) one_protocol).2
  ∧ ∃ news,
      pairs
        (add_remote_candidate example_can_pair_with example_candidate_eq example_is_mdns_hostname
           example_mdns_resolve example_ip_address_ok 1000%nat (Some example_remote_1) one_protocol).2
      = pairs one_protocol ++ news
      ∧ Permutation
          (_check_list
             (add_remote_candidate example_can_pair_with example_candidate_eq
                example_is_mdns_hostname example_mdns_resolve example_ip_address_ok 1000%nat (Some example_remote_1)
                one_protocol).2)
          (_check_list one_protocol ++ seq (length (pairs one_protocol)) (length news))
      ∧ Forall
          (λ pr, ∃ p, p ∈ _protocols one_protocol
                      ∧ example_can_pair_with (local_candidate p) example_remote_1 = true
                      ∧ pr = new_pair p example_remote_1)
          news).
Proof.
  split; [reflexivity|].
  split; [reflexivity|].
  split; [reflexivity|].
  apply (add_remote_candidate_appends example_can_pair_with example_candidate_eq example_is_mdns_hostname example_mdns_resolve example_ip_address_ok 1000%nat example_remote_1 one_protocol);
    reflexivity.
Defined.

(** ** Incoming checks and requests *)

(** [check_complete] writes to the pairs, the nominated map, the
    check-list queue and the done flag, and to nothing else. *)
Lemma check_complete_fields r c :
  ∃ ps n q d,
    check_complete r c
    = set_pairs ps
        (set_nominated n (set_check_list_state q (set_check_list_done d c))).
Proof.
  unfold check_complete.
  set (c0 := update_pair r (set_task None) c).
  assert (H0 : ∀ e, (∃ ps n q d, e = set_pairs ps
                       (set_nominated n
                          (set_check_list_state q (set_check_list_done d c0)))) →
                    ∃ ps n q d, e = set_pairs ps
                       (set_nominated n
                          (set_check_list_state q (set_check_list_done d c)))).
  { intros e (ps & n & q & d & ->). by exists ps, n, q, d. }
  apply H0. clear H0. clearbody c0. clear c. rename c0 into c.
  assert (Hfailed : ∀ e ps n,
    e = set_pairs ps (set_nominated n c) →
    ∃ ps n q d, check_complete_failed e
                = set_pairs ps
                    (set_nominated n
                       (set_check_list_state q (set_check_list_done d c)))).
  { intros e ps n ->.
    destruct (check_complete_failed_fields (set_pairs ps (set_nominated n c)))
      as (d & q & ->).
    by exists ps, n, q, d. }
  destruct (pairs c !! r) as [pr|];
    [|by exists (pairs c), (_nominated c), (_check_list_state c),
                (_check_list_done c)].
  destruct (bool_decide (state pr = SUCCEEDED)).
  2:{ by apply (Hfailed c (pairs c) (_nominated c)). }
  cbv zeta.
  set (c1 := if nominated pr then _ else c).
  assert (H1 : ∃ ps n, c1 = set_pairs ps (set_nominated n c)).
  { unfold c1. destruct (nominated pr).
    - match goal with
      | |- context [foldl (fail_component_step ?k) ?d ?l] =>
          destruct (fail_component_loop_fields k l d) as [ps ->]
      end.
      by eexists _, _.
    - by exists (pairs c), (_nominated c). }
  destruct H1 as (ps & n & H1). clearbody c1. subst c1. simpl.
  destruct (_ =? _)%nat.
  - destruct (_check_list_done c) eqn:Hd.
    + by exists ps, n, (_check_list_state c), true; rewrite <- Hd.
    + by exists ps, n, (_check_list_state c ++ [ICE_COMPLETED]), true.
  - match goal with
    | |- context [foldl (unfreeze_foundation_step ?f) ?d ?l] =>
        destruct (unfreeze_foundation_loop_fields f l d) as [ps' ->]
    end.
    by apply (Hfailed _ ps' n).
Qed.

Section IncomingRequests.

Variable candidate_eq : Candidate → Candidate → bool.
Variable stun_integrity_ok : string → string → bool.

Lemma check_incoming_pair_remote_candidates message protocol0 rc c :
  _remote_candidates (check_incoming_pair candidate_eq message protocol0 rc c)
  = _remote_candidates c.
Proof.
  assert (Htask : ∀ r d, _remote_candidates (check_start_task r d)
                         = _remote_candidates d).
  { intros r d. unfold check_start_task.
    by destruct (task <$> pairs d !! r) as [[]|]. }
  assert (Hcomplete : ∀ r d, _remote_candidates (check_complete r d)
                             = _remote_candidates d).
  { intros r d. by destruct (check_complete_fields r d)
      as (ps & n & q & dn & ->). }
  unfold check_incoming_pair.
  destruct (_find_pair candidate_eq protocol0 rc c) as [r|];
    cbv beta iota zeta;
    repeat match goal with
           | |- context [if ?b then _ else _] => destruct b
           end;
    rewrite ?Hcomplete; simpl; rewrite ?Htask; done.
Qed.

(** [check_incoming] from an address that no remote candidate has: with
    a PRIORITY attribute it returns normally, having appended one
    peer-reflexive candidate (type prflx, the address of the datagram,
    the component of the protocol, the priority of the attribute, the
    random foundation); without PRIORITY it raises [KeyError] and
    nothing has changed.  From the address of a known remote candidate
    no candidate is added; if its component is not that of the protocol
    the assertion fails and nothing has changed. *)
Theorem check_incoming_discovers message addr protocol0 rnd c :
  (find (λ x, bool_decide (host x = addr.1) && bool_decide (port x = addr.2))
        (_remote_candidates c) = None →
   match PRIORITY (attributes message) with
   | Some prio =>
       (check_incoming candidate_eq message addr protocol0 rnd c).1 = Ok tt
       ∧ _remote_candidates
           (check_incoming candidate_eq message addr protocol0 rnd c).2
         = _remote_candidates c
           ++ [{| foundation := rnd;
                  component := component (local_candidate protocol0);
                  transport := "udp"; priority := prio; host := addr.1;
                  port := addr.2; type := "prflx";
                  related_address := None; related_port := None |}]
   | None =>
       check_incoming candidate_eq message addr protocol0 rnd c
       = (Raise (KeyError "PRIORITY"), c)
   end)
  ∧ (∀ rc,
       find (λ x, bool_decide (host x = addr.1)
                  && bool_decide (port x = addr.2))
            (_remote_candidates c) = Some rc →
       if bool_decide (component rc = component (local_candidate protocol0))
       then
         (check_incoming candidate_eq message addr protocol0 rnd c).1 = Ok tt
         ∧ _remote_candidates
             (check_incoming candidate_eq message addr protocol0 rnd c).2
           = _remote_candidates c
       else
         check_incoming candidate_eq message addr protocol0 rnd c
         = (Raise AssertionError, c)).
Proof.
  unfold check_incoming. split.
  - intros ->. destruct (PRIORITY (attributes message)); [|done].
    simpl. split; [done|]. by rewrite check_incoming_pair_remote_candidates.
  - intros rc ->. case_bool_decide; [|done].
    simpl. split; [done|]. by rewrite check_incoming_pair_remote_candidates.
Qed.

(** A request that is not a binding request, or that fails the
    authentication, is answered with the error 400 and changes nothing
    else: the answer is the one datagram sent, an ERROR message with the
    method and the transaction id of the request, signed with the local
    password. *)
Theorem request_received_rejects message addr protocol0 raw_data rnd c :
  message_method message ≠ BINDING
  ∨ authenticated stun_integrity_ok message raw_data c = false →
  request_received candidate_eq stun_integrity_ok message addr protocol0
    raw_data rnd c
  = (Ok tt,
     set_sent
       (sent c
        ++ [(pid protocol0,
             {| message_method := message_method message;
                message_class := ERROR;
                transaction_id := transaction_id message;
                attributes :=
                  {| USERNAME := None; PRIORITY := None;
                     ICE_CONTROLLING := None; ICE_CONTROLLED := None;
                     USE_CANDIDATE := false; XOR_MAPPED_ADDRESS := None;
                     ERROR_CODE := Some (400, "Bad Request"%string) |};
                integrity_key := Some (local_password c) |},
             addr)])
       c).
Proof.
  unfold request_received. intros [Hm|Ha].
  - by rewrite (bool_decide_eq_false_2 _ Hm).
  - rewrite Ha. simpl. by destruct (negb _).
Qed.

(** An authenticated binding request without role conflict that arrives
    while the check list is empty and the early checks are not drained
    is answered with a binding response, whose XOR-MAPPED-ADDRESS is the
    source address, and put at the end of the early-checks buffer:
    nothing else changes, no candidate is learnt and no pair made. *)
Theorem request_received_buffers message addr protocol0 raw_data rnd c :
  message_method message = BINDING →
  authenticated stun_integrity_ok message raw_data c = true →
  (if ice_controlling c then ICE_CONTROLLING (attributes message)
   else ICE_CONTROLLED (attributes message)) = None →
  _check_list c = [] → _early_checks_done c = false →
  request_received candidate_eq stun_integrity_ok message addr protocol0
    raw_data rnd c
  = (Ok tt,
     set_early_checks (_early_checks c ++ [(message, addr, protocol0)])
       (set_sent
          (sent c
           ++ [(pid protocol0,
                {| message_method := BINDING; message_class := RESPONSE;
                   transaction_id := transaction_id message;
                   attributes :=
                     {| USERNAME := None; PRIORITY := None;
                        ICE_CONTROLLING := None; ICE_CONTROLLED := None;
                        USE_CANDIDATE := false;
                        XOR_MAPPED_ADDRESS := Some addr;
                        ERROR_CODE := None |};
                   integrity_key := Some (local_password c) |},
                addr)])
          c)).
Proof.
  intros Hm Ha Hrole Hl Hearly. unfold request_received.
  rewrite (bool_decide_eq_true_2 _ Hm), Ha. simpl negb. cbv iota.
  assert (Haccept :
    accept_request candidate_eq message addr protocol0 rnd c
    = (Ok tt,
       set_early_checks (_early_checks c ++ [(message, addr, protocol0)])
         (send_stun protocol0 (binding_response message addr c) addr c))).
  { unfold accept_request. cbv zeta. simpl.
    by rewrite Hl, Hearly. }
  destruct (ice_controlling c); rewrite Hrole;
    try destruct (ICE_CONTROLLED _); try destruct (ICE_CONTROLLING _);
    exact Haccept.
Qed.

End IncomingRequests.

(** A request of another method at [fresh_connection]. *)
Lemma request_received_rejects_witness :
  (message_method example_request_other ≠ BINDING
  ∨ authenticated example_stun_integrity_ok example_request_other "datagram"%string fresh_connection = false)
  ∧ (request_received example_candidate_eq example_stun_integrity_ok example_request_other ("203.0.113.9"%string, 40000) example_protocol
    "datagram"%string "qzjxkvwbnm"%string fresh_connection
  = (Ok tt,
     set_sent
       (sent fresh_connection
        ++ [(pid example_protocol,
             {| message_method := message_method example_request_other;
                message_class := ERROR;
                transaction_id := transaction_id example_request_other;
                attributes :=
                  {| USERNAME := None; PRIORITY := None;
                     ICE_CONTROLLING := None; ICE_CONTROLLED := None;
                     USE_CANDIDATE := false; XOR_MAPPED_ADDRESS := None;
                     ERROR_CODE := Some (400, "Bad Request"%string) |};
                integrity_key := Some (local_password fresh_connection) |},
             ("203.0.113.9"%string, 40000))])
       fresh_connection)).
Proof.
  split; [(by left) || reflexivity|].
  apply (request_received_rejects example_candidate_eq example_stun_integrity_ok example_request_other ("203.0.113.9"%string, 40000) example_protocol "datagram"%string "qzjxkvwbnm"%string fresh_connection);
    (by left) || reflexivity.
Defined.

(** A request of a controlled peer at [fresh_connection], which is controlling. *)
Lemma request_received_buffers_witness :
  (message_method example_request_controlled = BINDING)
  ∧   (authenticated example_stun_integrity_ok example_request_controlled "datagram"%string fresh_connection = true)
  ∧   ((if ice_controlling fresh_connection then ICE_CONTROLLING (attributes example_request_controlled)
   else ICE_CONTROLLED (attributes example_request_controlled)) = None)
  ∧   (_check_list fresh_connection = [])
  ∧   (_early_checks_done fresh_connection = false)
  ∧ (request_received example_candidate_eq example_stun_integrity_ok example_request_controlled ("203.0.113.9"%string, 40000) example_protocol
    "datagram"%string "qzjxkvwbnm"%string fresh_connection
  = (Ok tt,
     set_early_checks (_early_checks fresh_connection ++ [(example_request_controlled, ("203.0.113.9"%string, 40000), example_protocol)])
       (set_sent
          (sent fresh_connection
           ++ [(pid example_protocol,
                {| message_method := BINDING; message_class := RESPONSE;
                   transaction_id := transaction_id example_request_controlled;
                   attributes :=
                     {| USERNAME := None; PRIORITY := None;
                        ICE_CONTROLLING := None; ICE_CONTROLLED := None;
                        USE_CANDIDATE := false;
                        XOR_MAPPED_ADDRESS := Some ("203.0.113.9"%string, 40000);
                        ERROR_CODE := None |};
                   integrity_key := Some (local_password fresh_connection) |},
                ("203.0.113.9"%string, 40000))])
          fresh_connection))).
Proof.
  split; [reflexivity|].
  split; [reflexivity|].
  split; [reflexivity|].
  split; [reflexivity|].
  split; [reflexivity|].
  apply (request_received_buffers example_candidate_eq example_stun_integrity_ok example_request_controlled ("203.0.113.9"%string, 40000) example_protocol "datagram"%string "qzjxkvwbnm"%string fresh_connection);
    reflexivity.
Defined.

(** ** Sending and receiving data *)

Lemma datagrams_received_queue ds c :
  datagrams_received ds c
  = set_queue (_queue c ++ ((λ d, (Some d.1, d.2)) <$> ds)) c.
Proof.
  revert c. induction ds as [|d ds IH]; intros c.
  - simpl. rewrite app_nil_r. by destruct c.
  - unfold datagrams_received in *. simpl. rewrite IH.
    unfold data_received. simpl. by rewrite <- app_assoc.
Qed.

Lemma recvfrom_times_queue (ds : list (string * option Z)) c :
  size (_nominated c) ≠ 0%nat →
  _queue c = ((λ d, (Some d.1, d.2)) <$> ds) →
  recvfrom_times (length ds) c = (Returns <$> ds, set_queue [] c).
Proof.
  revert c. induction ds as [|[d k] ds IH]; intros c Hn Hq.
  - simpl in *. f_equal. rewrite <- Hq. by destruct c.
  - assert (Hr : recvfrom c
                 = (Returns (d, k),
                    set_queue ((λ d, (Some d.1, d.2)) <$> ds) c)).
    { unfold recvfrom.
      rewrite bool_decide_eq_false_2 by done.
      unfold recvfrom_resume. by rewrite Hq. }
    cbn [recvfrom_times length]. rewrite Hr. cbv beta iota zeta.
    match type of Hr with
    | _ = (_, ?c') => specialize (IH c' Hn eq_refl)
    end.
    rewrite IH. reflexivity.
Qed.

(** Datagrams are received in the order in which they arrived, each one
    once: on a connection with a nominated pair and an empty queue, after
    the datagrams [ds] have arrived, as many calls of [recvfrom] return
    them one by one with their components and leave the connection as it
    was before they arrived; one more call then waits. *)
Theorem recvfrom_in_order (ds : list (string * option Z)) c :
  size (_nominated c) ≠ 0%nat → _queue c = [] →
  recvfrom_times (length ds) (datagrams_received ds c) = (Returns <$> ds, c)
  ∧ recvfrom c = (Suspended, c).
Proof.
  intros Hn Hq. split.
  - rewrite datagrams_received_queue, Hq. simpl.
    rewrite recvfrom_times_queue by done.
    f_equal. simpl. rewrite <- Hq. by destruct c.
  - unfold recvfrom.
    rewrite bool_decide_eq_false_2 by done.
    unfold recvfrom_resume. by rewrite Hq.
Qed.

Lemma close_queue c :
  ∃ n : nat,
    _queue (close c) = _queue c ++ replicate n (None, None)
    ∧ ((∃ p, p ∈ _protocols c ∧ pid p ∉ lost c) → (1 ≤ n)%nat).
Proof.
  unfold close.
  destruct (_query_consent_task c) as [[]|]; simpl;
    destruct (negb _ && negb _); simpl;
    match goal with
    | |- context [foldl protocol_close ?d ?l] =>
        destruct (protocols_close_effect l d) as (n & Hn & Hex & ->)
    end; simpl in *;
    destruct (_closed c); simpl;
    unfold _emit_event; simpl;
    try (destruct (_event_waiter c); simpl);
    exists n; done.
Qed.

(** After [close] no data is sent or received: [recvfrom] and [recv]
    raise [ConnectionError] without touching the queue, and [sendto] and
    [send] raise it for every component and send nothing.  And a receiver
    that waits in [recvfrom] on an empty queue when the connection is
    closed does not wait for ever: the close of the first protocol whose
    connection was not lost yet wakes it up, and it raises
    [ConnectionError]. *)
Theorem close_ends_transfers c data comp :
  recvfrom (close c)
  = (ConnectionError "Cannot receive data, not connected", close c)
  ∧ recv (close c)
    = (ConnectionError "Cannot receive data, not connected", close c)
  ∧ sendto data comp (close c)
    = ConnectionError "Cannot send data, not connected"
  ∧ send data (close c) = ConnectionError "Cannot send data, not connected"
  ∧ (size (_nominated c) ≠ 0%nat → _queue c = [] →
     (∃ p, p ∈ _protocols c ∧ pid p ∉ lost c) →
     recvfrom c = (Suspended, c)
     ∧ ∃ q,
         recvfrom_resume (close c)
         = (ConnectionError "Connection lost while receiving data",
            set_queue q (close c))).
Proof.
  assert (Hr : recvfrom (close c)
               = (ConnectionError "Cannot receive data, not connected",
                  close c)).
  { unfold recvfrom. rewrite close_nominated. reflexivity. }
  split; [exact Hr|]. split; [unfold recv; by rewrite Hr|].
  split; [unfold sendto; rewrite close_nominated; by rewrite lookup_empty|].
  split; [unfold send, sendto; rewrite close_nominated;
          by rewrite lookup_empty|].
  intros Hs Hq Hp. split.
  { unfold recvfrom. rewrite bool_decide_eq_false_2 by done.
    unfold recvfrom_resume. by rewrite Hq. }
  destruct (close_queue c) as (n & Hcq & Hn).
  assert (1 ≤ n)%nat as Hn1 by (by apply Hn).
  destruct n as [|n]; [lia|].
  unfold recvfrom_resume. rewrite Hcq, Hq. simpl. by eexists.
Qed.

(** ** A pair selected by hand *)

Lemma find_first_match {A} (P : A → bool) l1 x l2 :
  (∀ y, y ∈ l1 → P y = false) → P x = true →
  find P (l1 ++ x :: l2) = Some x.
Proof.
  intros Hno Hx. induction l1 as [|y l1 IH]; simpl.
  - by rewrite Hx.
  - rewrite (Hno y) by left. apply IH. intros z Hz. apply Hno. by right.
Qed.

Lemma foldl_last_match {A} (P : A → bool) l acc :
  (∀ y, y ∈ l → P y = false) →
  foldl (λ a x, if P x then Some x else a) acc l = acc.
Proof.
  revert acc. induction l as [|y l IH]; intros acc Hno; [done|].
  simpl. rewrite (Hno y) by left. apply IH. intros z Hz. apply Hno. by right.
Qed.

Lemma foldl_some_match {A} (P : A → bool) l acc :
  is_Some (foldl (λ a x, if P x then Some x else a) acc l)
  ↔ is_Some acc ∨ ∃ x, x ∈ l ∧ P x = true.
Proof.
  revert acc. induction l as [|y l IH]; intros acc; simpl.
  - split; [by left|]. intros [H|(x & Hx & _)]; [done|].
    by apply elem_of_nil in Hx.
  - rewrite IH. split.
    + intros [H|(x & Hx & HP)].
      * destruct (P y) eqn:Hy; [|by left]. right. exists y. split; [left|done].
      * right. exists x. split; [by right|done].
    + intros [H|(x & [->|Hx]%elem_of_cons & HP)].
      * left. destruct (P y); [by eexists|done].
      * left. rewrite HP. by eexists.
      * right. by exists x.
Qed.

Lemma find_some_match {A} (P : A → bool) (l : list A) :
  is_Some (find P l) ↔ ∃ x, x ∈ l ∧ P x = true.
Proof.
  induction l as [|y l IH]; simpl.
  - split; [by intros [? ?]|]. intros (x & Hx & _).
    by apply elem_of_nil in Hx.
  - destruct (P y) eqn:Hy.
    + split; [|by eexists]. intros _. exists y. split; [left|done].
    + rewrite IH. split.
      * intros (x & Hx & HP). exists x. split; [by right|done].
      * intros (x & [->|Hx]%elem_of_cons & HP); [congruence|]. by exists x.
Qed.

(** [set_selected_pair] takes the first protocol of the component whose
    local candidate has the local foundation, and the last remote
    candidate of the component with the remote foundation, without having
    run any check.  Data sent on the component then goes through that
    protocol to the address of that remote candidate, and [recvfrom] no
    longer refuses to receive; the check list is left as it was, and so
    are the pairs there were. *)
Theorem set_selected_pair_selects
    comp local_foundation remote_foundation c ps1 p ps2 rs1 rc rs2 data :
  _protocols c = ps1 ++ p :: ps2 →
  (∀ q, q ∈ ps1 →
        ¬ (component (local_candidate q) = comp
           ∧ foundation (local_candidate q) = local_foundation)) →
  component (local_candidate p) = comp →
  foundation (local_candidate p) = local_foundation →
  _remote_candidates c = rs1 ++ rc :: rs2 →
  component rc = comp → foundation rc = remote_foundation →
  (∀ x, x ∈ rs2 →
        ¬ (component x = comp ∧ foundation x = remote_foundation)) →
  (set_selected_pair comp local_foundation remote_foundation c).1 = Ok tt
  ∧ sendto data comp
      (set_selected_pair comp local_foundation remote_foundation c).2
    = Returns (pid p, data, (host rc, port rc))
  ∧ (recvfrom
       (set_selected_pair comp local_foundation remote_foundation c).2).1
    ≠ ConnectionError "Cannot receive data, not connected"
  ∧ _check_list
      (set_selected_pair comp local_foundation remote_foundation c).2
    = _check_list c
  ∧ ∀ r pr,
      pairs c !! r = Some pr →
      pairs (set_selected_pair comp local_foundation remote_foundation c).2
        !! r = Some pr.
Proof.
  intros Hps Hno1 Hpc Hpf Hrs Hrc Hrf Hno2.
  assert (Hp : selected_protocol comp local_foundation c = Some p).
  { unfold selected_protocol. rewrite Hps. apply find_first_match.
    - intros q Hq. specialize (Hno1 q Hq).
      apply andb_false_iff.
      destruct (decide (component (local_candidate q) = comp)) as [Hc|Hc].
      + right. apply bool_decide_eq_false. tauto.
      + left. by apply bool_decide_eq_false.
    - by rewrite !bool_decide_eq_true_2. }
  assert (Hr : selected_remote_candidate comp remote_foundation c = Some rc).
  { unfold selected_remote_candidate. rewrite Hrs, foldl_app. simpl.
    rewrite !bool_decide_eq_true_2 by done. simpl.
    apply (foldl_last_match
             (λ x, bool_decide (component x = comp)
                   && bool_decide (foundation x = remote_foundation))).
    intros x Hx. specialize (Hno2 x Hx).
    apply andb_false_iff.
    destruct (decide (component x = comp)) as [Hc|Hc].
    - right. apply bool_decide_eq_false. tauto.
    - left. by apply bool_decide_eq_false. }
  unfold set_selected_pair. rewrite Hp, Hr. cbn [fst snd].
  split; [done|]. split.
  { unfold sendto.
    change (_nominated
              (set_nominated (<[comp:=length (pairs c)]> (_nominated c))
                 (set_pairs (pairs c ++ [new_pair p rc]) c)))
      with (<[comp:=length (pairs c)]> (_nominated c)).
    change (pairs
              (set_nominated (<[comp:=length (pairs c)]> (_nominated c))
                 (set_pairs (pairs c ++ [new_pair p rc]) c)))
      with (pairs c ++ [new_pair p rc]).
    rewrite lookup_insert_eq.
    rewrite lookup_app_r by done. by rewrite Nat.sub_diag. }
  split.
  { unfold recvfrom. simpl.
    rewrite bool_decide_eq_false_2.
    - unfold recvfrom_resume. simpl. by destruct (_queue c) as [|[[] ]].
    - intros Hs. apply map_size_empty_inv in Hs.
      by apply insert_non_empty in Hs. }
  split; [done|].
  intros r pr Hpr. by apply lookup_app_l_Some.
Qed.

(** A pair is selected exactly when the connection has a protocol and
    a remote candidate of the component with the two foundations;
    otherwise the assertion of [set_selected_pair] fails and the
    connection is left as it was. *)
Theorem set_selected_pair_asserts comp local_foundation remote_foundation c :
  ((set_selected_pair comp local_foundation remote_foundation c).1 = Ok tt
   ↔ (∃ p, p ∈ _protocols c
           ∧ component (local_candidate p) = comp
           ∧ foundation (local_candidate p) = local_foundation)
     ∧ (∃ x, x ∈ _remote_candidates c
             ∧ component x = comp ∧ foundation x = remote_foundation))
  ∧ ((set_selected_pair comp local_foundation remote_foundation c).1 ≠ Ok tt
     → set_selected_pair comp local_foundation remote_foundation c
       = (Raise AssertionError, c)).
Proof.
  assert (Hp : is_Some (selected_protocol comp local_foundation c)
               ↔ ∃ p, p ∈ _protocols c
                      ∧ bool_decide (component (local_candidate p) = comp)
                        && bool_decide
                             (foundation (local_candidate p)
                              = local_foundation) = true).
  { apply find_some_match. }
  assert (Hr : is_Some (selected_remote_candidate comp remote_foundation c)
               ↔ is_Some (@None Candidate)
                 ∨ ∃ x, x ∈ _remote_candidates c
                        ∧ bool_decide (component x = comp)
                          && bool_decide (foundation x = remote_foundation)
                          = true).
  { apply (foldl_some_match
             (λ x, bool_decide (component x = comp)
                   && bool_decide (foundation x = remote_foundation))). }
  unfold set_selected_pair.
  split.
  - split.
    + intros Hok. split.
      * destruct (selected_protocol comp local_foundation c) eqn:E;
          [|done].
        destruct (proj1 Hp) as (x & Hx & HP); [by eexists|].
        apply andb_true_iff in HP as [H1%bool_decide_eq_true
                                       H2%bool_decide_eq_true].
        by exists x.
      * destruct (selected_remote_candidate comp remote_foundation c) eqn:E;
          [|by destruct (selected_protocol comp local_foundation c)].
        destruct (proj1 Hr) as [[? ?]|(x & Hx & HP)]; [by eexists|done|].
        apply andb_true_iff in HP as [H1%bool_decide_eq_true
                                       H2%bool_decide_eq_true].
        by exists x.
    + intros [(p & Hin & H1 & H2) (x & Hxin & H3 & H4)].
      destruct (proj2 Hp) as [p' ->].
      { exists p. by rewrite !bool_decide_eq_true_2. }
      destruct (proj2 Hr) as [x' ->]; [|done].
      right. exists x. by rewrite !bool_decide_eq_true_2.
  - destruct (selected_protocol comp local_foundation c);
      destruct (selected_remote_candidate comp remote_foundation c);
      simpl; done.
Qed.

(** ** Waiting for an event *)

Lemma close_event_waiter c :
  _event_waiter (close c) = if _closed c then _event_waiter c else None.
Proof.
  unfold close.
  destruct (_query_consent_task c) as [[]|]; cbv beta iota zeta;
    destruct (negb _ && negb _);
    match goal with
    | |- context [foldl protocol_close ?d ?l] =>
        destruct (protocols_close_fields l d) as (q & lo & ->)
    end; simpl;
    destruct (_closed c) eqn:Hc; simpl; try done;
    unfold _emit_event; simpl;
    destruct (_event_waiter c) eqn:Hw; simpl; congruence.
Qed.

(** On a connection that is not closed and has no waiter, [get_event]
    waits on the future it makes; a second [get_event] before an event
    comes fails its assertion and changes nothing.  [close] then delivers
    [ConnectionClosed] to that future and to no other, and from then on
    [get_event] returns [None] at once, without waiting. *)
Theorem close_wakes_get_event c future future' :
  _closed c = false → _event_waiter c = None →
  get_event future c
  = (Ok (EventAwaits future), set_event_waiter (Some future) c)
  ∧ get_event future' (get_event future c).2
    = (Raise AssertionError, (get_event future c).2)
  ∧ delivered (close (get_event future c).2)
    = delivered c ++ [(future, ConnectionClosed)]
  ∧ get_event future' (close (get_event future c).2)
    = (Ok EventNone, close (get_event future c).2).
Proof.
  intros Hc Hw.
  assert (Hg : get_event future c
               = (Ok (EventAwaits future), set_event_waiter (Some future) c)).
  { unfold get_event. by rewrite Hw, Hc. }
  rewrite Hg. simpl. split; [done|]. split; [done|]. split.
  - rewrite close_delivered. simpl. by rewrite Hc.
  - unfold get_event. rewrite close_closed.
    assert (Hn : _event_waiter (close (set_event_waiter (Some future) c))
                 = None).
    { rewrite close_event_waiter. simpl. by rewrite Hc. }
    by rewrite Hn.
Qed.

(** ** The properties at concrete connections *)

(** Two datagrams at [selected_example]. *)
Lemma recvfrom_in_order_witness :
  size (_nominated selected_example) ≠ 0%nat
  ∧ _queue selected_example = []
  ∧ recvfrom_times 2
      (datagrams_received
         [("hello"%string, Some 1); ("world"%string, Some 1)]
         selected_example)
    = ([Returns ("hello"%string, Some 1); Returns ("world"%string, Some 1)],
       selected_example)
  ∧ recvfrom selected_example = (Suspended, selected_example).
Proof.
  split; [by vm_compute|]. split; [reflexivity|].
  apply (recvfrom_in_order
           [("hello"%string, Some 1); ("world"%string, Some 1)]
           selected_example);
    [by vm_compute|reflexivity].
Defined.

(** [selected_example] is closed while a receiver waits. *)
Lemma close_ends_transfers_witness :
  size (_nominated selected_example) ≠ 0%nat
  ∧ _queue selected_example = []
  ∧ (∃ p, p ∈ _protocols selected_example ∧ pid p ∉ lost selected_example)
  ∧ recvfrom selected_example = (Suspended, selected_example)
  ∧ ∃ q,
      recvfrom_resume (close selected_example)
      = (ConnectionError "Connection lost while receiving data",
         set_queue q (close selected_example)).
Proof.
  assert (Hp : ∃ p, p ∈ _protocols selected_example
                    ∧ pid p ∉ lost selected_example).
  { exists example_protocol. split; [by left|apply not_elem_of_empty]. }
  split; [by vm_compute|]. split; [reflexivity|]. split; [exact Hp|].
  apply (close_ends_transfers selected_example "hello"%string 1);
    [by vm_compute|reflexivity|exact Hp].
Defined.

(** Of the two remote candidates of [selection_example] with the
    foundation, the second one is selected. *)
Lemma set_selected_pair_selects_witness :
  _protocols selection_example = [] ++ example_protocol :: []
  ∧ (∀ q, q ∈ @nil StunProtocol →
          ¬ (component (local_candidate q) = 1
             ∧ foundation (local_candidate q)
               = "52e5b5a4c9a6f1d0c5b1a1f0e3d2c1b0"%string))
  ∧ component (local_candidate example_protocol) = 1
  ∧ foundation (local_candidate example_protocol)
    = "52e5b5a4c9a6f1d0c5b1a1f0e3d2c1b0"%string
  ∧ _remote_candidates selection_example
    = [example_remote_1] ++ example_remote_1b :: [example_remote_2]
  ∧ component example_remote_1b = 1
  ∧ foundation example_remote_1b = "9f3c1e7a"%string
  ∧ (∀ x, x ∈ [example_remote_2] →
          ¬ (component x = 1 ∧ foundation x = "9f3c1e7a"%string))
  ∧ (set_selected_pair 1 "52e5b5a4c9a6f1d0c5b1a1f0e3d2c1b0" "9f3c1e7a"
       selection_example).1 = Ok tt
  ∧ sendto "hello" 1
      (set_selected_pair 1 "52e5b5a4c9a6f1d0c5b1a1f0e3d2c1b0" "9f3c1e7a"
         selection_example).2
    = Returns (0%nat, "hello"%string, ("198.51.100.2"%string, 9)).
Proof.
  assert (H1 : ∀ q, q ∈ @nil StunProtocol →
                 ¬ (component (local_candidate q) = 1
                    ∧ foundation (local_candidate q)
                      = "52e5b5a4c9a6f1d0c5b1a1f0e3d2c1b0"%string)).
  { intros q Hq. by apply elem_of_nil in Hq. }
  assert (H2 : ∀ x, x ∈ [example_remote_2] →
                 ¬ (component x = 1 ∧ foundation x = "9f3c1e7a"%string)).
  { intros x ->%list_elem_of_singleton [_ H]. discriminate H. }
  split; [reflexivity|]. split; [exact H1|]. split; [reflexivity|].
  split; [reflexivity|]. split; [reflexivity|]. split; [reflexivity|].
  split; [reflexivity|]. split; [exact H2|].
  destruct (set_selected_pair_selects 1 "52e5b5a4c9a6f1d0c5b1a1f0e3d2c1b0"
              "9f3c1e7a" selection_example [] example_protocol []
              [example_remote_1] example_remote_1b [example_remote_2]
              "hello" eq_refl H1 eq_refl eq_refl eq_refl eq_refl eq_refl H2)
    as (Hok & Hsend & _).
  split; [exact Hok|exact Hsend].
Defined.

(** [get_event] and [close] at [fresh_connection]. *)
Lemma close_wakes_get_event_witness :
  _closed fresh_connection = false
  ∧ _event_waiter fresh_connection = None
  ∧ get_event 0%nat fresh_connection
    = (Ok (EventAwaits 0%nat), set_event_waiter (Some 0%nat) fresh_connection)
  ∧ get_event 1%nat (get_event 0%nat fresh_connection).2
    = (Raise AssertionError, (get_event 0%nat fresh_connection).2)
  ∧ delivered (close (get_event 0%nat fresh_connection).2)
    = delivered fresh_connection ++ [(0%nat, ConnectionClosed)]
  ∧ get_event 1%nat (close (get_event 0%nat fresh_connection).2)
    = (Ok EventNone, close (get_event 0%nat fresh_connection).2).
Proof.
  split; [reflexivity|]. split; [reflexivity|].
  apply (close_wakes_get_event fresh_connection 0%nat 1%nat); reflexivity.
Defined.

(** ** Host addresses *)




(** ** Connectivity checks *)

Lemma check_complete_sent r c : sent (check_complete r c) = sent c.
Proof. by destruct (check_complete_fields r c) as (ps & n & q & d & ->). Qed.

Lemma check_start_task_sent r c : sent (check_start_task r c) = sent c.
Proof.
  unfold check_start_task. by destruct (task <$> pairs c !! r) as [[]|].
Qed.

Section RoleConflictResolved.

Variable candidate_priority : Z → string → Z.
Variable candidate_eq : Candidate → Candidate → bool.
Variable stun_integrity_ok : string → string → bool.

Lemma check_incoming_pair_sent message protocol0 rc c :
  sent (check_incoming_pair candidate_eq message protocol0 rc c) = sent c.
Proof.
  unfold check_incoming_pair.
  destruct (_find_pair candidate_eq protocol0 rc c) as [r|];
    cbv beta iota zeta;
    repeat match goal with
           | |- context [if ?b then _ else _] => destruct b
           end;
    rewrite ?check_complete_sent; simpl;
    rewrite ?check_start_task_sent; done.
Qed.

Lemma check_incoming_sent message addr protocol0 rnd c :
  sent (check_incoming candidate_eq message addr protocol0 rnd c).2 = sent c.
Proof.
  unfold check_incoming.
  destruct (find _ _) as [rc|].
  - destruct (bool_decide _); [|done]. apply check_incoming_pair_sent.
  - destruct (PRIORITY _); [|done]. simpl.
    by rewrite check_incoming_pair_sent.
Qed.

Lemma accept_request_sent message addr protocol0 rnd c :
  sent (accept_request candidate_eq message addr protocol0 rnd c).2
  = sent c ++ [(pid protocol0, binding_response message addr c, addr)].
Proof.
  unfold accept_request. cbv zeta.
  destruct (_ && _); [done|]. by rewrite check_incoming_sent.
Qed.

(** What [check_start] awaits, when it awaits. *)
Lemma check_start_awaits r tid a request nominate a1 :
  check_start candidate_priority r tid a
  = (AwaitsResponse request nominate, a1) →
  ∃ pr key,
    pairs (connection a) !! r = Some pr
    ∧ remote_password a = Some key
    ∧ nominate = ice_controlling (connection a) && negb (remote_is_lite a)
    ∧ request
      = add_message_integrity key
          (build_request candidate_priority (set_state IN_PROGRESS pr)
             nominate tid (connection a))
    ∧ a1 = set_connection (check_state r IN_PROGRESS (connection a)) a.
Proof.
  assert (Hl : pairs (check_state r IN_PROGRESS (connection a)) !! r
               = set_state IN_PROGRESS <$> pairs (connection a) !! r)
    by apply list_lookup_alter_eq.
  unfold check_start. cbv zeta. rewrite Hl.
  destruct (pairs (connection a) !! r) as [pr|] eqn:Hpr;
    cbn [fmap option_fmap option_map]; [|done].
  destruct (remote_password a) as [key|] eqn:Hkey; [|done].
  intros [= <- <- <-]. by exists pr, key.
Qed.

(** The role after [check_start_response] on a response or on an error
    other than a role conflict. *)
Lemma check_finish_role r s a :
  ice_controlling (connection (check_finish r s a))
  = ice_controlling (connection a).
Proof. unfold check_finish. simpl. by rewrite check_complete_role. Qed.

Lemma check_start_role r tid a :
  ice_controlling (connection (check_start candidate_priority r tid a).2)
  = ice_controlling (connection a).
Proof.
  unfold check_start. cbv zeta.
  destruct (pairs _ !! r); [|done]. by destruct (remote_password a).
Qed.

Lemma check_start_response_role r request nominate response addr tid a :
  ice_controlling
    (connection
       (check_start_response candidate_priority r request nominate
          (Response response addr) tid a).2)
  = ice_controlling (connection a).
Proof.
  unfold check_start_response.
  destruct (pairs (connection a) !! r) as [pr|]; [|done].
  destruct (negb _); [cbn [snd]; by rewrite check_finish_role|].
  destruct (_ || _); [cbn [snd]; by rewrite check_finish_role|].
  destruct (_ && _); [|cbn [snd]; by rewrite check_finish_role].
  cbv zeta.
  change (remote_password
            (set_nominating (_nominating a ∪ {[pair_component pr]}) a))
    with (remote_password a).
  by destruct (remote_password a).
Qed.

(** A role conflict is resolved by one exchange.  The agent [a] starts a
    check while it has the role that its peer [b] has; the request
    reaches [b] and passes its authentication, and [a] gets the answer of
    [b] back: as the [stun.TransactionError] of an error response, or as
    the response.  Then exactly one of the two is controlling: the peer,
    when its tie-breaker is at least the one of [a], and [a] otherwise.
    When [b] has answered with the error, [a] retries the check of the
    same pair in its new role. *)
Theorem role_conflict_resolved
    r tid tid' a request nominate a1 b addr protocol0 raw_data rnd :
  check_start candidate_priority r tid a
  = (AwaitsResponse request nominate, a1) →
  ice_controlling (connection a) = ice_controlling b →
  authenticated stun_integrity_ok request raw_data b = true →
  ∃ reply,
    last (sent (request_received candidate_eq stun_integrity_ok request addr
                  protocol0 raw_data rnd b).2)
    = Some (pid protocol0, reply, addr)
    ∧ ice_controlling
        (request_received candidate_eq stun_integrity_ok request addr
           protocol0 raw_data rnd b).2
      = (_tie_breaker (connection a) <=? _tie_breaker b)
    ∧ ∀ from,
        ice_controlling
          (connection
             (check_start_response candidate_priority r request nominate
                (match message_class reply with
                 | ERROR => TransactionError (Some reply)
                 | _ => Response reply from
                 end) tid' a1).2)
        = negb (_tie_breaker (connection a) <=? _tie_breaker b)
        ∧ (message_class reply = ERROR →
           ∃ request' nominate',
             (check_start_response candidate_priority r request nominate
                (TransactionError (Some reply)) tid' a1).1
             = AwaitsResponse request' nominate'
             ∧ transaction_id request' = tid'
             ∧ (if ice_controlling (connection a)
                then ICE_CONTROLLED (attributes request')
                else ICE_CONTROLLING (attributes request'))
               = Some (_tie_breaker (connection a))).
Proof.
  intros Hstart Hrole Hauth.
  destruct (check_start_awaits r tid a request nominate a1 Hstart)
    as (pr & key & Hpr & Hkey & Hnom & Hreq & Ha1).
  assert (Hpr1 : pairs (connection a1) !! r = Some (set_state IN_PROGRESS pr)).
  { rewrite Ha1. simpl. unfold check_state, update_pair. simpl.
    by rewrite list_lookup_alter_eq, Hpr. }
  assert (Hrole1 : ice_controlling (connection a1)
                   = ice_controlling (connection a)) by (by rewrite Ha1).
  assert (Htb1 : _tie_breaker (connection a1) = _tie_breaker (connection a))
    by (by rewrite Ha1).
  assert (Hkey1 : remote_password a1 = Some key) by (by rewrite Ha1).
  assert (Hm : message_method request = BINDING) by (by rewrite Hreq).
  assert (Hcing : ICE_CONTROLLING (attributes request)
                  = if ice_controlling (connection a)
                    then Some (_tie_breaker (connection a)) else None)
    by (by rewrite Hreq).
  assert (Hced : ICE_CONTROLLED (attributes request)
                 = if ice_controlling (connection a)
                   then None else Some (_tie_breaker (connection a)))
    by (by rewrite Hreq).
  assert (Hlookup : ∀ role,
    pairs (check_state r IN_PROGRESS
             (connection (set_connection (switch_role role (connection a1))
                            a1))) !! r
    = set_state IN_PROGRESS <$> Some (set_state IN_PROGRESS pr)).
  { intros role. rewrite <- Hpr1. apply list_lookup_alter_eq. }
  (* the retry of [a] after a role conflict *)
  assert (Hretry : ∀ reply reason,
    ERROR_CODE (attributes reply) = Some (487, reason) →
    ice_controlling
      (connection
         (check_start_response candidate_priority r request nominate
            (TransactionError (Some reply)) tid' a1).2)
    = negb (ice_controlling (connection a))
    ∧ ∃ request' nominate',
        (check_start_response candidate_priority r request nominate
           (TransactionError (Some reply)) tid' a1).1
        = AwaitsResponse request' nominate'
        ∧ transaction_id request' = tid'
        ∧ (if ice_controlling (connection a)
           then ICE_CONTROLLED (attributes request')
           else ICE_CONTROLLING (attributes request'))
          = Some (_tie_breaker (connection a))).
  { intros reply reason Hcode. unfold check_start_response, is_role_conflict.
    rewrite Hcode. simpl Z.eqb. cbv iota. cbv zeta.
    rewrite Hcing, Hced.
    destruct (ice_controlling (connection a)) eqn:Hc.
    - split; [by rewrite check_start_role|].
      unfold check_start. cbv zeta.
      rewrite (Hlookup false). cbn [fmap option_fmap option_map].
      change (remote_password (set_connection (switch_role false
                (connection a1)) a1)) with (remote_password a1).
      rewrite Hkey1.
      eexists _, _. split; [reflexivity|]. simpl. by rewrite Htb1.
    - split; [by rewrite check_start_role|].
      unfold check_start. cbv zeta.
      rewrite (Hlookup true). cbn [fmap option_fmap option_map].
      change (remote_password (set_connection (switch_role true
                (connection a1)) a1)) with (remote_password a1).
      rewrite Hkey1.
      eexists _, _. split; [reflexivity|]. simpl. by rewrite Htb1. }
  unfold request_received.
  rewrite (bool_decide_eq_true_2 _ Hm), Hauth. simpl negb. cbv iota.
  rewrite Hcing, Hced, <- Hrole.
  destruct (ice_controlling (connection a)) eqn:Hc.
  - (* both controlling *)
    destruct (_tie_breaker b >=? _tie_breaker (connection a)) eqn:Htb.
    + assert (Hle : (_tie_breaker (connection a) <=? _tie_breaker b) = true)
        by lia.
      rewrite Hle.
      eexists. split.
      { unfold respond_error, send_stun. simpl. by rewrite last_snoc. }
      split; [simpl; by rewrite <- Hrole|].
      intros from. simpl message_class. cbv iota.
      destruct (Hretry
        {| message_method := message_method request; message_class := ERROR;
           transaction_id := transaction_id request;
           attributes :=
             {| USERNAME := None; PRIORITY := None; ICE_CONTROLLING := None;
                ICE_CONTROLLED := None; USE_CANDIDATE := false;
                XOR_MAPPED_ADDRESS := None;
                ERROR_CODE := Some (487, "Role Conflict"%string) |};
           integrity_key := Some (local_password b) |}
        "Role Conflict"%string eq_refl) as [Hr Hn].
      split; [exact Hr|]. intros _. exact Hn.
    + assert (Hle : (_tie_breaker (connection a) <=? _tie_breaker b) = false)
        by lia.
      rewrite Hle.
      exists (binding_response request addr (switch_role false b)). split.
      { rewrite accept_request_sent. by rewrite last_snoc. }
      split; [by rewrite accept_request_role|].
      intros from. simpl message_class. cbv iota.
      split; [|done].
      by rewrite check_start_response_role, Hrole1.
  - (* both controlled *)
    destruct (_tie_breaker b <? _tie_breaker (connection a)) eqn:Htb.
    + assert (Hle : (_tie_breaker (connection a) <=? _tie_breaker b) = false)
        by lia.
      rewrite Hle.
      eexists. split.
      { unfold respond_error, send_stun. simpl. by rewrite last_snoc. }
      split; [simpl; by rewrite <- Hrole|].
      intros from. simpl message_class. cbv iota.
      destruct (Hretry
        {| message_method := message_method request; message_class := ERROR;
           transaction_id := transaction_id request;
           attributes :=
             {| USERNAME := None; PRIORITY := None; ICE_CONTROLLING := None;
                ICE_CONTROLLED := None; USE_CANDIDATE := false;
                XOR_MAPPED_ADDRESS := None;
                ERROR_CODE := Some (487, "Role Conflict"%string) |};
           integrity_key := Some (local_password b) |}
        "Role Conflict"%string eq_refl) as [Hr Hn].
      split; [exact Hr|]. intros _. exact Hn.
    + assert (Hle : (_tie_breaker (connection a) <=? _tie_breaker b) = true)
        by lia.
      rewrite Hle.
      exists (binding_response request addr (switch_role true b)). split.
      { rewrite accept_request_sent. by rewrite last_snoc. }
      split; [by rewrite accept_request_role|].
      intros from. simpl message_class. cbv iota.
      split; [|done].
      by rewrite check_start_response_role, Hrole1.
Qed.

End RoleConflictResolved.

(** ** The end of a check *)

(** [check_complete] on a pair that has not succeeded. *)
Lemma check_complete_not_succeeded r c pr :
  pairs c !! r = Some pr → state pr ≠ SUCCEEDED →
  check_complete r c = check_complete_failed (update_pair r (set_task None) c).
Proof.
  intros Hr Hst. unfold check_complete.
  assert (Hr0 : pairs (update_pair r (set_task None) c) !! r
                = Some (set_task None pr)).
  { simpl. by rewrite list_lookup_alter_eq, Hr. }
  rewrite Hr0. cbv beta iota zeta.
  change (state (set_task None pr)) with (state pr).
  by rewrite bool_decide_eq_false_2.
Qed.

(** [check_complete] on a pair that has succeeded: the nominated map, and
    the pair itself. *)
Lemma check_complete_succeeded r c pr :
  pairs c !! r = Some pr → state pr = SUCCEEDED →
  _nominated (check_complete r c)
  = (if nominated pr then <[pair_component pr := r]> (_nominated c)
     else _nominated c)
  ∧ pairs (check_complete r c) !! r = Some (set_task None pr).
Proof.
  intros Hr Hst. unfold check_complete.
  assert (Hr0 : pairs (update_pair r (set_task None) c) !! r
                = Some (set_task None pr)).
  { simpl. by rewrite list_lookup_alter_eq, Hr. }
  rewrite Hr0. cbv beta iota zeta.
  change (state (set_task None pr)) with (state pr).
  change (nominated (set_task None pr)) with (nominated pr).
  change (pair_component (set_task None pr)) with (pair_component pr).
  change (pair_local_candidate (set_task None pr))
    with (pair_local_candidate pr).
  rewrite bool_decide_eq_true_2 by done.
  set (c0 := update_pair r (set_task None) c) in *.
  set (c1 := if nominated pr then _ else c0).
  assert (H1 : _nominated c1
               = (if nominated pr
                  then <[pair_component pr := r]> (_nominated c)
                  else _nominated c)
               ∧ pairs c1 !! r = Some (set_task None pr)).
  { unfold c1. destruct (nominated pr); [|done]. split.
    - match goal with
      | |- context [foldl (fail_component_step ?k) ?d ?l] =>
          destruct (fail_component_loop_fields k l d) as [ps ->]
      end.
      done.
    - apply fail_component_loop_other; [exact Hr0|].
      right. change (state (set_task None pr)) with (state pr).
      rewrite Hst. by split. }
  destruct H1 as [Hn1 Hp1]. clearbody c1.
  destruct (_ =? _)%nat.
  - destruct (_check_list_done c1); simpl; by rewrite Hn1.
  - match goal with
    | |- context [foldl (unfreeze_foundation_step ?f) ?d ?l] =>
        pose proof (unfreeze_foundation_loop_other f l d r (set_task None pr)
                      Hp1) as Hp3;
        destruct (unfreeze_foundation_loop_fields f l d) as [ps3 Hps3]
    end.
    rewrite Hps3 in *.
    match goal with
    | |- context [check_complete_failed ?d] =>
        destruct (check_complete_failed_fields d) as (dn & q & ->)
    end.
    simpl. split; [done|]. apply Hp3.
    change (state (set_task None pr)) with (state pr). by rewrite Hst.
Qed.

Section CheckOutcome.

Variable candidate_priority : Z → string → Z.

(** A check that fails touches its own pair and nothing else.  When the
    transaction ends with an error other than a role conflict or with a
    timeout, or when the response comes from another address than the one
    of the remote candidate, [check_start] returns without a further
    request; the pair is Failed and has no task, and its flags are as
    they were; no pair is nominated, and the role, the check list and the
    other pairs are as before.  [ICE_FAILED] may be posted, which it is
    only when the check list was not done and every pair of the check
    list is then Succeeded or Failed. *)
Theorem check_failure_isolated r request nominate result tid a pr :
  pairs (connection a) !! r = Some pr →
  match result with
  | TransactionError response => is_role_conflict response = false
  | Response _ addr => addr ≠ remote_addr pr
  end →
  ∃ posted : bool,
    check_start_response candidate_priority r request nominate result tid a
    = (CheckReturns,
       set_connection
         ((if posted
           then λ c, set_check_list_done true
                       (put_check_list_state ICE_FAILED c)
           else λ c, c)
            (update_pair r (λ p, set_task None (set_state FAILED p))
               (connection a)))
         a)
    ∧ (posted = true →
       _check_list_done (connection a) = false
       ∧ ∀ q, q ∈ _check_list (connection a) →
              pair_has_state
                (update_pair r (λ p, set_task None (set_state FAILED p))
                   (connection a)) SUCCEEDED q
              || pair_has_state
                   (update_pair r (λ p, set_task None (set_state FAILED p))
                      (connection a)) FAILED q = true).
Proof.
  intros Hr Hres.
  assert (Hfin : ∃ posted : bool,
    check_finish r FAILED a
    = set_connection
        ((if posted
          then λ c, set_check_list_done true
                      (put_check_list_state ICE_FAILED c)
          else λ c, c)
           (update_pair r (λ p, set_task None (set_state FAILED p))
              (connection a)))
        a
    ∧ (posted = true →
       _check_list_done (connection a) = false
       ∧ ∀ q, q ∈ _check_list (connection a) →
              pair_has_state
                (update_pair r (λ p, set_task None (set_state FAILED p))
                   (connection a)) SUCCEEDED q
              || pair_has_state
                   (update_pair r (λ p, set_task None (set_state FAILED p))
                      (connection a)) FAILED q = true)).
  { unfold check_finish.
    rewrite (check_complete_not_succeeded r _ (set_state FAILED pr)).
    2:{ unfold check_state, update_pair. simpl.
        by rewrite list_lookup_alter_eq, Hr. }
    2:{ done. }
    assert (Hup : update_pair r (set_task None)
                    (check_state r FAILED (connection a))
                  = update_pair r (λ p, set_task None (set_state FAILED p))
                      (connection a)).
    { unfold check_state, update_pair. simpl.
      by rewrite list_alter_alter_eq. }
    rewrite Hup.
    destruct (check_complete_failed_cases
                (update_pair r (λ p, set_task None (set_state FAILED p))
                   (connection a)))
      as [->|(Hd & Hall & _ & ->)].
    - by exists false.
    - exists true. split; [done|]. intros _. split; [exact Hd|].
      intros q Hq. rewrite forallb_forall in Hall. apply Hall.
      by apply list_elem_of_In. }
  destruct Hfin as (posted & Hfin & Hposted).
  exists posted. split; [|exact Hposted].
  unfold check_start_response. destruct result as [response addr|response].
  - rewrite Hr. rewrite (bool_decide_eq_false_2 _ Hres). simpl negb.
    cbv iota. by rewrite Hfin.
  - rewrite Hres. by rewrite Hfin.
Qed.

(** A check that succeeds, and what it nominates.  The response has come
    from the address of the remote candidate.  When the check nominates
    (a controlling agent whose peer is not lite) or the peer has
    nominated the pair, the pair is Succeeded and nominated and becomes
    the nominated pair of its component.  Otherwise a controlling agent
    that is not nominating for the component yet sends one more request,
    with USE-CANDIDATE and the integrity key of the remote password, and
    records that it is nominating for the component; and any other agent
    marks the pair Succeeded, sends nothing, and leaves the nominated
    map as it was unless the pair carried the nominated flag already. *)
Theorem check_success_nominates r request nominate response tid a pr :
  pairs (connection a) !! r = Some pr →
  (nominate || remote_nominated pr = true →
   (check_start_response candidate_priority r request nominate
      (Response response (remote_addr pr)) tid a).1 = CheckReturns
   ∧ _nominated
       (connection
          (check_start_response candidate_priority r request nominate
             (Response response (remote_addr pr)) tid a).2)
     = <[pair_component pr := r]> (_nominated (connection a))
   ∧ pairs
       (connection
          (check_start_response candidate_priority r request nominate
             (Response response (remote_addr pr)) tid a).2) !! r
     = Some (set_task None
               (set_state SUCCEEDED (set_pair_nominated true pr))))
  ∧ (nominate || remote_nominated pr = false →
     ice_controlling (connection a) = true →
     pair_component pr ∉ _nominating a →
     ∀ key, remote_password a = Some key →
       ∃ request',
         check_start_response candidate_priority r request nominate
           (Response response (remote_addr pr)) tid a
         = (AwaitsNomination request',
            set_nominating (_nominating a ∪ {[ pair_component pr ]}) a)
         ∧ USE_CANDIDATE (attributes request') = true
         ∧ ICE_CONTROLLING (attributes request')
           = Some (_tie_breaker (connection a))
         ∧ integrity_key request' = Some key)
  ∧ (nominate || remote_nominated pr = false →
     ice_controlling (connection a) = false
     ∨ pair_component pr ∈ _nominating a →
     (check_start_response candidate_priority r request nominate
        (Response response (remote_addr pr)) tid a).1 = CheckReturns
     ∧ _nominated
         (connection
            (check_start_response candidate_priority r request nominate
               (Response response (remote_addr pr)) tid a).2)
       = (if nominated pr
          then <[pair_component pr := r]> (_nominated (connection a))
          else _nominated (connection a))
     ∧ pairs
         (connection
            (check_start_response candidate_priority r request nominate
               (Response response (remote_addr pr)) tid a).2) !! r
       = Some (set_task None (set_state SUCCEEDED pr))).
Proof.
  intros Hr. unfold check_start_response. rewrite Hr.
  rewrite bool_decide_eq_true_2 by done. simpl negb. cbv iota.
  split; [|split].
  - intros ->. cbn [fst snd]. split; [done|].
    unfold check_finish. cbn [connection set_connection].
    destruct (check_complete_succeeded r
                (check_state r SUCCEEDED
                   (update_pair r (set_pair_nominated true) (connection a)))
                (set_state SUCCEEDED (set_pair_nominated true pr)))
      as [Hn Hp].
    { unfold check_state, update_pair. simpl.
      by rewrite !list_lookup_alter_eq, Hr. }
    { done. }
    split; [exact Hn|exact Hp].
  - intros -> Hc Hnin key Hkey. rewrite Hc.
    rewrite (bool_decide_eq_false_2 _ Hnin). simpl. rewrite Hkey.
    eexists. split; [reflexivity|]. simpl. by rewrite Hc.
  - intros -> Hor.
    assert (Hcond : ice_controlling (connection a)
                    && negb (bool_decide (pair_component pr ∈ _nominating a))
                    = false).
    { destruct Hor as [->|Hin]; [done|].
      rewrite (bool_decide_eq_true_2 _ Hin). apply andb_false_r. }
    rewrite Hcond. cbn [fst snd]. split; [done|].
    unfold check_finish. cbn [connection set_connection].
    destruct (check_complete_succeeded r
                (check_state r SUCCEEDED (connection a))
                (set_state SUCCEEDED pr))
      as [Hn Hp].
    { unfold check_state, update_pair. simpl.
      by rewrite list_lookup_alter_eq, Hr. }
    { done. }
    split; [exact Hn|exact Hp].
Qed.

End CheckOutcome.

(** ** Consent freshness *)

(** The turns of [query_consent] from a count of [failures]: the task
    closes the connection exactly when the failures that come first
    complete the count, or there are [CONSENT_FAILURES] in a row later
    on; until then it leaves the connection as it is. *)
Lemma query_consent_results_spec results failures c :
  (failures < CONSENT_FAILURES)%nat →
  ((query_consent_results failures results c).1 = None
   ↔ (∃ failed after,
        results = failed ++ after
        ∧ (length failed + failures = CONSENT_FAILURES)%nat
        ∧ Forall consent_failed failed)
     ∨ consent_expired results)
  ∧ (query_consent_results failures results c).2
    = match (query_consent_results failures results c).1 with
      | None => close (set_query_consent_task None c)
      | Some _ => c
      end.
Proof.
  unfold consent_expired, CONSENT_FAILURES.
  revert failures. induction results as [|result results IH];
    intros failures Hf.
  - simpl. split; [|done]. split; [done|].
    intros [(failed & after & Heq & Hlen & _)
           |(before & failed & after & Heq & Hlen & _)].
    + symmetry in Heq. apply app_eq_nil in Heq as [-> _].
      simpl in Hlen. lia.
    + symmetry in Heq. apply app_eq_nil in Heq as [_ Heq].
      apply app_eq_nil in Heq as [-> _]. simpl in Hlen. lia.
  - cbn [query_consent_results]. unfold query_consent_result, CONSENT_FAILURES.
    destruct result as [response addr|response]; cbv zeta.
    + (* a response: the count starts again *)
      change (6 <=? 0)%nat with false. cbv iota.
      destruct (IH 0%nat ltac:(lia)) as [IHn IHs].
      split; [|exact IHs].
      rewrite IHn. split.
      * intros [(failed & after & -> & Hlen & Hall)
               |(before & failed & after & -> & Hlen & Hall)].
        -- right. exists [Response response addr], failed, after.
           split; [done|]. split; [lia|done].
        -- right. exists (Response response addr :: before), failed, after.
           done.
      * intros [(failed & after & Heq & Hlen & Hall)
               |(before & failed & after & Heq & Hlen & Hall)].
        -- destruct failed as [|x failed]; [simpl in Hlen; lia|].
           simpl in Heq. injection Heq as <- _.
           apply Forall_cons in Hall as [[] _].
        -- destruct before as [|x before].
           ++ destruct failed as [|x failed]; [simpl in Hlen; lia|].
              simpl in Heq. injection Heq as <- _.
              apply Forall_cons in Hall as [[] _].
           ++ simpl in Heq. injection Heq as _ ->.
              right. by exists before, failed, after.
    + (* a failure *)
      destruct (Nat.leb_spec 6 (S failures)) as [Hle|Hlt]; cbv iota.
      * split; [|done]. split; [|done]. intros _. left.
        exists [TransactionError response], results.
        split; [done|]. split; [simpl; lia|].
        by apply Forall_cons.
      * destruct (IH (S failures) ltac:(lia)) as [IHn IHs].
        split; [|exact IHs].
        rewrite IHn. split.
        -- intros [(failed & after & -> & Hlen & Hall)
                  |(before & failed & after & -> & Hlen & Hall)].
           ++ left. exists (TransactionError response :: failed), after.
              split; [done|]. split; [simpl; lia|].
              by apply Forall_cons.
           ++ right.
              exists (TransactionError response :: before), failed, after.
              done.
        -- intros [(failed & after & Heq & Hlen & Hall)
                  |(before & failed & after & Heq & Hlen & Hall)].
           ++ destruct failed as [|x failed]; [simpl in Hlen; lia|].
              simpl in Heq. injection Heq as _ ->.
              apply Forall_cons in Hall as [_ Hall].
              left. exists failed, after.
              split; [done|]. split; [simpl in Hlen; lia|done].
           ++ destruct before as [|x before].
              ** destruct failed as [|x failed]; [simpl in Hlen; lia|].
                 simpl in Heq. injection Heq as _ ->.
                 apply Forall_cons in Hall as [_ Hall].
                 left.
                 exists (take (5 - failures) failed),
                        (drop (5 - failures) failed ++ after).
                 split; [by rewrite app_assoc, take_drop|].
                 split.
                 { rewrite length_take. simpl in Hlen. lia. }
                 by apply Forall_take.
              ** simpl in Heq. injection Heq as _ ->.
                 right. by exists before, failed, after.
Qed.

(** Consent expires after [CONSENT_FAILURES] failures in a row and not
    before.  Over the transactions of the consent task, counted from no
    failure: the task closes the connection and returns exactly when six
    of them in a row have failed, whatever came before; the connection
    is then closed, and [ConnectionClosed] is emitted unless it was
    closed already.  As long as this has not happened, the task changes
    nothing of the connection. *)
Theorem consent_expiry results c :
  ((query_consent_results 0 results c).1 = None ↔ consent_expired results)
  ∧ (consent_expired results →
     _closed (query_consent_results 0 results c).2 = true
     ∧ _nominated (query_consent_results 0 results c).2 = ∅
     ∧ emitted (query_consent_results 0 results c).2
       = (if _closed c then emitted c
          else emitted c ++ [ConnectionClosed]))
  ∧ (¬ consent_expired results →
     (query_consent_results 0 results c).2 = c).
Proof.
  destruct (query_consent_results_spec results 0 c) as [Hn Hs].
  { unfold CONSENT_FAILURES. lia. }
  assert (Hiff : (query_consent_results 0 results c).1 = None
                 ↔ consent_expired results).
  { rewrite Hn. split; [|by right].
    intros [(failed & after & -> & Hlen & Hall)|H]; [|done].
    exists [], failed, after. split; [done|]. split; [lia|done]. }
  split; [exact Hiff|]. split.
  - intros Hex. apply Hiff in Hex. rewrite Hs, Hex.
    split; [apply close_closed|]. split; [apply close_nominated|].
    by rewrite close_emitted.
  - intros Hno. rewrite Hs.
    destruct ((query_consent_results 0 results c).1) eqn:E; [done|].
    exfalso. apply Hno. by apply Hiff.
Qed.

(** ** Construction *)

(** [__init__] raises [ValueError] exactly when a username or a password
    is given that the validation refuses, or when the transport policy
    is RELAY and neither a STUN nor a TURN server is given; the generated
    credentials are not validated.  Otherwise the connection has the
    role and the credentials asked for, the components 1 to
    [components] (none, when [components] is not positive), no pair and
    no candidate, and it is not closed: data can neither be sent nor
    received yet. *)
Theorem init_validates
    ice_controlling0 components stun_server turn_server transport_policy
    local_username0 local_password0 random_username random_password
    tie_breaker :
  match
    __init__ ice_controlling0 components stun_server turn_server
      transport_policy local_username0 local_password0 random_username
      random_password tie_breaker
  with
  | Ok a =>
      (∀ u, local_username0 = Some u → validate_username u = Ok tt)
      ∧ (∀ p, local_password0 = Some p → validate_password p = Ok tt)
      ∧ ¬ (stun_server = None ∧ turn_server = None
           ∧ transport_policy = RELAY)
      ∧ ice_controlling (connection a) = ice_controlling0
      ∧ local_username (connection a)
        = default random_username local_username0
      ∧ local_password (connection a)
        = default random_password local_password0
      ∧ (∀ k, k ∈ _components (connection a) ↔ 1 ≤ k ≤ components)
      ∧ _closed (connection a) = false
      ∧ _check_list (connection a) = []
      ∧ _local_candidates (connection a) = []
      ∧ remote_password a = None
      ∧ (∀ data comp,
           sendto data comp (connection a)
           = ConnectionError "Cannot send data, not connected")
      ∧ recvfrom (connection a)
        = (ConnectionError "Cannot receive data, not connected",
           connection a)
  | Raise e =>
      (∃ u, local_username0 = Some u ∧ validate_username u = Raise e)
      ∨ (∃ p, local_password0 = Some p ∧ validate_password p = Raise e)
      ∨ (stun_server = None ∧ turn_server = None
         ∧ transport_policy = RELAY
         ∧ e = ValueError
                 "Relay transport policy requires a STUN and/or TURN server.")
  end.
Proof.
  unfold __init__.
  destruct local_username0 as [u|]; simpl.
  - destruct (validate_username u) as [[]|e] eqn:Hu;
      [|left; by exists u].
    destruct local_password0 as [p|]; simpl.
    + destruct (validate_password p) as [[]|e] eqn:Hp;
        [|right; left; by exists p].
      destruct (bool_decide (stun_server = None)) eqn:H1;
        destruct (bool_decide (turn_server = None)) eqn:H2;
        destruct (bool_decide (transport_policy = RELAY)) eqn:H3; simpl;
        try apply bool_decide_eq_true in H1;
        try apply bool_decide_eq_true in H2;
        try apply bool_decide_eq_true in H3;
        try apply bool_decide_eq_false in H1;
        try apply bool_decide_eq_false in H2;
        try apply bool_decide_eq_false in H3;
        try (right; right; done);
        (split; [by intros ? [= <-]|]); (split; [by intros ? [= <-]|]);
        (split; [tauto|]); repeat (split; [done|]);
        (split; [intros k; rewrite elem_of_list_to_set, elem_of_seqZ; lia|]);
        repeat (split; [done|]); done.
    + destruct (bool_decide (stun_server = None)) eqn:H1;
        destruct (bool_decide (turn_server = None)) eqn:H2;
        destruct (bool_decide (transport_policy = RELAY)) eqn:H3; simpl;
        try apply bool_decide_eq_true in H1;
        try apply bool_decide_eq_true in H2;
        try apply bool_decide_eq_true in H3;
        try apply bool_decide_eq_false in H1;
        try apply bool_decide_eq_false in H2;
        try apply bool_decide_eq_false in H3;
        try (right; right; done);
        (split; [by intros ? [= <-]|]); (split; [by intros ? [=]|]);
        (split; [tauto|]); repeat (split; [done|]);
        (split; [intros k; rewrite elem_of_list_to_set, elem_of_seqZ; lia|]);
        repeat (split; [done|]); done.
  - destruct local_password0 as [p|]; simpl.
    + destruct (validate_password p) as [[]|e] eqn:Hp;
        [|right; left; by exists p].
      destruct (bool_decide (stun_server = None)) eqn:H1;
        destruct (bool_decide (turn_server = None)) eqn:H2;
        destruct (bool_decide (transport_policy = RELAY)) eqn:H3; simpl;
        try apply bool_decide_eq_true in H1;
        try apply bool_decide_eq_true in H2;
        try apply bool_decide_eq_true in H3;
        try apply bool_decide_eq_false in H1;
        try apply bool_decide_eq_false in H2;
        try apply bool_decide_eq_false in H3;
        try (right; right; done);
        (split; [by intros ? [=]|]); (split; [by intros ? [= <-]|]);
        (split; [tauto|]); repeat (split; [done|]);
        (split; [intros k; rewrite elem_of_list_to_set, elem_of_seqZ; lia|]);
        repeat (split; [done|]); done.
    + destruct (bool_decide (stun_server = None)) eqn:H1;
        destruct (bool_decide (turn_server = None)) eqn:H2;
        destruct (bool_decide (transport_policy = RELAY)) eqn:H3; simpl;
        try apply bool_decide_eq_true in H1;
        try apply bool_decide_eq_true in H2;
        try apply bool_decide_eq_true in H3;
        try apply bool_decide_eq_false in H1;
        try apply bool_decide_eq_false in H2;
        try apply bool_decide_eq_false in H3;
        try (right; right; done);
        (split; [by intros ? [=]|]); (split; [by intros ? [=]|]);
        (split; [tauto|]); repeat (split; [done|]);
        (split; [intros k; rewrite elem_of_list_to_set, elem_of_seqZ; lia|]);
        repeat (split; [done|]); done.
Qed.

(** ** The properties of the checks at a concrete agent *)


(** Two controlling agents with the same tie-breaker: [example_agent] checks its first pair, and its request reaches [fresh_connection]. *)
Lemma role_conflict_resolved_witness :
  (check_start example_candidate_priority 0%nat "a1b2c3d4e5f6"%string example_agent
  = (AwaitsResponse example_check_request true, (set_connection (check_state 0 IN_PROGRESS unfreeze_example) example_agent)))
  ∧   (ice_controlling (connection example_agent) = ice_controlling fresh_connection)
  ∧   (authenticated example_stun_integrity_ok example_check_request "datagram"%string fresh_connection = true)
  ∧ (∃ reply,
    last (sent (request_received example_candidate_eq example_stun_integrity_ok example_check_request ("192.0.2.1"%string, 9)
                  example_protocol_2 "datagram"%string "qzjxkvwbnm"%string fresh_connection).2)
    = Some (pid example_protocol_2, reply, ("192.0.2.1"%string, 9))
    ∧ ice_controlling
        (request_received example_candidate_eq example_stun_integrity_ok example_check_request ("192.0.2.1"%string, 9)
           example_protocol_2 "datagram"%string "qzjxkvwbnm"%string fresh_connection).2
      = (_tie_breaker (connection example_agent) <=? _tie_breaker fresh_connection)
    ∧ ∀ from,
        ice_controlling
          (connection
             (check_start_response example_candidate_priority 0%nat example_check_request true
                (match message_class reply with
                 | ERROR => TransactionError (Some reply)
                 | _ => Response reply from
                 end) "0f1e2d3c4b5a"%string (set_connection (check_state 0 IN_PROGRESS unfreeze_example) example_agent)).2)
        = negb (_tie_breaker (connection example_agent) <=? _tie_breaker fresh_connection)
        ∧ (message_class reply = ERROR →
           ∃ request' nominate',
             (check_start_response example_candidate_priority 0%nat example_check_request true
                (TransactionError (Some reply)) "0f1e2d3c4b5a"%string (set_connection (check_state 0 IN_PROGRESS unfreeze_example) example_agent)).1
             = AwaitsResponse request' nominate'
             ∧ transaction_id request' = "0f1e2d3c4b5a"%string
             ∧ (if ice_controlling (connection example_agent)
                then ICE_CONTROLLED (attributes request')
                else ICE_CONTROLLING (attributes request'))
               = Some (_tie_breaker (connection example_agent)))).
Proof.
  split; [reflexivity|].
  split; [reflexivity|].
  split; [reflexivity|].
  apply (role_conflict_resolved example_candidate_priority example_candidate_eq example_stun_integrity_ok 0%nat "a1b2c3d4e5f6"%string "0f1e2d3c4b5a"%string example_agent example_check_request true (set_connection (check_state 0 IN_PROGRESS unfreeze_example) example_agent) fresh_connection ("192.0.2.1"%string, 9) example_protocol_2 "datagram"%string "qzjxkvwbnm"%string);
    reflexivity.
Defined.

(** The transaction of the first check of [example_agent] times out. *)
Lemma check_failure_isolated_witness :
  (pairs (connection example_agent) !! 0%nat = Some (new_pair example_protocol example_remote_1))
  ∧   (match (TransactionError None) with
  | TransactionError response => is_role_conflict response = false
  | Response _ addr => addr ≠ remote_addr (new_pair example_protocol example_remote_1)
  end)
  ∧ (∃ posted : bool,
    check_start_response example_candidate_priority 0%nat example_check_request true (TransactionError None) "0f1e2d3c4b5a"%string example_agent
    = (CheckReturns,
       set_connection
         ((if posted
           then λ c, set_check_list_done true
                       (put_check_list_state ICE_FAILED c)
           else λ c, c)
            (update_pair 0%nat (λ p, set_task None (set_state FAILED p))
               (connection example_agent)))
         example_agent)
    ∧ (posted = true →
       _check_list_done (connection example_agent) = false
       ∧ ∀ q, q ∈ _check_list (connection example_agent) →
              pair_has_state
                (update_pair 0%nat (λ p, set_task None (set_state FAILED p))
                   (connection example_agent)) SUCCEEDED q
              || pair_has_state
                   (update_pair 0%nat (λ p, set_task None (set_state FAILED p))
                      (connection example_agent)) FAILED q = true)).
Proof.
  split; [reflexivity|].
  split; [reflexivity|].
  apply (check_failure_isolated example_candidate_priority 0%nat example_check_request true (TransactionError None) "0f1e2d3c4b5a"%string example_agent (new_pair example_protocol example_remote_1));
    reflexivity.
Defined.

(** The first check of [example_agent] gets its response. *)
Lemma check_success_nominates_witness :
  (pairs (connection example_agent) !! 0%nat = Some (new_pair example_protocol example_remote_1))
  ∧ ((true || remote_nominated (new_pair example_protocol example_remote_1) = true →
   (check_start_response example_candidate_priority 0%nat example_check_request true
      (Response (binding_response example_check_request ("192.0.2.1"%string, 9) fresh_connection) (remote_addr (new_pair example_protocol example_remote_1))) "0f1e2d3c4b5a"%string example_agent).1 = CheckReturns
   ∧ _nominated
       (connection
          (check_start_response example_candidate_priority 0%nat example_check_request true
             (Response (binding_response example_check_request ("192.0.2.1"%string, 9) fresh_connection) (remote_addr (new_pair example_protocol example_remote_1))) "0f1e2d3c4b5a"%string example_agent).2)
     = <[pair_component (new_pair example_protocol example_remote_1) := 0%nat]> (_nominated (connection example_agent))
   ∧ pairs
       (connection
          (check_start_response example_candidate_priority 0%nat example_check_request true
             (Response (binding_response example_check_request ("192.0.2.1"%string, 9) fresh_connection) (remote_addr (new_pair example_protocol example_remote_1))) "0f1e2d3c4b5a"%string example_agent).2) !! 0%nat
     = Some (set_task None
               (set_state SUCCEEDED (set_pair_nominated true (new_pair example_protocol example_remote_1)))))
  ∧ (true || remote_nominated (new_pair example_protocol example_remote_1) = false →
     ice_controlling (connection example_agent) = true →
     pair_component (new_pair example_protocol example_remote_1) ∉ _nominating example_agent →
     ∀ key, remote_password example_agent = Some key →
       ∃ request',
         check_start_response example_candidate_priority 0%nat example_check_request true
           (Response (binding_response example_check_request ("192.0.2.1"%string, 9) fresh_connection) (remote_addr (new_pair example_protocol example_remote_1))) "0f1e2d3c4b5a"%string example_agent
         = (AwaitsNomination request',
            set_nominating (_nominating example_agent ∪ {[ pair_component (new_pair example_protocol example_remote_1) ]}) example_agent)
         ∧ USE_CANDIDATE (attributes request') = true
         ∧ ICE_CONTROLLING (attributes request')
           = Some (_tie_breaker (connection example_agent))
         ∧ integrity_key request' = Some key)
  ∧ (true || remote_nominated (new_pair example_protocol example_remote_1) = false →
     ice_controlling (connection example_agent) = false
     ∨ pair_component (new_pair example_protocol example_remote_1) ∈ _nominating example_agent →
     (check_start_response example_candidate_priority 0%nat example_check_request true
        (Response (binding_response example_check_request ("192.0.2.1"%string, 9) fresh_connection) (remote_addr (new_pair example_protocol example_remote_1))) "0f1e2d3c4b5a"%string example_agent).1 = CheckReturns
     ∧ _nominated
         (connection
            (check_start_response example_candidate_priority 0%nat example_check_request true
               (Response (binding_response example_check_request ("192.0.2.1"%string, 9) fresh_connection) (remote_addr (new_pair example_protocol example_remote_1))) "0f1e2d3c4b5a"%string example_agent).2)
       = (if nominated (new_pair example_protocol example_remote_1)
          then <[pair_component (new_pair example_protocol example_remote_1) := 0%nat]> (_nominated (connection example_agent))
          else _nominated (connection example_agent))
     ∧ pairs
         (connection
            (check_start_response example_candidate_priority 0%nat example_check_request true
               (Response (binding_response example_check_request ("192.0.2.1"%string, 9) fresh_connection) (remote_addr (new_pair example_protocol example_remote_1))) "0f1e2d3c4b5a"%string example_agent).2) !! 0%nat
       = Some (set_task None (set_state SUCCEEDED (new_pair example_protocol example_remote_1))))).
Proof.
  split; [reflexivity|].
  apply (check_success_nominates example_candidate_priority 0%nat example_check_request true (binding_response example_check_request ("192.0.2.1"%string, 9) fresh_connection) "0f1e2d3c4b5a"%string example_agent (new_pair example_protocol example_remote_1));
    reflexivity.
Defined.
